(** * growth_projection_tool: the projector [generate_growth_projection]

    A shallow embedding of [src/growth_projection_tool.py] and the
    properties of its specification.

    Python values are modelled as the interpreter has them: [int] is an
    unbounded integer ([Z]); [float] is an IEEE-754 binary64 number
    ([spec_float] with [prec = 53] and [emax = 1024], rounding to nearest,
    ties to even).  The argument types are the ones [main] passes: integer
    user counts, month counts and tier limits, float growth rate and
    prices.  An exception is a value of the result type.  Of [pandas] only
    the constructor of the table is modelled: it keeps the rows and the
    labels and raises when their widths differ.

    The chart [plot_growth_projection] is modelled by what it draws: the
    calls of [ax.plot] and [ax.fill_between] with their data and style.
    Of [main] the model has the arguments it builds from the sidebar (the
    widgets are the record of the values they return), its call of the
    projector and the format of a displayed cost; what Streamlit renders
    is not modelled. *)

From Stdlib Require Import ZArith List String Ascii Bool Lia.
From Stdlib Require Import SpecFloat DecimalString DecimalNat.
From Stdlib Require Import Reals Lra.
Import ListNotations.

Local Open Scope Z_scope.

(** ** Python's numbers and exceptions *)

Module Py.

(** The exceptions the arithmetic of the projector can raise, and the one
    [pandas.DataFrame] raises on a shape mismatch (also a [ValueError]). *)
Inductive exn : Type :=
| OverflowError
| ValueError.

Inductive result (A : Type) : Type :=
| Ok (a : A)
| Raise (e : exn).

Arguments Ok {A} a.
Arguments Raise {A} e.

Definition bind {A B : Type} (r : result A) (k : A -> result B) : result B :=
  match r with
  | Ok a => k a
  | Raise e => Raise e
  end.

(** binary64 *)
Definition prec : Z := 53.
Definition emax : Z := 1024.

Definition fmul : spec_float -> spec_float -> spec_float := SFmul prec emax.
Definition fadd : spec_float -> spec_float -> spec_float := SFadd prec emax.
Definition fdiv : spec_float -> spec_float -> spec_float := SFdiv prec emax.

(** [float(z)] for an [int]: the nearest binary64 number, ties to even;
    [OverflowError] ("int too large to convert to float") when that is out
    of range. *)
Definition float_of_int (z : Z) : result spec_float :=
  match binary_normalize prec emax z 0 false with
  | S754_infinity _ => Raise OverflowError
  | f => Ok f
  end.

(** [int(x)] for a [float]: truncation toward zero; [OverflowError] on an
    infinity and [ValueError] on a NaN. *)
Definition int_of_float (f : spec_float) : result Z :=
  match f with
  | S754_zero _ => Ok 0
  | S754_finite s m e => Ok (cond_Zopp s (Z.shiftl (Zpos m) e))
  | S754_infinity _ => Raise OverflowError
  | S754_nan => Raise ValueError
  end.

(** A Python number: an [int] or a [float]. *)
Inductive num : Type :=
| Int (z : Z)
| Float (f : spec_float).

(** [a * b]: an [int] operand is converted when the other is a [float]. *)
Definition mul (a b : num) : result num :=
  match a, b with
  | Int x, Int y => Ok (Int (x * y))
  | Int x, Float y => bind (float_of_int x) (fun x' => Ok (Float (fmul x' y)))
  | Float x, Int y => bind (float_of_int y) (fun y' => Ok (Float (fmul x y')))
  | Float x, Float y => Ok (Float (fmul x y))
  end.

(** [a + b] *)
Definition add (a b : num) : result num :=
  match a, b with
  | Int x, Int y => Ok (Int (x + y))
  | Int x, Float y => bind (float_of_int x) (fun x' => Ok (Float (fadd x' y)))
  | Float x, Int y => bind (float_of_int y) (fun y' => Ok (Float (fadd x y')))
  | Float x, Float y => Ok (Float (fadd x y))
  end.

(** The built-in [sum(xs)]: a left fold of [+] from the [int] 0. *)
Fixpoint sum_from (acc : num) (xs : list num) : result num :=
  match xs with
  | [] => Ok acc
  | x :: xs' => bind (add acc x) (fun acc' => sum_from acc' xs')
  end.

Definition sum (xs : list num) : result num := sum_from (Int 0) xs.

(** [str(n)] for a non-negative [int], as an f-string renders it. *)
Definition str_of_nat (n : nat) : string := NilZero.string_of_uint (Nat.to_uint n).

End Py.

Export Py.

Notation "x <- r ;; k" := (bind r (fun x => k))
  (at level 61, r at next level, right associativity).

(** The float literals the code's integer constants convert to. *)
Definition f_one : spec_float := S754_finite false 4503599627370496 (-52).
Definition f_hundred : spec_float := S754_finite false 7036874417766400 (-46).
Definition f_zero : spec_float := S754_zero false.

(** ** The projector *)

(** [1 + growth_rate / 100] with [growth_rate] a float: both integer
    constants are converted to float. *)
Definition growth_factor (growth_rate : spec_float) : spec_float :=
  fadd f_one (fdiv growth_rate f_hundred).

(** [int(users[-1] * (1 + growth_rate / 100))] *)
Definition next_users (growth_rate : spec_float) (last_users : Z) : result Z :=
  x <- float_of_int last_users ;;
  int_of_float (fmul x (growth_factor growth_rate)).

(** [for _ in range(months): users.append(...)], run on the list built so
    far; [users[-1]] is its last element. *)
Fixpoint grow_users (growth_rate : spec_float) (n : nat) (users : list Z)
  : result (list Z) :=
  match n with
  | O => Ok users
  | S n' =>
      u <- next_users growth_rate (last users 0) ;;
      grow_users growth_rate n' (users ++ [u])
  end.

(** Lines 7-9: [range(months)] is empty for [months <= 0]. *)
Definition project_users (initial_users : Z) (growth_rate : spec_float) (months : Z)
  : result (list Z) :=
  grow_users growth_rate (Z.to_nat months) [initial_users].

(** The variables of the pricing loop. *)
Record pricing_state : Type := {
  remaining_users : Z;
  tier_costs : list num;
  total_cost : num
}.

(** Lines 18-25: one iteration of the loop over [zip(tier_limits, tier_prices)]. *)
Definition tier_step (st : pricing_state) (tier : Z * spec_float)
  : result pricing_state :=
  let '(limit, price) := tier in
  if remaining_users st >? limit then
    tier_cost <- mul (Int limit) (Float price) ;;
    total <- add (total_cost st) tier_cost ;;
    Ok {| remaining_users := remaining_users st - limit;
          tier_costs := tier_costs st ++ [tier_cost];
          total_cost := total |}
  else
    tier_cost <- mul (Int (remaining_users st)) (Float price) ;;
    total <- add (total_cost st) tier_cost ;;
    Ok {| remaining_users := 0;
          tier_costs := tier_costs st ++ [tier_cost];
          total_cost := total |}.

Fixpoint tier_loop (st : pricing_state) (tiers : list (Z * spec_float))
  : result pricing_state :=
  match tiers with
  | [] => Ok st
  | t :: tiers' => st' <- tier_step st t ;; tier_loop st' tiers'
  end.

(** Lines 27-32: the final, unbounded tier. *)
Definition final_tier (st : pricing_state) (final_tier_price : spec_float)
  : result pricing_state :=
  if remaining_users st >? 0 then
    final_tier_cost <- mul (Int (remaining_users st)) (Float final_tier_price) ;;
    total <- add (total_cost st) final_tier_cost ;;
    Ok {| remaining_users := remaining_users st;
          tier_costs := tier_costs st ++ [final_tier_cost];
          total_cost := total |}
  else
    Ok {| remaining_users := remaining_users st;
          tier_costs := tier_costs st ++ [Int 0];
          total_cost := total_cost st |}.

(** Lines 13-36: the body of the loop over the months, for one user count. *)
Definition price_month (tier_limits : list Z) (tier_prices : list spec_float)
    (final_tier_price : spec_float) (use_tiers : bool) (user_count : Z)
  : result pricing_state :=
  let st := {| remaining_users := user_count; tier_costs := []; total_cost := Int 0 |} in
  if use_tiers then
    st' <- tier_loop st (combine tier_limits tier_prices) ;;
    final_tier st' final_tier_price
  else
    final_tier_cost <- mul (Int user_count) (Float final_tier_price) ;;
    Ok {| remaining_users := user_count;
          tier_costs := [final_tier_cost];
          total_cost := final_tier_cost |}.

(** Line 38: [[i, user_count] + tier_costs + [total_cost]] *)
Definition pricing_row (i : nat) (user_count : Z) (st : pricing_state) : list num :=
  [Int (Z.of_nat i); Int user_count] ++ tier_costs st ++ [total_cost st].

(** Lines 11-38: the loop over [enumerate(users)], from index [i]. *)
Fixpoint pricing_rows (tier_limits : list Z) (tier_prices : list spec_float)
    (final_tier_price : spec_float) (use_tiers : bool) (i : nat) (users : list Z)
  : result (list (list num)) :=
  match users with
  | [] => Ok []
  | user_count :: users' =>
      st <- price_month tier_limits tier_prices final_tier_price use_tiers user_count ;;
      rows <- pricing_rows tier_limits tier_prices final_tier_price use_tiers (S i) users' ;;
      Ok (pricing_row i user_count st :: rows)
  end.

Definition pricing_data (tier_limits : list Z) (tier_prices : list spec_float)
    (final_tier_price : spec_float) (use_tiers : bool) (users : list Z)
  : result (list (list num)) :=
  pricing_rows tier_limits tier_prices final_tier_price use_tiers 0 users.

(** Lines 40-45 *)
Definition tier_header (i : nat) : string :=
  ("Tier " ++ str_of_nat (i + 1) ++ " Pricing ($)")%string.

Definition column_headers (tier_limits : list Z) (use_tiers : bool) : list string :=
  let column_headers := ["Month"; "Projected Users"]%string in
  let column_headers :=
    if use_tiers then
      column_headers ++
        (map tier_header (seq 0 (List.length tier_limits)) ++ ["Final Tier Pricing ($)"%string])
    else
      column_headers ++ ["Final Tier Pricing ($)"%string] in
  column_headers ++ ["Total Estimated Pricing ($)"%string].

(** The table: its column labels and its rows. *)
Record DataFrame : Type := {
  columns : list string;
  data : list (list num)
}.

(** [pd.DataFrame(rows, columns=cols)] on a list of rows: pandas raises a
    [ValueError] ("n columns passed, passed data had m columns") unless
    the rows are as wide as the list of labels. *)
Definition make_DataFrame (rows : list (list num)) (cols : list string)
  : result DataFrame :=
  if forallb (fun row => Nat.eqb (List.length row) (List.length cols)) rows then
    Ok {| columns := cols; data := rows |}
  else Raise ValueError.

Definition generate_growth_projection (initial_users : Z) (growth_rate : spec_float)
    (months : Z) (tier_limits : list Z) (tier_prices : list spec_float)
    (final_tier_price : spec_float) (use_tiers : bool) : result DataFrame :=
  users <- project_users initial_users growth_rate months ;;
  rows <- pricing_data tier_limits tier_prices final_tier_price use_tiers users ;;
  make_DataFrame rows (column_headers tier_limits use_tiers).

(** ** Reading a row back as the specification's MonthRecord *)

Definition row_month (row : list num) : option num := nth_error row 0.
Definition row_users (row : list num) : option num := nth_error row 1.
Definition row_tier_costs (row : list num) : list num := removelast (skipn 2 row).
Definition row_total (row : list num) : option num :=
  match row with [] => None | _ => Some (last row (Int 0)) end.

(** ** The specification's vocabulary *)

(** A non-negative real, as a float: a zero or a positive finite binary64
    number. *)
Definition nonneg_real (f : spec_float) : bool :=
  match f with
  | S754_zero _ => true
  | S754_finite false m e => SpecFloat.bounded prec emax m e
  | _ => false
  end.

(** [x < 0] on floats. *)
Definition negative (f : spec_float) : bool := SFltb f f_zero.

(** The tiers of a Tiered configuration are a sequence of pairs: the two
    lists the code takes are parallel. *)
Definition valid_tiers (tier_limits : list Z) (tier_prices : list spec_float) : bool :=
  forallb (fun limit => 0 <? limit) tier_limits
  && forallb nonneg_real tier_prices
  && Nat.eqb (List.length tier_limits) (List.length tier_prices).

(** GrowthConfig and PricingConfig of the data model: positive initial
    users and horizon, non-negative rate and prices, positive capacities.
    With Flat pricing the tier lists are not part of the configuration. *)
Definition valid_config (initial_users : Z) (growth_rate : spec_float) (months : Z)
    (tier_limits : list Z) (tier_prices : list spec_float)
    (final_tier_price : spec_float) (use_tiers : bool) : bool :=
  (0 <? initial_users) && (0 <? months)
  && nonneg_real growth_rate && nonneg_real final_tier_price
  && (if use_tiers then valid_tiers tier_limits tier_prices else true).

(** The error conditions of section 4.1: [initialUsers <= 0],
    [horizonMonths <= 0], a tier capacity [<= 0], a negative price or
    rate. *)
Definition invalid_config (initial_users : Z) (growth_rate : spec_float) (months : Z)
    (tier_limits : list Z) (tier_prices : list spec_float)
    (final_tier_price : spec_float) (use_tiers : bool) : bool :=
  (initial_users <=? 0) || (months <=? 0)
  || negative growth_rate || negative final_tier_price
  || (use_tiers && (existsb (fun limit => limit <=? 0) tier_limits
                    || existsb negative tier_prices)).

(** The Tiered pricing evaluation in the words of section 4.1:
    [charged = min(remaining, capacity)], [cost = charged * unitPrice],
    append [cost], [total += cost], [remaining -= charged]. *)
Definition spec_tier_step (st : pricing_state) (tier : Z * spec_float)
  : result pricing_state :=
  let '(capacity, unitPrice) := tier in
  let charged := Z.min (remaining_users st) capacity in
  cost <- mul (Int charged) (Float unitPrice) ;;
  total <- add (total_cost st) cost ;;
  Ok {| remaining_users := remaining_users st - charged;
        tier_costs := tier_costs st ++ [cost];
        total_cost := total |}.



(** The sum of the capacities of the bounded tiers. *)
Definition sum_limits (limits : list Z) : Z := fold_right Z.add 0 limits.

(** The header labels of section 6, for [n] bounded tiers. *)
Definition spec_tier_label (N : nat) : string :=
  ("Tier " ++ str_of_nat N ++ " Pricing ($)")%string.

Definition spec_headers (n : nat) (tiered : bool) : list string :=
  ["Month"%string; "Projected Users"%string]
  ++ (if tiered
      then map spec_tier_label (seq 1 n) ++ ["Final Tier Pricing ($)"%string]
      else ["Final Tier Pricing ($)"%string])
  ++ ["Total Estimated Pricing ($)"%string].

(** Floats that are not NaN.  [nonneg_float]: [+0], a positive finite
    number or [+inf]; [cost_float]: the same or [-0]; [finite_nonneg]:
    [+0] or a positive finite number. *)
Definition nonneg_float (f : spec_float) : bool :=
  match f with
  | S754_zero s | S754_infinity s | S754_finite s _ _ => negb s
  | S754_nan => false
  end.

Definition cost_float (f : spec_float) : bool :=
  match f with
  | S754_zero _ => true
  | _ => nonneg_float f
  end.

Definition finite_nonneg (f : spec_float) : bool :=
  match f with
  | S754_zero false | S754_finite false _ _ => true
  | _ => false
  end.

(** The running total of the pricing loop is the [int] 0 or a float
    that is not negative; a cost is a float, or the explicit [int] 0. *)
Definition total_ok (t : num) : bool :=
  match t with
  | Int z => z =? 0
  | Float f => nonneg_float f
  end.

(** Python's [a == b] on two numbers of the same type: equal integers,
    or floats equal in IEEE-754 (no NaN, zeros of either sign equal). *)
Definition same_value (a b : num) : Prop :=
  match a, b with
  | Int x, Int y => x = y
  | Float x, Float y => SFeqb x y = true
  | _, _ => False
  end.

(** ** The real value of a float *)

Definition bpow (e : Z) : R := powerRZ 2 e.

Definition F2R (m e : Z) : R := (IZR m * bpow e)%R.

Definition B2R (f : spec_float) : R :=
  match f with
  | S754_finite s m e => F2R (cond_Zopp s (Zpos m)) e
  | _ => 0%R
  end.

(** A mantissa and an exponent a binary64 number can have: at most [prec]
    digits, exponent at least [emin]. *)
Definition fits (m e : Z) : Prop :=
  Zdigits2 m <= prec /\ emin prec emax <= e.

(** What [shr] computes on the mantissa and the exponent: a shift by [n]
    binary digits when [n] is positive. *)
Definition shift_to (m e n : Z) : Z * Z :=
  if 0 <? n then (m / 2 ^ n, e + n) else (m, e).

(** The last steps of [binary_round_aux], on the rounded mantissa. *)
Definition finish (s : bool) (m e : Z) : spec_float :=
  let '(m', e') := shift_to m e (fexp prec emax (Zdigits2 m + e) - e) in
  match m' with
  | Z0 => S754_zero s
  | Zpos p => if e' <=? emax - prec then S754_finite s p e' else S754_infinity s
  | Zneg _ => S754_nan
  end.

(** [int(float(z)) == z]: the integer is a binary64 number. *)
Definition exact_float (z : Z) : bool :=
  match float_of_int z with
  | Ok f => match int_of_float f with Ok z' => z' =? z | Raise _ => false end
  | Raise _ => false
  end.

(** A mantissa and an exponent in the canonical form of binary64: the
    exponent is the one [fexp] gives for the number's magnitude. *)
Definition canon (m e : Z) : Prop := fexp prec emax (Zdigits2 m + e) = e.

(** The growth factor the code computes is below [2 ^ b]. *)
Definition factor_below (growth_rate : spec_float) (b : Z) : bool :=
  match growth_factor growth_rate with
  | S754_finite false p e => Zdigits2 (Zpos p) + e <=? b
  | _ => false
  end.

(** A sufficient bound for the projection to stay in the range of
    binary64: the binary digits of [initial_users], plus, for each month,
    those of the growth factor and one more, are at most 1023. *)
Definition in_range (initial_users : Z) (growth_rate : spec_float) (months : Z)
  : bool :=
  match growth_factor growth_rate with
  | S754_finite false p e =>
      Z.log2 initial_users + 1 + months * (Zdigits2 (Zpos p) + e + 1) <=? 1023
  | _ => false
  end.

(** An integer that is a binary64 number. *)
Definition int_fits (z : Z) : Prop :=
  exists ma ea, 0 < ma /\ fits ma ea /\ F2R ma ea = IZR z.

(** [t] is [x] rounded to a neighbouring binary64 number: no number
    [ma * 2 ^ ea] of at most 53 binary digits with [ea >= -1074] lies
    strictly between the two.  When [x] is such a number, [t] is [x]. *)
Definition rounds (x t : R) : Prop :=
  forall ma ea, 0 <= ma -> fits ma ea ->
    ((F2R ma ea <= x)%R -> (F2R ma ea <= t)%R)
    /\ ((x <= F2R ma ea)%R -> (t <= F2R ma ea)%R).

(** A float that is a number: a zero or a finite one. *)
Definition is_finite (f : spec_float) : bool :=
  match f with
  | S754_zero _ | S754_finite _ _ _ => true
  | _ => false
  end.


(** The invariant of the pricing loop. *)
Definition pricing_inv (st : pricing_state) : Prop :=
  sum (tier_costs st) = Ok (total_cost st)
  /\ total_ok (total_cost st) = true
  /\ 0 <= remaining_users st.

(** The float an integer literal denotes. *)
Definition f_of (z : Z) : spec_float :=
  match float_of_int z with Ok f => f | Raise _ => S754_nan end.

(** ** More vocabulary for the properties of the code *)

(** A cost of the table that is a number and not negative: the explicit
    [int] 0, or a float that is a zero, positive or [+inf]. *)
Definition nonneg_cost (c : num) : bool :=
  match c with
  | Int z => z =? 0
  | Float f => cost_float f
  end.


(** ** The chart *)

(** The exceptions [plot_growth_projection] can raise: those of the number
    conversions, the [KeyError] of a column lookup and the [IndexError] of
    a list index. *)
Inductive plot_exn : Type :=
| Arith (e : exn)
| KeyError (label : string)
| IndexError.

Inductive outcome (A : Type) : Type :=
| Returns (a : A)
| Raises (e : plot_exn).

Arguments Returns {A} a.
Arguments Raises {A} e.

Definition obind {A B : Type} (r : outcome A) (k : A -> outcome B) : outcome B :=
  match r with
  | Returns a => k a
  | Raises e => Raises e
  end.

Notation "x <~ r ;; k" := (obind r (fun x => k))
  (at level 61, r at next level, right associativity).

Definition lift {A : Type} (r : result A) : outcome A :=
  match r with
  | Ok a => Returns a
  | Raise e => Raises (Arith e)
  end.

(** [needle in hay] on two strings. *)
Fixpoint contains (needle hay : string) : bool :=
  String.prefix needle hay
  || match hay with
     | EmptyString => false
     | String _ hay' => contains needle hay'
     end.

(** The position of a label in the header. *)
Fixpoint index_of (label : string) (cols : list string) : option nat :=
  match cols with
  | [] => None
  | col :: cols' =>
      if String.eqb col label then Some O
      else option_map S (index_of label cols')
  end.

(** [df[label]]: the entries of the column with that label, one per row;
    [KeyError] when no column has it.  The labels of a projected table
    are distinct ([column_headers_NoDup]), so the label names one
    column. *)
Definition column (df : DataFrame) (label : string) : outcome (list num) :=
  match index_of label (columns df) with
  | Some j => Returns (map (fun row => nth j row (Int 0)) (data df))
  | None => Raises (KeyError label)
  end.

(** [float(x)] and [int(x)] on a number of the table.  The [Month] column
    [astype(int)] is applied to holds the integers of [enumerate]. *)
Definition as_float (x : num) : result spec_float :=
  match x with
  | Int z => float_of_int z
  | Float f => Ok f
  end.

Definition as_int (x : num) : result Z :=
  match x with
  | Int z => Ok z
  | Float f => int_of_float f
  end.

(** A conversion applied to every entry, in order. *)
Fixpoint astype {A : Type} (conv : num -> result A) (xs : list num) : result (list A) :=
  match xs with
  | [] => Ok []
  | x :: xs' => y <- conv x ;; ys <- astype conv xs' ;; Ok (y :: ys)
  end.

(** [a + b] on two arrays of floats of the same length. *)
Definition add_arrays (a b : list spec_float) : list spec_float :=
  map (fun ab => fadd (fst ab) (snd ab)) (combine a b).

(** What is drawn on the axes: the calls of [ax.plot] and [ax.fill_between]
    with the data and the style they are given. *)
Inductive artist : Type :=
| Line2D (xs : list Z) (ys : list spec_float) (marker linestyle color label : string)
| FillBetween (xs : list Z) (y1 y2 : list spec_float) (color : string)
    (alpha : spec_float) (label : string).

Definition artist_label (a : artist) : string :=
  match a with
  | Line2D _ _ _ _ _ label => label
  | FillBetween _ _ _ _ _ label => label
  end.

Record Figure : Type := {
  artists : list artist;
  xlabel : string;
  ylabel : string;
  title : string;
  legend : list string
}.

(** Line 58 *)
Definition colors : list string :=
  ["lightgreen"; "lightcoral"; "lightskyblue"; "lightgoldenrodyellow"]%string.

(** Line 59: [[col for col in df.columns if "Tier" in col and "Total" not in col]] *)
Definition tier_columns (df : DataFrame) : list string :=
  filter (fun col => contains "Tier" col && negb (contains "Total" col)) (columns df).

(** The literal [0.5]. *)
Definition f_half : spec_float := S754_finite false 4503599627370496 (-53).

(** Lines 62-65: the loop over [enumerate(tier_columns)], from index [i];
    [fill_between] takes its data when it is called, before
    [bottom_values] is updated. *)
Fixpoint fill_tiers (df : DataFrame) (months : list Z) (i : nat)
    (tier_columns : list string) (bottom_values : list spec_float)
  : outcome (list artist) :=
  match tier_columns with
  | [] => Returns []
  | tier_col :: rest =>
      col <~ column df tier_col ;;
      tier_values <~ lift (astype as_float col) ;;
      let top := add_arrays bottom_values tier_values in
      color <~ match nth_error colors i with
               | Some c => Returns c
               | None => Raises IndexError
               end ;;
      bands <~ fill_tiers df months (S i) rest top ;;
      Returns (FillBetween months bottom_values top color f_half tier_col :: bands)
  end.

(** Lines 50-71 *)
Definition plot_growth_projection (df : DataFrame) (use_tiers : bool) : outcome Figure :=
  month_col <~ column df "Month" ;;
  months <~ lift (astype as_int month_col) ;;
  total_col <~ column df "Total Estimated Pricing ($)" ;;
  total_pricing <~ lift (astype as_float total_col) ;;
  let line := Line2D months total_pricing "o" "-" "blue" "Total Pricing" in
  bands <~ (if use_tiers then
              fill_tiers df months 0 (tier_columns df)
                (repeat f_zero (List.length months))
            else Returns []) ;;
  Returns {| artists := line :: bands;
             xlabel := "Month";
             ylabel := "Estimated Pricing ($)";
             title := "Projected Growth & Pricing";
             legend := map artist_label (line :: bands) |}.

(** The bands of a stacked chart: each one starts where the one before
    it ended, the first one at [bottom]. *)
Fixpoint stacked (bottom : list spec_float) (bands : list artist) : Prop :=
  match bands with
  | [] => True
  | FillBetween _ y1 y2 _ _ _ :: rest => y1 = bottom /\ stacked y2 rest
  | Line2D _ _ _ _ _ _ :: _ => False
  end.

(** The upper edge of the last band. *)
Fixpoint stack_top (bottom : list spec_float) (bands : list artist) : list spec_float :=
  match bands with
  | [] => bottom
  | FillBetween _ _ y2 _ _ _ :: rest => stack_top y2 rest
  | Line2D _ _ _ _ _ _ :: rest => stack_top bottom rest
  end.

Definition band_color (a : artist) : string :=
  match a with
  | Line2D _ _ _ _ color _ => color
  | FillBetween _ _ _ color _ _ => color
  end.

(** Two calls with the same outcome: the same exception, or two tables
    with the same labels and, cell by cell, the same numbers ([==]). *)
Definition same_result (a b : result DataFrame) : Prop :=
  match a, b with
  | Ok x, Ok y =>
      columns x = columns y /\ Forall2 (Forall2 same_value) (data x) (data y)
  | Raise e, Raise e' => e = e'
  | _, _ => False
  end.

(** An entry of a cost column: the explicit [int] 0, or a float. *)
Definition is_cell (c : num) : Prop := c = Int 0 \/ exists f, c = Float f.

(** ** The display format and the sidebar *)

(** [str(n)] for a non-negative integer of any size. *)
Definition str_of_N (n : N) : string := NilZero.string_of_uint (N.to_uint n).

(** The number of hundredths nearest to [m * 2^e], a tie going to the even
    one: the digits the format [.2f] prints for a binary64 number, which
    it rounds from the exact binary value. *)
Definition hundredths (m : positive) (e : Z) : Z :=
  match e with
  | Zneg p =>
      let d := 2 ^ Zpos p in
      let q := (Zpos m * 100) / d in
      let r := (Zpos m * 100) mod d in
      if 2 * r <? d then q
      else if d <? 2 * r then q + 1
      else if Z.even q then q else q + 1
  | _ => Zpos m * 100 * 2 ^ e
  end.

Definition two_digits (n : Z) : string :=
  ((if (n <? 10)%Z then "0" else "") ++ str_of_N (Z.to_N n))%string.

(** [c] hundredths written with two decimals. *)
Definition fixed_2 (c : Z) : string :=
  (str_of_N (Z.to_N (c / 100)) ++ "." ++ two_digits (c mod 100))%string.

(** [f"{x:.2f}"] for a float. *)
Definition format_float (x : spec_float) : string :=
  match x with
  | S754_zero s => ((if s then "-" else "") ++ "0.00")%string
  | S754_infinity s => ((if s then "-" else "") ++ "inf")%string
  | S754_nan => "nan"%string
  | S754_finite s m e => ((if s then "-" else "") ++ fixed_2 (hundredths m e))%string
  end.

(** Line 95: [lambda x: f"{x:.2f}"]; an [int] is formatted as its float. *)
Definition format_2f (x : num) : result string :=
  f <- as_float x ;; Ok (format_float f).

(** The values of the widgets of the sidebar (lines 77-90).  The tier
    widgets are read only with tiered pricing, the flat cost only
    without. *)
Record Sidebar : Type := {
  initial_users_input : Z;
  growth_rate_input : spec_float;
  months_input : Z;
  use_tiers_input : bool;
  num_tiers_input : Z;
  tier_limit_input : nat -> Z;
  tier_price_input : nat -> spec_float;
  final_tier_price_input : spec_float;
  flat_cost_input : spec_float
}.

(** What the widgets give: [number_input] a number of the type of its
    [value], not below [min_value] nor above [max_value]; [radio] one of
    its options. *)
Definition widgets_ok (ui : Sidebar) : bool :=
  (1 <=? initial_users_input ui)
  && nonneg_real (growth_rate_input ui)
  && ((months_input ui =? 12) || (months_input ui =? 24))
  && (if use_tiers_input ui then
        (1 <=? num_tiers_input ui) && (num_tiers_input ui <=? 3)
        && forallb (fun i => 1 <=? tier_limit_input ui i)
             (seq 0 (Z.to_nat (num_tiers_input ui)))
        && forallb (fun i => nonneg_real (tier_price_input ui i))
             (seq 0 (Z.to_nat (num_tiers_input ui)))
        && nonneg_real (final_tier_price_input ui)
      else nonneg_real (flat_cost_input ui)).

(** Lines 82-90: the tier arguments [main] builds. *)
Definition tier_limits_of (ui : Sidebar) : list Z :=
  if use_tiers_input ui then
    map (tier_limit_input ui) (seq 0 (Z.to_nat (num_tiers_input ui)))
  else [].

Definition tier_prices_of (ui : Sidebar) : list spec_float :=
  if use_tiers_input ui then
    map (tier_price_input ui) (seq 0 (Z.to_nat (num_tiers_input ui)))
  else [].

Definition final_tier_price_of (ui : Sidebar) : spec_float :=
  if use_tiers_input ui then final_tier_price_input ui else flat_cost_input ui.

(** Line 92: the call of the projector with the arguments built from the
    widgets.  What [main] then does with the table and the chart -- the
    formatted copy, the rendering by Streamlit, the downloads -- is not
    part of the model. *)
Definition main_projection (ui : Sidebar) : result DataFrame :=
  generate_growth_projection (initial_users_input ui) (growth_rate_input ui)
    (months_input ui) (tier_limits_of ui) (tier_prices_of ui)
    (final_tier_price_of ui) (use_tiers_input ui).

(** * Properties *)

Example f_one_is_float_1 : float_of_int 1 = Ok f_one.
Proof. reflexivity. Qed.

Example f_hundred_is_float_100 : float_of_int 100 = Ok f_hundred.
Proof. reflexivity. Qed.

(** ** The result monad *)

Lemma bind_Ok {A B : Type} (r : result A) (k : A -> result B) (b : B) :
  bind r k = Ok b -> exists a, r = Ok a /\ k a = Ok b.
Proof. destruct r as [a|e]; simpl; intros H; [eauto | discriminate]. Qed.

Ltac inv_bind H :=
  let a := fresh "a" in
  let Ha := fresh "Ha" in
  apply bind_Ok in H; destruct H as [a [Ha H]].

Ltac inv_ok :=
  repeat match goal with
  | H : Ok _ = Ok _ |- _ => injection H as H; try subst
  | H : Raise _ = Ok _ |- _ => discriminate H
  | H : bind _ _ = Ok _ |- _ => inv_bind H
  end.

(** ** The growth loop *)

Lemma grow_users_app g n : forall users users',
  grow_users g n users = Ok users' ->
  exists tl, users' = users ++ tl /\ List.length tl = n.
Proof.
  induction n as [|n IH]; simpl; intros users users' H.
  - inv_ok. exists []. now rewrite app_nil_r.
  - inv_ok. apply IH in H. destruct H as [tl [-> Hl]].
    exists (a :: tl). split; [now rewrite <- app_assoc | simpl; congruence].
Qed.

Lemma grow_users_step g n : forall users users' d,
  users <> [] ->
  grow_users g n users = Ok users' ->
  forall k, (k < n)%nat ->
    next_users g (nth (List.length users - 1 + k) users' d)
    = Ok (nth (List.length users + k) users' d).
Proof.
  induction n as [|n IH]; simpl; intros users users' d Hne H k Hk; [lia|].
  inv_ok.
  destruct (exists_last Hne) as [l [x Hx]]. subst users.
  rewrite last_last in Ha.
  pose proof (grow_users_app _ _ _ _ H) as [tl [Htl Hlen]].
  assert (Hlen1 : List.length ((l ++ [x]) ++ [a]) = S (List.length (l ++ [x])))
    by (rewrite !length_app; simpl; lia).
  assert (Hlen0 : List.length (l ++ [x]) = S (List.length l))
    by (rewrite length_app; simpl; lia).
  destruct k as [|k].
  - rewrite !Nat.add_0_r. subst users'.
    rewrite <- !app_assoc. simpl.
    rewrite Hlen0. simpl. rewrite Nat.sub_0_r.
    rewrite (app_nth2 l) by lia. rewrite Nat.sub_diag. simpl.
    rewrite (app_nth2 l) by lia.
    replace (S (List.length l) - List.length l)%nat with 1%nat by lia.
    exact Ha.
  - specialize (IH ((l ++ [x]) ++ [a]) users' d).
    rewrite Hlen1 in IH.
    replace (List.length (l ++ [x]) - 1 + S k)%nat
      with (S (List.length (l ++ [x])) - 1 + k)%nat by lia.
    replace (List.length (l ++ [x]) + S k)%nat
      with (S (List.length (l ++ [x])) + k)%nat by lia.
    apply IH; [now destruct l | assumption | lia].
Qed.

Lemma project_users_length initial_users g months users :
  project_users initial_users g months = Ok users ->
  List.length users = S (Z.to_nat months).
Proof.
  intros H. apply grow_users_app in H. destruct H as [tl [-> Hl]].
  rewrite length_app. simpl. lia.
Qed.

Lemma project_users_head initial_users g months users :
  project_users initial_users g months = Ok users ->
  nth 0 users 0 = initial_users.
Proof.
  intros H. apply grow_users_app in H. now destruct H as [tl [-> Hl]].
Qed.

Lemma project_users_step initial_users g months users :
  project_users initial_users g months = Ok users ->
  forall m, (1 <= m <= Z.to_nat months)%nat ->
    next_users g (nth (m - 1) users 0) = Ok (nth m users 0).
Proof.
  intros H m Hm.
  assert (Hne : [initial_users] <> []) by discriminate.
  assert (Hlt : (m - 1 < Z.to_nat months)%nat) by lia.
  pose proof (grow_users_step g _ _ _ 0 Hne H (m - 1)%nat Hlt) as K.
  simpl in K. now replace (S (m - 1)) with m in K by lia.
Qed.

(** ** Floats that are not NaN: results of rounding a non-negative mantissa *)

Lemma iter_pos_invariant {A : Type} (P : A -> Prop) (f : A -> A) :
  (forall x, P x -> P (f x)) -> forall p x, P x -> P (SpecFloat.iter_pos f p x).
Proof.
  intros Hf. induction p as [p IH|p IH|]; intros x Hx; simpl; auto.
Qed.

Lemma shr_1_nonneg mrs : 0 <= shr_m mrs -> 0 <= shr_m (shr_1 mrs).
Proof.
  destruct mrs as [m r s]. destruct m as [|[p|p|]|p]; simpl; lia.
Qed.

Lemma shr_nonneg mrs e n : 0 <= shr_m mrs -> 0 <= shr_m (fst (shr mrs e n)).
Proof.
  intros H. unfold shr. destruct n as [|p|p]; simpl; auto.
  apply (iter_pos_invariant (fun x => 0 <= shr_m x)); auto using shr_1_nonneg.
Qed.

Lemma shr_record_of_loc_m m l : shr_m (shr_record_of_loc m l) = m.
Proof. now destruct l as [|[| |]]. Qed.

Lemma shr_fexp_nonneg m e l :
  0 <= m -> 0 <= shr_m (fst (shr_fexp prec emax m e l)).
Proof.
  intros H. unfold shr_fexp. apply shr_nonneg. now rewrite shr_record_of_loc_m.
Qed.

Lemma round_nearest_even_nonneg m l : 0 <= m -> 0 <= round_nearest_even m l.
Proof.
  intros H. unfold round_nearest_even.
  destruct l as [|[| |]]; try destruct (Z.even m); lia.
Qed.

Lemma binary_round_aux_nonneg m e l :
  0 <= m -> nonneg_float (binary_round_aux prec emax false m e l) = true.
Proof.
  intros Hm. unfold binary_round_aux.
  pose proof (shr_fexp_nonneg m e l Hm) as H1.
  destruct (shr_fexp prec emax m e l) as [mrs' e']. simpl in H1.
  pose proof (shr_fexp_nonneg _ e' loc_Exact
                (round_nearest_even_nonneg _ (loc_of_shr_record mrs') H1)) as H2.
  destruct (shr_fexp prec emax _ e' loc_Exact) as [mrs'' e'']. simpl in H2.
  destruct (shr_m mrs''); [reflexivity| |lia].
  now destruct (e'' <=? emax - prec).
Qed.

Lemma binary_round_nonneg m e :
  nonneg_float (binary_round prec emax false m e) = true.
Proof.
  unfold binary_round. destruct (shl_align m e _) as [mz ez].
  apply binary_round_aux_nonneg. lia.
Qed.

Lemma float_of_int_finite z x :
  0 <= z -> float_of_int z = Ok x -> finite_nonneg x = true.
Proof.
  unfold float_of_int, binary_normalize. intros Hz.
  destruct z as [|p|p]; [| |lia].
  - intros H. now inv_ok.
  - pose proof (binary_round_nonneg p 0) as Hs.
    destruct (binary_round prec emax false p 0) as [[|]|[|]| |[|] m e];
      intros H; inv_ok; try discriminate; reflexivity.
Qed.

Lemma fadd_nonneg x y :
  nonneg_float x = true -> cost_float y = true -> nonneg_float (fadd x y) = true.
Proof.
  unfold fadd, SFadd. intros Hx Hy.
  destruct x as [[|]|[|]| |[|] mx ex], y as [[|]|[|]| |[|] my ey];
    simpl in Hx, Hy; try discriminate; try reflexivity.
  destruct (shl_align mx ex _) as [a ?], (shl_align my ey _) as [b ?].
  simpl. apply binary_round_nonneg.
Qed.

Lemma fadd_zero_r x : nonneg_float x = true -> fadd x f_zero = x.
Proof.
  destruct x as [[|]|[|]| |[|] mx ex]; simpl; intros H; try discriminate; reflexivity.
Qed.

Lemma fmul_cost x p :
  finite_nonneg x = true -> nonneg_real p = true -> cost_float (fmul x p) = true.
Proof.
  unfold fmul, SFmul. intros Hx Hp.
  destruct x as [[|]|[|]| |[|] mx ex], p as [[|]|[|]| |[|] my ey];
    simpl in Hx, Hp; try discriminate; try reflexivity.
  assert (H : nonneg_float
                (binary_round_aux prec emax false (Z.pos (mx * my)) (ex + ey) loc_Exact)
              = true) by (apply binary_round_aux_nonneg; lia).
  simpl xorb. destruct (binary_round_aux _ _ _ _ _ _); simpl in *; auto.
Qed.

Lemma SFeqb_refl x : cost_float x = true -> SFeqb x x = true.
Proof.
  unfold SFeqb, SFcompare.
  destruct x as [[|]|[|]| |[|] m e]; simpl; intros H; try discriminate; try reflexivity.
  now rewrite Z.compare_refl, Pos.compare_cont_refl.
Qed.

(** ** The pricing loop *)

Lemma tier_step_spec st tier : tier_step st tier = spec_tier_step st tier.
Proof.
  destruct tier as [limit price]. unfold tier_step, spec_tier_step.
  rewrite Z.gtb_ltb. destruct (Z.ltb_spec limit (remaining_users st)).
  - now rewrite Z.min_r by lia.
  - rewrite Z.min_l by lia. now rewrite Z.sub_diag.
Qed.


Lemma tier_step_shape st limit price st' :
  tier_step st (limit, price) = Ok st' ->
  exists cost,
    mul (Int (Z.min (remaining_users st) limit)) (Float price) = Ok (Float cost)
    /\ add (total_cost st) (Float cost) = Ok (total_cost st')
    /\ tier_costs st' = tier_costs st ++ [Float cost]
    /\ remaining_users st' = Z.max 0 (remaining_users st - limit).
Proof.
  rewrite tier_step_spec. unfold spec_tier_step. intros H.
  apply bind_Ok in H. destruct H as [cost [Hmul H]].
  apply bind_Ok in H. destruct H as [total [Hadd H]].
  injection H as <-. simpl.
  assert (Hc : exists cf, cost = Float cf).
  { simpl in Hmul. apply bind_Ok in Hmul. destruct Hmul as [x [_ Hx]].
    injection Hx as <-. eauto. }
  destruct Hc as [cf ->]. exists cf. repeat split; auto. lia.
Qed.

Lemma tier_loop_length tiers : forall st st',
  tier_loop st tiers = Ok st' ->
  List.length (tier_costs st') = (List.length (tier_costs st) + List.length tiers)%nat.
Proof.
  induction tiers as [|[limit price] tiers IH]; intros st st' H.
  - simpl in H. inv_ok. simpl. lia.
  - change (tier_loop st ((limit, price) :: tiers))
      with (bind (tier_step st (limit, price)) (fun s => tier_loop s tiers)) in H.
    inv_ok. apply IH in H. rewrite H.
    apply tier_step_shape in Ha. destruct Ha as [c [_ [_ [-> _]]]].
    rewrite length_app. simpl. lia.
Qed.

Lemma sum_limits_nonneg limits :
  Forall (fun l => 0 <= l) limits -> 0 <= sum_limits limits.
Proof. induction 1; simpl; lia. Qed.

Lemma tier_loop_remaining tiers : forall st st',
  Forall (fun l => 0 <= l) (map fst tiers) ->
  tier_loop st tiers = Ok st' ->
  (0 < remaining_users st' <-> sum_limits (map fst tiers) < remaining_users st)
  /\ (sum_limits (map fst tiers) < remaining_users st ->
      remaining_users st' = remaining_users st - sum_limits (map fst tiers)).
Proof.
  induction tiers as [|[limit price] tiers IH]; intros st st' Hpos H.
  - simpl in H. inv_ok. simpl. lia.
  - change (tier_loop st ((limit, price) :: tiers))
      with (bind (tier_step st (limit, price)) (fun s => tier_loop s tiers)) in H.
    apply bind_Ok in H. destruct H as [st1 [Hstep H]].
    simpl in Hpos. inversion Hpos as [|? ? Hl Hpos']; subst.
    apply tier_step_shape in Hstep. destruct Hstep as [c [_ [_ [_ Hrem]]]].
    apply IH in H; [|assumption]. rewrite Hrem in H. simpl.
    pose proof (sum_limits_nonneg _ Hpos'). lia.
Qed.

(** ** [sum(tier_costs)] against [total_cost] *)

Lemma sum_from_app xs : forall acc y,
  sum_from acc (xs ++ [y]) = bind (sum_from acc xs) (fun t => add t y).
Proof.
  induction xs as [|x xs IH]; intros acc y; simpl.
  - now destruct (add acc y).
  - destruct (add acc x); simpl; auto.
Qed.

Lemma sum_app xs y : sum (xs ++ [y]) = bind (sum xs) (fun t => add t y).
Proof. apply sum_from_app. Qed.

Lemma add_cost_total t c t' :
  total_ok t = true -> cost_float c = true ->
  add t (Float c) = Ok t' -> total_ok t' = true.
Proof.
  destruct t as [z|f]; intros Ht Hc H.
  - apply Z.eqb_eq in Ht. subst z.
    change (add (Int 0) (Float c)) with (Ok (Float (fadd f_zero c))) in H.
    assert (E : t' = Float (fadd f_zero c)) by congruence.
    rewrite E. now apply (fadd_nonneg f_zero c).
  - change (add (Float f) (Float c)) with (Ok (Float (fadd f c))) in H.
    assert (E : t' = Float (fadd f c)) by congruence.
    rewrite E. now apply (fadd_nonneg f c).
Qed.

Lemma add_int_zero t : total_ok t = true -> add t (Int 0) = Ok t.
Proof.
  destruct t as [z|f]; simpl; intros Ht.
  - now rewrite Z.add_0_r.
  - change (fadd f (S754_zero false)) with (fadd f f_zero).
    now rewrite fadd_zero_r.
Qed.

Lemma same_value_refl t : total_ok t = true -> same_value t t.
Proof.
  destruct t as [z|f]; simpl; intros Ht; [reflexivity|].
  apply SFeqb_refl. now destruct f as [[|]|[|]| |[|] m e].
Qed.

Lemma mul_cost z p c :
  0 <= z -> nonneg_real p = true -> mul (Int z) (Float p) = Ok c ->
  exists cf, c = Float cf /\ cost_float cf = true.
Proof.
  simpl. intros Hz Hp H. inv_ok. eexists. split; [reflexivity|].
  apply fmul_cost; [eapply float_of_int_finite; eauto | assumption].
Qed.

Lemma tier_step_inv st limit price st' :
  0 <= limit -> nonneg_real price = true ->
  pricing_inv st -> tier_step st (limit, price) = Ok st' -> pricing_inv st'.
Proof.
  intros Hl Hp [Hsum [Hsign Hr]] H.
  apply tier_step_shape in H. destruct H as [c [Hmul [Hadd [Htc Hrem]]]].
  assert (Hc : cost_float c = true).
  { apply mul_cost in Hmul; [|lia|assumption].
    destruct Hmul as [cf [Hcf Hc]]. now injection Hcf as ->. }
  repeat split.
  - rewrite Htc, sum_app, Hsum. exact Hadd.
  - eapply add_cost_total; eauto.
  - lia.
Qed.

Lemma tier_loop_inv tiers : forall st st',
  Forall (fun t => 0 <= fst t /\ nonneg_real (snd t) = true) tiers ->
  pricing_inv st -> tier_loop st tiers = Ok st' -> pricing_inv st'.
Proof.
  induction tiers as [|[limit price] tiers IH]; intros st st' Hv Hinv H.
  - simpl in H. now inv_ok.
  - change (tier_loop st ((limit, price) :: tiers))
      with (bind (tier_step st (limit, price)) (fun s => tier_loop s tiers)) in H.
    inv_ok. inversion Hv as [|? ? [Hl Hp] Hv']; subst. simpl in *.
    eapply IH; [eassumption| |eassumption].
    eapply tier_step_inv; eauto.
Qed.

Lemma final_tier_shape st final st' :
  final_tier st final = Ok st' ->
  remaining_users st' = remaining_users st
  /\ exists last_cost,
      tier_costs st' = tier_costs st ++ [last_cost]
      /\ (remaining_users st <= 0 -> last_cost = Int 0 /\ total_cost st' = total_cost st)
      /\ (0 < remaining_users st ->
          mul (Int (remaining_users st)) (Float final) = Ok last_cost
          /\ add (total_cost st) last_cost = Ok (total_cost st')).
Proof.
  unfold final_tier. rewrite Z.gtb_ltb.
  destruct (Z.ltb_spec 0 (remaining_users st)) as [Hlt|Hle]; intros H.
  - apply bind_Ok in H. destruct H as [cost [Hmul H]].
    apply bind_Ok in H. destruct H as [total [Hadd H]].
    injection H as <-. simpl.
    split; [reflexivity|]. exists cost. repeat split; auto; lia.
  - injection H as <-. simpl.
    split; [reflexivity|]. exists (Int 0). repeat split; auto; lia.
Qed.

Lemma final_tier_inv st final st' :
  nonneg_real final = true ->
  pricing_inv st -> final_tier st final = Ok st' ->
  sum (tier_costs st') = Ok (total_cost st') /\ total_ok (total_cost st') = true.
Proof.
  intros Hf [Hsum [Hsign Hr]] H.
  apply final_tier_shape in H. destruct H as [_ [c [Htc [Hz Hp]]]].
  rewrite Htc, sum_app, Hsum. simpl.
  destruct (Z.ltb_spec 0 (remaining_users st)) as [Hlt|Hle].
  - destruct (Hp Hlt) as [Hmul Hadd]. split; [assumption|].
    apply mul_cost in Hmul; [|lia|assumption]. destruct Hmul as [cf [-> Hcf]].
    eapply add_cost_total; eauto.
  - destruct (Hz Hle) as [-> ->]. split; [now apply add_int_zero | assumption].
Qed.

Lemma combine_valid limits prices :
  forallb (fun limit => 0 <? limit) limits = true ->
  forallb nonneg_real prices = true ->
  Forall (fun t => 0 <= fst t /\ nonneg_real (snd t) = true) (combine limits prices).
Proof.
  revert prices. induction limits as [|l limits IH]; intros [|p prices]; simpl;
    intros Hl Hp; try constructor.
  - apply andb_true_iff in Hl, Hp. destruct Hl as [Hl _], Hp as [Hp _].
    simpl. split; [apply Z.ltb_lt in Hl; lia | assumption].
  - apply andb_true_iff in Hl, Hp. apply IH; tauto.
Qed.

Lemma flat_sum cf :
  cost_float cf = true -> exists s, sum [Float cf] = Ok s /\ same_value s (Float cf).
Proof.
  intros H. unfold sum. simpl.
  change (binary_normalize prec emax 0 0 false) with f_zero. simpl.
  eexists. split; [reflexivity|]. simpl.
  destruct cf as [[|]|[|]| |[|] m e]; try discriminate; try reflexivity.
  now apply SFeqb_refl.
Qed.

Lemma price_month_sum limits prices final use_tiers u st :
  0 <= u ->
  nonneg_real final = true ->
  (use_tiers = true ->
   forallb (fun limit => 0 <? limit) limits = true
   /\ forallb nonneg_real prices = true) ->
  price_month limits prices final use_tiers u = Ok st ->
  exists s, sum (tier_costs st) = Ok s /\ same_value s (total_cost st).
Proof.
  intros Hu Hf Hv. unfold price_month. destruct use_tiers; intros H; inv_ok.
  - destruct (Hv eq_refl) as [Hl Hp].
    assert (Hinv : pricing_inv a).
    { refine (tier_loop_inv _ _ _ (combine_valid _ _ Hl Hp) _ Ha).
      repeat split; simpl; auto. }
    destruct (final_tier_inv _ _ _ Hf Hinv H) as [Hsum Hok].
    exists (total_cost st). split; [assumption | now apply same_value_refl].
  - simpl. apply mul_cost in Ha; [|assumption|assumption].
    destruct Ha as [cf [-> Hcf]]. now apply flat_sum.
Qed.

(** ** Rows and the table *)

Lemma pricing_rows_nth L P F T users : forall i rows,
  pricing_rows L P F T i users = Ok rows ->
  List.length rows = List.length users
  /\ forall k u, nth_error users k = Some u ->
       exists st, price_month L P F T u = Ok st
                  /\ nth_error rows k = Some (pricing_row (i + k) u st).
Proof.
  induction users as [|u0 users IH]; intros i rows H; simpl in H.
  - inv_ok. split; [reflexivity|]. intros [|k] u Hk; discriminate.
  - apply bind_Ok in H. destruct H as [st [Hst H]].
    apply bind_Ok in H. destruct H as [rows' [Hrows H]].
    injection H as <-. apply IH in Hrows. destruct Hrows as [Hlen Hnth].
    split; [simpl; congruence|].
    intros [|k] u Hk; simpl in Hk.
    + injection Hk as <-. exists st. now rewrite Nat.add_0_r.
    + destruct (Hnth k u Hk) as [st' [H1 H2]]. exists st'.
      split; [assumption|]. simpl. now rewrite Nat.add_succ_r.
Qed.

Lemma pricing_rows_inv L P F T users : forall i rows k row,
  pricing_rows L P F T i users = Ok rows ->
  nth_error rows k = Some row ->
  exists u st, nth_error users k = Some u
               /\ price_month L P F T u = Ok st
               /\ row = pricing_row (i + k) u st.
Proof.
  intros i rows k row H Hrow.
  destruct (pricing_rows_nth _ _ _ _ _ _ _ H) as [Hlen Hnth].
  assert (Hk : (k < List.length users)%nat).
  { rewrite <- Hlen. apply nth_error_Some. congruence. }
  destruct (nth_error users k) as [u|] eqn:Hu;
    [|apply nth_error_None in Hu; lia].
  destruct (Hnth k u Hu) as [st [H1 H2]].
  exists u, st. repeat split; auto. congruence.
Qed.

Lemma make_DataFrame_Ok rows cols df :
  make_DataFrame rows cols = Ok df -> columns df = cols /\ data df = rows.
Proof.
  unfold make_DataFrame. destruct (forallb _ rows); intros H; inv_ok. now split.
Qed.

Lemma generate_inv iu g months L P F T df :
  generate_growth_projection iu g months L P F T = Ok df ->
  exists users,
    project_users iu g months = Ok users
    /\ pricing_data L P F T users = Ok (data df)
    /\ columns df = column_headers L T.
Proof.
  unfold generate_growth_projection. intros H.
  apply bind_Ok in H. destruct H as [users [Hu H]].
  apply bind_Ok in H. destruct H as [rows [Hr H]].
  apply make_DataFrame_Ok in H. destruct H as [Hc Hd].
  exists users. subst. auto.
Qed.

Lemma row_users_pricing_row i u st : row_users (pricing_row i u st) = Some (Int u).
Proof. reflexivity. Qed.

Lemma row_tier_costs_pricing_row i u st :
  row_tier_costs (pricing_row i u st) = tier_costs st.
Proof.
  unfold row_tier_costs, pricing_row. simpl. apply removelast_last.
Qed.

Lemma row_total_pricing_row i u st :
  row_total (pricing_row i u st) = Some (total_cost st).
Proof.
  unfold row_total, pricing_row. simpl. f_equal.
  change (Int u :: tier_costs st ++ [total_cost st])
    with ((Int u :: tier_costs st) ++ [total_cost st]).
  destruct (tier_costs st) as [|c cs]; [reflexivity|].
  change (last ((Int u :: c :: cs) ++ [total_cost st]) (Int 0) = total_cost st).
  apply last_last.
Qed.

Lemma price_month_length L P F u st :
  price_month L P F true u = Ok st ->
  List.length (tier_costs st) = S (Nat.min (List.length L) (List.length P)).
Proof.
  unfold price_month. intros H.
  apply bind_Ok in H. destruct H as [st1 [Hloop H]].
  apply tier_loop_length in Hloop. simpl in Hloop.
  apply final_tier_shape in H. destruct H as [_ [c [Htc _]]].
  rewrite Htc, length_app, Hloop, length_combine. simpl. lia.
Qed.

Lemma combine_firstn {A B : Type} (xs : list A) : forall (ys : list B),
  combine xs ys
  = combine (firstn (Nat.min (List.length xs) (List.length ys)) xs)
            (firstn (Nat.min (List.length xs) (List.length ys)) ys).
Proof.
  induction xs as [|x xs IH]; intros [|y ys]; simpl; try reflexivity.
  now rewrite <- IH.
Qed.

Lemma map_fst_combine (L : list Z) : forall (P : list spec_float),
  List.length L = List.length P -> map fst (combine L P) = L.
Proof.
  induction L as [|l L IH]; intros [|p P]; simpl; intros H; try discriminate; auto.
  f_equal. apply IH. congruence.
Qed.

Lemma column_headers_spec L T :
  column_headers L T = spec_headers (List.length L) T.
Proof.
  unfold column_headers, spec_headers. destruct T; [|reflexivity].
  rewrite <- app_assoc. do 3 f_equal.
  rewrite <- seq_shift, map_map. apply map_ext. intros i.
  unfold tier_header, spec_tier_label. now rewrite Nat.add_1_r.
Qed.

(** ** Binary digits *)

Lemma digits2_pos_bounds (m : positive) :
  2 ^ (Zpos (digits2_pos m) - 1) <= Zpos m < 2 ^ Zpos (digits2_pos m).
Proof.
  induction m as [m IH|m IH|]; simpl digits2_pos.
  - rewrite Pos2Z.inj_succ, Pos2Z.inj_xI.
    replace (Z.succ (Zpos (digits2_pos m)) - 1) with (Z.succ (Zpos (digits2_pos m) - 1)) by lia.
    rewrite !Z.pow_succ_r by lia. lia.
  - rewrite Pos2Z.inj_succ. change (Zpos m~0) with (2 * Zpos m).
    replace (Z.succ (Zpos (digits2_pos m)) - 1) with (Z.succ (Zpos (digits2_pos m) - 1)) by lia.
    rewrite !Z.pow_succ_r by lia. lia.
  - simpl. lia.
Qed.

Lemma Zdigits2_bounds m :
  0 < m -> 2 ^ (Zdigits2 m - 1) <= m < 2 ^ Zdigits2 m.
Proof.
  destruct m as [|p|p]; try lia. intros _. apply digits2_pos_bounds.
Qed.

Lemma Zdigits2_pos m : 0 < m -> 0 < Zdigits2 m.
Proof. destruct m; simpl; lia. Qed.

Lemma Zdigits2_unique m d :
  2 ^ (d - 1) <= m < 2 ^ d -> 0 < m -> Zdigits2 m = d.
Proof.
  intros [H1 H2] Hm.
  destruct (Zdigits2_bounds m Hm) as [H3 H4].
  pose proof (Zdigits2_pos m Hm) as Hd.
  assert (Hd' : 0 < d).
  { destruct (Z.ltb_spec 0 d); [assumption|].
    exfalso. destruct (Z.eq_dec d 0) as [->|Hd0]; [simpl in H2; lia|].
    rewrite Z.pow_neg_r in H2 by lia. lia. }
  destruct (Z.lt_trichotomy (Zdigits2 m) d) as [Hlt|[Heq|Hgt]]; [|assumption|].
  - assert (2 ^ Zdigits2 m <= 2 ^ (d - 1)) by (apply Z.pow_le_mono_r; lia). lia.
  - assert (2 ^ d <= 2 ^ (Zdigits2 m - 1)) by (apply Z.pow_le_mono_r; lia). lia.
Qed.

Lemma Zdigits2_le m d : 0 <= m -> 0 <= d -> m < 2 ^ d -> Zdigits2 m <= d.
Proof.
  intros Hm Hd H. destruct (Z.eq_dec m 0) as [->|Hne]; [simpl; lia|].
  destruct (Zdigits2_bounds m ltac:(lia)) as [H1 _].
  destruct (Z.le_gt_cases (Zdigits2 m) d) as [Hle|Hgt]; [assumption|].
  assert (2 ^ d <= 2 ^ (Zdigits2 m - 1)) by (apply Z.pow_le_mono_r; lia). lia.
Qed.

Lemma Zdigits2_ge m d : 0 < d -> 2 ^ (d - 1) <= m -> d <= Zdigits2 m.
Proof.
  intros Hd H.
  assert (Hm : 0 < m) by (pose proof (Z.pow_pos_nonneg 2 (d - 1)); lia).
  destruct (Zdigits2_bounds m Hm) as [_ H2].
  destruct (Z.le_gt_cases d (Zdigits2 m)) as [Hle|Hgt]; [assumption|].
  assert (2 ^ Zdigits2 m <= 2 ^ (d - 1)) by (apply Z.pow_le_mono_r; lia). lia.
Qed.

(** ** Shifting right *)

Lemma iter_pos_nat {A : Type} (f : A -> A) : forall p x,
  SpecFloat.iter_pos f p x = Nat.iter (Pos.to_nat p) f x.
Proof.
  induction p as [p IH|p IH|]; intros x; simpl SpecFloat.iter_pos.
  - rewrite !IH, Pos2Nat.inj_xI.
    replace (S (2 * Pos.to_nat p)) with (Pos.to_nat p + Pos.to_nat p + 1)%nat by lia.
    now rewrite !Nat.iter_add.
  - rewrite !IH, Pos2Nat.inj_xO.
    replace (2 * Pos.to_nat p)%nat with (Pos.to_nat p + Pos.to_nat p)%nat by lia.
    now rewrite Nat.iter_add.
  - reflexivity.
Qed.

Lemma shr_1_m mrs : 0 <= shr_m mrs -> shr_m (shr_1 mrs) = shr_m mrs / 2.
Proof.
  destruct mrs as [m r s]. intros Hm. simpl in Hm.
  rewrite <- Z.div2_div. destruct m as [|[p|p|]|p]; try reflexivity. lia.
Qed.

Lemma iter_shr_1_m n : forall mrs,
  0 <= shr_m mrs ->
  shr_m (Nat.iter n shr_1 mrs) = shr_m mrs / 2 ^ Z.of_nat n
  /\ 0 <= shr_m (Nat.iter n shr_1 mrs).
Proof.
  induction n as [|n IH]; intros mrs Hm.
  - simpl. rewrite Z.div_1_r. auto.
  - destruct (IH mrs Hm) as [H1 H2]. simpl Nat.iter.
    rewrite shr_1_m by assumption. rewrite H1.
    rewrite Nat2Z.inj_succ, Z.pow_succ_r by lia.
    assert (Hp : 0 < 2 ^ Z.of_nat n) by (apply Z.pow_pos_nonneg; lia).
    rewrite Z.div_div by lia.
    split; [now rewrite (Z.mul_comm 2)|].
    apply Z.div_pos; lia.
Qed.

Lemma shr_shift_to mrs e n :
  0 <= shr_m mrs ->
  (shr_m (fst (shr mrs e n)), snd (shr mrs e n)) = shift_to (shr_m mrs) e n.
Proof.
  intros Hm. unfold shr, shift_to. destruct n as [|p|p]; try reflexivity.
  simpl fst. simpl snd. rewrite iter_pos_nat.
  destruct (iter_shr_1_m (Pos.to_nat p) mrs Hm) as [-> _].
  now rewrite positive_nat_Z.
Qed.

Lemma shr_fexp_shift_to m e l :
  0 <= m ->
  (shr_m (fst (shr_fexp prec emax m e l)), snd (shr_fexp prec emax m e l))
  = shift_to m e (fexp prec emax (Zdigits2 m + e) - e).
Proof.
  intros Hm. unfold shr_fexp.
  rewrite shr_shift_to by (now rewrite shr_record_of_loc_m).
  now rewrite shr_record_of_loc_m.
Qed.

Lemma round_nearest_even_cases m l :
  round_nearest_even m l = m \/ round_nearest_even m l = m + 1.
Proof.
  unfold round_nearest_even. destruct l as [|[| |]]; try destruct (Z.even m); auto.
Qed.

(** [binary_round_aux]: a shift, a rounding up by at most one unit, and [finish]. *)
Lemma binary_round_aux_finish s mx ex lx :
  0 <= mx ->
  exists m2,
    let '(m1, e1) := shift_to mx ex (fexp prec emax (Zdigits2 mx + ex) - ex) in
    (m2 = m1 \/ m2 = m1 + 1)
    /\ binary_round_aux prec emax s mx ex lx = finish s m2 e1.
Proof.
  intros Hm. unfold binary_round_aux.
  pose proof (shr_fexp_shift_to mx ex lx Hm) as H1.
  pose proof (shr_fexp_nonneg mx ex lx Hm) as Hn1.
  destruct (shr_fexp prec emax mx ex lx) as [mrs' e']. simpl in H1, Hn1.
  rewrite <- H1.
  exists (round_nearest_even (shr_m mrs') (loc_of_shr_record mrs')).
  split; [apply round_nearest_even_cases|].
  pose proof (round_nearest_even_nonneg _ (loc_of_shr_record mrs') Hn1) as Hn2.
  pose proof (shr_fexp_shift_to _ e' loc_Exact Hn2) as H2.
  unfold finish. rewrite <- H2.
  now destruct (shr_fexp prec emax _ e' loc_Exact) as [mrs'' e''].
Qed.

(** ** Real values *)

Lemma bpow_gt_0 e : (0 < bpow e)%R.
Proof. apply powerRZ_lt. lra. Qed.

Lemma bpow_add e1 e2 : bpow (e1 + e2) = (bpow e1 * bpow e2)%R.
Proof. apply powerRZ_add. lra. Qed.

Lemma bpow_IZR e : 0 <= e -> bpow e = IZR (2 ^ e).
Proof.
  intros He. unfold bpow. rewrite <- (Z2Nat.id e He).
  now rewrite <- pow_powerRZ, pow_IZR.
Qed.

Lemma bpow_le e1 e2 : e1 <= e2 -> (bpow e1 <= bpow e2)%R.
Proof.
  intros H. replace e2 with (e1 + (e2 - e1)) by lia.
  rewrite bpow_add, (bpow_IZR (e2 - e1)) by lia.
  assert (1 <= 2 ^ (e2 - e1)) by (pose proof (Z.pow_pos_nonneg 2 (e2 - e1)); lia).
  apply IZR_le in H0. pose proof (bpow_gt_0 e1). nra.
Qed.

Lemma F2R_shift m e k : 0 <= k -> F2R (m * 2 ^ k) e = F2R m (e + k).
Proof.
  intros Hk. unfold F2R. rewrite mult_IZR, (Z.add_comm e k), bpow_add.
  rewrite (bpow_IZR k Hk). ring.
Qed.

Lemma F2R_le m1 m2 e : m1 <= m2 -> (F2R m1 e <= F2R m2 e)%R.
Proof.
  intros H. unfold F2R. apply IZR_le in H. pose proof (bpow_gt_0 e). nra.
Qed.

Lemma F2R_lt m1 m2 e : m1 < m2 -> (F2R m1 e < F2R m2 e)%R.
Proof.
  intros H. unfold F2R. apply IZR_lt in H. pose proof (bpow_gt_0 e). nra.
Qed.

Lemma F2R_le_inv m1 m2 e : (F2R m1 e <= F2R m2 e)%R -> m1 <= m2.
Proof.
  intros H. destruct (Z.le_gt_cases m1 m2) as [Hle|Hgt]; [assumption|].
  apply (F2R_lt m2 m1 e) in Hgt. lra.
Qed.

Lemma F2R_lt_inv m1 m2 e : (F2R m1 e < F2R m2 e)%R -> m1 < m2.
Proof.
  intros H. destruct (Z.lt_ge_cases m1 m2) as [Hlt|Hge]; [assumption|].
  apply (F2R_le m2 m1 e) in Hge. lra.
Qed.

Lemma F2R_rebase m e c : c <= e -> F2R m e = F2R (m * 2 ^ (e - c)) c.
Proof.
  intros H. rewrite F2R_shift by lia. f_equal. lia.
Qed.

Lemma F2R_le_iff m1 e1 m2 e2 c :
  c <= e1 -> c <= e2 ->
  ((F2R m1 e1 <= F2R m2 e2)%R <-> m1 * 2 ^ (e1 - c) <= m2 * 2 ^ (e2 - c)).
Proof.
  intros H1 H2. rewrite (F2R_rebase m1 e1 c H1), (F2R_rebase m2 e2 c H2).
  split; [apply F2R_le_inv | apply F2R_le].
Qed.

Lemma F2R_0 e : F2R 0 e = 0%R.
Proof. unfold F2R. ring. Qed.

Lemma F2R_pos m e : 0 < m -> (0 < F2R m e)%R.
Proof. intros H. rewrite <- (F2R_0 e). now apply F2R_lt. Qed.

Lemma F2R_1 m : F2R m 0 = IZR m.
Proof. unfold F2R, bpow. simpl. ring. Qed.

(** ** The shift of [binary_round_aux] rounds down to a float *)

Lemma fexp_eq e : fexp prec emax e = Z.max (e - 53) (-1074).
Proof. reflexivity. Qed.

Lemma fits_iff m e : fits m e <-> Zdigits2 m <= 53 /\ -1074 <= e.
Proof. reflexivity. Qed.

Lemma fits_lt m e : 0 <= m -> fits m e -> m < 2 ^ 53.
Proof.
  intros Hm [Hd _]. destruct (Z.eq_dec m 0) as [->|Hne]; [reflexivity|].
  destruct (Zdigits2_bounds m ltac:(lia)) as [_ H].
  assert (2 ^ Zdigits2 m <= 2 ^ 53) by (apply Z.pow_le_mono_r; unfold prec in Hd; lia).
  lia.
Qed.

Lemma shift_to_fits mx ex :
  0 <= mx ->
  let '(m1, e1) := shift_to mx ex (fexp prec emax (Zdigits2 mx + ex) - ex) in
  0 <= m1 /\ fits m1 e1.
Proof.
  intros Hm. unfold shift_to. rewrite fexp_eq.
  set (d := Zdigits2 mx).
  destruct (Z.ltb_spec 0 (Z.max (d + ex - 53) (-1074) - ex)) as [Hn|Hn].
  - set (n := Z.max (d + ex - 53) (-1074) - ex) in *.
    assert (Hp : 0 < 2 ^ n) by (apply Z.pow_pos_nonneg; lia).
    split; [apply Z.div_pos; lia|].
    apply fits_iff. split; [|lia].
    apply Zdigits2_le; [apply Z.div_pos; lia | lia |].
    apply Z.div_lt_upper_bound; [lia|].
    rewrite <- Z.pow_add_r by lia.
    destruct (Z.eq_dec mx 0) as [->|Hne]; [apply Z.pow_pos_nonneg; lia|].
    destruct (Zdigits2_bounds mx ltac:(lia)) as [_ H]. fold d in H.
    assert (2 ^ d <= 2 ^ (n + 53)) by (apply Z.pow_le_mono_r; lia). lia.
  - split; [assumption|]. apply fits_iff. fold d. lia.
Qed.

Lemma shift_to_lower mx ex ma ea :
  0 < mx -> 0 < ma -> fits ma ea ->
  (F2R ma ea <= F2R mx ex)%R ->
  let '(m1, e1) := shift_to mx ex (fexp prec emax (Zdigits2 mx + ex) - ex) in
  (F2R ma ea <= F2R m1 e1)%R.
Proof.
  intros Hmx Hma Hfit Hle. unfold shift_to. rewrite fexp_eq.
  set (d := Zdigits2 mx).
  destruct (Z.ltb_spec 0 (Z.max (d + ex - 53) (-1074) - ex)) as [Hn|Hn];
    [|assumption].
  set (n := Z.max (d + ex - 53) (-1074) - ex) in *.
  assert (Hp : 0 < 2 ^ n) by (apply Z.pow_pos_nonneg; lia).
  pose proof (fits_lt ma ea ltac:(lia) Hfit) as Hma53.
  destruct (proj1 (fits_iff ma ea) Hfit) as [_ Hea].
  destruct (Z.le_gt_cases (ex + n) ea) as [Hge|Hlt].
  - (* the lower bound is a multiple of the unit in the last place *)
    apply (F2R_le_iff _ _ _ _ (ex + n)); [lia|lia|].
    rewrite Z.sub_diag, Z.mul_1_r.
    apply (F2R_le_iff _ _ _ _ ex) in Hle; [|lia|lia].
    rewrite Z.sub_diag, Z.mul_1_r in Hle.
    apply Z.div_le_lower_bound; [lia|].
    replace (ea - ex) with (n + (ea - (ex + n))) in Hle by lia.
    rewrite Z.pow_add_r in Hle by lia. lia.
  - (* the lower bound is in a binade below *)
    assert (Hn53 : n = d - 53) by lia.
    apply (F2R_le_iff _ _ _ _ ea); [lia|lia|].
    rewrite Z.sub_diag, Z.mul_1_r.
    assert (H1 : 2 ^ 52 <= mx / 2 ^ n).
    { apply Z.div_le_lower_bound; [lia|].
      rewrite <- Z.pow_add_r by lia.
      destruct (Zdigits2_bounds mx Hmx) as [H _]. fold d in H.
      replace (n + 52) with (d - 1) by lia. exact H. }
    assert (H2 : 2 <= 2 ^ (ex + n - ea)).
    { change 2 with (2 ^ 1) at 1. apply Z.pow_le_mono_r; lia. }
    change (2 ^ 53) with (2 ^ 52 * 2) in Hma53. nia.
Qed.

(** ** [finish] is exact on a mantissa of at most [prec] digits, or on [2 ^ prec] *)

Lemma finish_exact s m1 e1 m2 :
  0 <= m1 -> fits m1 e1 -> (m2 = m1 \/ m2 = m1 + 1) ->
  (m2 = 0 /\ finish s m2 e1 = S754_zero s)
  \/ (0 < m2 /\ finish s m2 e1 = S754_infinity s)
  \/ (exists p e3,
        finish s m2 e1 = S754_finite s p e3
        /\ fits (Zpos p) e3 /\ e3 <= emax - prec
        /\ F2R (Zpos p) e3 = F2R m2 e1).
Proof.
  intros Hm1 Hfit Hm2.
  pose proof (fits_lt m1 e1 Hm1 Hfit) as Hlt.
  destruct (proj1 (fits_iff m1 e1) Hfit) as [Hd He].
  assert (Hm2' : 0 <= m2 <= 2 ^ 53) by lia.
  unfold finish, shift_to. rewrite fexp_eq.
  destruct (Z.eq_dec m2 (2 ^ 53)) as [->|Hne].
  - (* the mantissa rounded up to the next power of two *)
    change (Zdigits2 (2 ^ 53)) with 54.
    replace (Z.max (54 + e1 - 53) (-1074) - e1) with 1 by lia.
    change (0 <? 1) with true. cbv iota.
    change (2 ^ 53 / 2 ^ 1) with (Zpos (2 ^ 52)).
    cbv iota beta.
    destruct (Z.leb_spec (e1 + 1) (emax - prec)) as [Hle|Hgt].
    + right. right. exists (2 ^ 52)%positive, (e1 + 1).
      split; [reflexivity|]. split; [apply fits_iff; simpl; lia|].
      split; [assumption|].
      rewrite <- F2R_shift by lia. reflexivity.
    + right. left. split; reflexivity.
  - assert (Hd2 : Zdigits2 m2 <= 53) by (apply Zdigits2_le; lia).
    destruct (Z.ltb_spec 0 (Z.max (Zdigits2 m2 + e1 - 53) (-1074) - e1)) as [Hn|Hn];
      [lia|].
    destruct m2 as [|p|p]; [left; auto | | lia].
    destruct (Z.leb_spec e1 (emax - prec)) as [Hle|Hgt].
    + right. right. exists p, e1.
      split; [reflexivity|]. split; [apply fits_iff; lia|]. split; [assumption|reflexivity].
    + right. left. split; [lia | reflexivity].
Qed.

(** The result of [binary_round_aux] is at least any float below the
    exact value. *)
Lemma binary_round_aux_lower mx ex lx ma ea :
  0 < mx -> 0 < ma -> fits ma ea ->
  (F2R ma ea <= F2R mx ex)%R ->
  binary_round_aux prec emax false mx ex lx = S754_infinity false
  \/ exists p e,
       binary_round_aux prec emax false mx ex lx = S754_finite false p e
       /\ fits (Zpos p) e /\ e <= emax - prec
       /\ (F2R ma ea <= F2R (Zpos p) e)%R.
Proof.
  intros Hmx Hma Hfit Hle.
  destruct (binary_round_aux_finish false mx ex lx ltac:(lia)) as [m2 H].
  pose proof (shift_to_fits mx ex ltac:(lia)) as Hf.
  pose proof (shift_to_lower mx ex ma ea Hmx Hma Hfit Hle) as Hl.
  destruct (shift_to mx ex _) as [m1 e1].
  destruct H as [Hm2 ->]. destruct Hf as [Hm1 Hf1].
  assert (Hpos : 0 < m1).
  { apply (F2R_lt_inv 0 m1 e1). rewrite F2R_0.
    pose proof (F2R_pos ma ea Hma). lra. }
  destruct (finish_exact false m1 e1 m2 Hm1 Hf1 Hm2) as [[H0 _]|[[_ H]|[p [e3 [H [H1 [H2 H3]]]]]]].
  - lia.
  - now left.
  - right. exists p, e3.
    split; [assumption|]. split; [assumption|]. split; [assumption|].
    rewrite H3. apply Rle_trans with (1 := Hl). apply F2R_le. lia.
Qed.

(** ** Rounding a mantissa and an exponent: [binary_round] *)

Lemma iter_xO_value m d : Zpos (Pos.iter xO m d) = Zpos m * 2 ^ Zpos d.
Proof.
  change (Pos.iter xO m d) with (shift_pos d m).
  rewrite shift_pos_correct. change (Z.pow_pos 2 d) with (2 ^ Zpos d). lia.
Qed.

Lemma shl_align_value m e e' :
  F2R (Zpos (fst (shl_align m e e'))) (snd (shl_align m e e')) = F2R (Zpos m) e.
Proof.
  unfold shl_align. destruct (e' - e) as [|d|d] eqn:Hd; try reflexivity.
  simpl fst. simpl snd. rewrite iter_xO_value.
  rewrite F2R_shift by lia. f_equal. lia.
Qed.

Lemma shl_align_le m e e' :
  e' <= e -> F2R (Zpos (fst (shl_align m e e'))) e' = F2R (Zpos m) e.
Proof.
  intros H. rewrite <- (shl_align_value m e e').
  unfold shl_align. destruct (e' - e) as [|d|d] eqn:Hd; simpl; try reflexivity.
  - f_equal. lia.
  - lia.
Qed.

Lemma binary_round_lower m e ma ea :
  0 < ma -> fits ma ea ->
  (F2R ma ea <= F2R (Zpos m) e)%R ->
  binary_round prec emax false m e = S754_infinity false
  \/ exists p e',
       binary_round prec emax false m e = S754_finite false p e'
       /\ fits (Zpos p) e' /\ e' <= emax - prec
       /\ (F2R ma ea <= F2R (Zpos p) e')%R.
Proof.
  intros Hma Hfit Hle. unfold binary_round.
  pose proof (shl_align_value m e (fexp prec emax (Zpos (digits2_pos m) + e))) as Hv.
  destruct (shl_align m e _) as [mz ez]. simpl in Hv.
  apply binary_round_aux_lower; try assumption; try lia.
  now rewrite Hv.
Qed.

(** ** [float(z)] and [int(x)] *)

Lemma float_of_int_lower z ma ea :
  0 < z -> 0 < ma -> fits ma ea -> (F2R ma ea <= IZR z)%R ->
  float_of_int z = Raise OverflowError
  \/ exists p e,
       float_of_int z = Ok (S754_finite false p e)
       /\ fits (Zpos p) e /\ e <= emax - prec
       /\ (F2R ma ea <= F2R (Zpos p) e)%R.
Proof.
  intros Hz Hma Hfit Hle. unfold float_of_int, binary_normalize.
  destruct z as [|z|z]; try lia.
  rewrite <- F2R_1 in Hle.
  destruct (binary_round_lower z 0 ma ea Hma Hfit Hle) as [->|[p [e [-> H]]]].
  - now left.
  - right. now exists p, e.
Qed.

Lemma fits_one : fits 1 0.
Proof. apply fits_iff. simpl. lia. Qed.

Lemma float_of_int_pos z :
  0 < z ->
  float_of_int z = Raise OverflowError
  \/ exists p e,
       float_of_int z = Ok (S754_finite false p e)
       /\ fits (Zpos p) e /\ e <= emax - prec
       /\ (1 <= F2R (Zpos p) e)%R.
Proof.
  intros Hz.
  assert (H1 : (F2R 1 0 <= IZR z)%R) by (rewrite F2R_1; apply IZR_le; lia).
  destruct (float_of_int_lower z 1 0 Hz ltac:(lia) fits_one H1) as [H|[p [e [H [Hf [He Hle]]]]]].
  - now left.
  - right. exists p, e. rewrite F2R_1 in Hle. auto.
Qed.

Lemma F2R_lt_iff m1 e1 m2 e2 c :
  c <= e1 -> c <= e2 ->
  ((F2R m1 e1 < F2R m2 e2)%R <-> m1 * 2 ^ (e1 - c) < m2 * 2 ^ (e2 - c)).
Proof.
  intros H1 H2. rewrite (F2R_rebase m1 e1 c H1), (F2R_rebase m2 e2 c H2).
  split; [apply F2R_lt_inv | apply F2R_lt].
Qed.

(** [int(x)] is the floor of a positive [x]. *)
Lemma shiftl_floor p e :
  (IZR (Z.shiftl (Zpos p) e) <= F2R (Zpos p) e < IZR (Z.shiftl (Zpos p) e) + 1)%R.
Proof.
  destruct (Z.le_gt_cases 0 e) as [He|He].
  - rewrite Z.shiftl_mul_pow2 by assumption.
    rewrite <- (F2R_1 (Zpos p * 2 ^ e)), F2R_shift by assumption.
    simpl (0 + e). lra.
  - rewrite Z.shiftl_div_pow2 by lia.
    assert (Hp : 0 < 2 ^ (- e)) by (apply Z.pow_pos_nonneg; lia).
    pose proof (Z.mul_div_le (Zpos p) (2 ^ (- e)) Hp) as H1.
    pose proof (Z.mul_succ_div_gt (Zpos p) (2 ^ (- e)) Hp) as H2.
    rewrite <- plus_IZR.
    rewrite <- (F2R_1 (Zpos p / 2 ^ (- e))), <- (F2R_1 (Zpos p / 2 ^ (- e) + 1)).
    split.
    + apply (proj2 (F2R_le_iff _ 0 _ e e ltac:(lia) ltac:(lia))).
      replace (0 - e) with (- e) by lia. replace (e - e) with 0 by lia. lia.
    + apply (proj2 (F2R_lt_iff _ e _ 0 e ltac:(lia) ltac:(lia))).
      replace (0 - e) with (- e) by lia. replace (e - e) with 0 by lia. lia.
Qed.

Lemma shiftl_ge p e z : (IZR z <= F2R (Zpos p) e)%R -> z <= Z.shiftl (Zpos p) e.
Proof.
  intros H. destruct (shiftl_floor p e) as [_ H2].
  assert (H3 : (IZR z < IZR (Z.shiftl (Zpos p) e + 1))%R) by (rewrite plus_IZR; lra).
  apply lt_IZR in H3. lia.
Qed.

Lemma shiftl_fits p e :
  fits (Zpos p) e -> 0 < Z.shiftl (Zpos p) e -> int_fits (Z.shiftl (Zpos p) e).
Proof.
  intros Hfit Hpos. destruct (Z.le_gt_cases 0 e) as [He|He].
  - exists (Zpos p), e. split; [lia|]. split; [assumption|].
    rewrite Z.shiftl_mul_pow2 by assumption.
    rewrite <- (F2R_1 (Zpos p * 2 ^ e)), F2R_shift by assumption. reflexivity.
  - exists (Z.shiftl (Zpos p) e), 0. split; [assumption|]. split; [|apply F2R_1].
    apply fits_iff. split; [|lia].
    pose proof (fits_lt (Zpos p) e ltac:(lia) Hfit) as Hlt.
    apply Zdigits2_le; try lia.
    rewrite Z.shiftl_div_pow2 by lia.
    assert (Hp : 0 < 2 ^ (- e)) by (apply Z.pow_pos_nonneg; lia).
    apply Z.le_lt_trans with (2 := Hlt).
    apply Z.div_le_upper_bound; [lia|]. nia.
Qed.

(** ** The growth factor is at least 1 *)

Lemma fdiv_hundred_nonneg g :
  nonneg_real g = true -> cost_float (fdiv g f_hundred) = true.
Proof.
  unfold fdiv, SFdiv, f_hundred.
  destruct g as [sx|sx| |[|] mx ex]; try discriminate; try reflexivity.
  intros _.
  destruct (SFdiv_core_binary _ _ _ _ _ _) as [[mz ez] lz] eqn:Hcore.
  assert (Hmz : 0 <= mz).
  { unfold SFdiv_core_binary in Hcore.
    match type of Hcore with
    | (let '(q, r) := Z.div_eucl ?a ?b in _) = _ =>
        pose proof (Z_div_mod a b ltac:(lia)) as Hdm;
        assert (Ha : 0 <= a);
        [|destruct (Z.div_eucl a b) as [q r]; injection Hcore as <- _ _; nia]
    end.
    match goal with
    | |- 0 <= match ?s with _ => _ end => destruct s
    end; try lia.
    apply Z.shiftl_nonneg. lia. }
  pose proof (binary_round_aux_nonneg mz ez lz Hmz) as H.
  simpl xorb. destruct (binary_round_aux _ _ _ _ _ _); simpl in *; auto.
Qed.

Lemma F2R_plus m1 m2 e : F2R (m1 + m2) e = (F2R m1 e + F2R m2 e)%R.
Proof. unfold F2R. rewrite plus_IZR. ring. Qed.

Lemma f_one_value : F2R 4503599627370496 (-52) = 1%R.
Proof.
  change 4503599627370496 with (1 * 2 ^ 52).
  rewrite F2R_shift by lia. apply F2R_1.
Qed.

Lemma fadd_one_lower t :
  cost_float t = true ->
  fadd f_one t = S754_infinity false
  \/ exists p e,
       fadd f_one t = S754_finite false p e
       /\ fits (Zpos p) e /\ (1 <= F2R (Zpos p) e)%R.
Proof.
  intros Ht. unfold fadd, SFadd, f_one.
  destruct t as [s|[|]| |[|] mt et]; try discriminate.
  - right. exists 4503599627370496%positive, (-52).
    split; [reflexivity|]. split; [apply fits_iff; simpl; lia|].
    rewrite f_one_value. lra.
  - now left.
  - cbv zeta.
    set (ez := Z.min (-52) et).
    pose proof (shl_align_le 4503599627370496 (-52) ez ltac:(lia)) as Ha.
    pose proof (shl_align_le mt et ez ltac:(lia)) as Hb.
    destruct (shl_align 4503599627370496 (-52) ez) as [a ea].
    destruct (shl_align mt et ez) as [b eb].
    simpl fst in *. simpl cond_Zopp.
    change (Zpos a + Zpos b) with (Zpos (a + b)). cbv iota.
    assert (Hle : (F2R 4503599627370496 (-52) <= F2R (Zpos (a + b)) ez)%R).
    { rewrite Pos2Z.inj_add, F2R_plus, Ha, Hb.
      pose proof (F2R_pos (Zpos mt) et ltac:(lia)). lra. }
    destruct (binary_round_lower (a + b) ez 4503599627370496 (-52) ltac:(lia)
                ltac:(apply fits_iff; simpl; lia) Hle) as [H|[p [e [H [Hf [He Hl]]]]]].
    + now left.
    + right. exists p, e. rewrite f_one_value in Hl. auto.
Qed.

Lemma growth_factor_lower g :
  nonneg_real g = true ->
  growth_factor g = S754_infinity false
  \/ exists p e,
       growth_factor g = S754_finite false p e
       /\ fits (Zpos p) e /\ (1 <= F2R (Zpos p) e)%R.
Proof.
  intros Hg. apply fadd_one_lower. now apply fdiv_hundred_nonneg.
Qed.

(** ** One month of growth *)

Lemma fmul_lower px ex py ey :
  fits (Zpos px) ex -> (1 <= F2R (Zpos py) ey)%R ->
  fmul (S754_finite false px ex) (S754_finite false py ey) = S754_infinity false
  \/ exists p e,
       fmul (S754_finite false px ex) (S754_finite false py ey) = S754_finite false p e
       /\ fits (Zpos p) e
       /\ (F2R (Zpos px) ex <= F2R (Zpos p) e)%R.
Proof.
  intros Hfit Hy. unfold fmul, SFmul. simpl xorb.
  assert (Hle : (F2R (Zpos px) ex <= F2R (Zpos (px * py)) (ex + ey))%R).
  { unfold F2R in *. rewrite Pos2Z.inj_mul, mult_IZR, bpow_add.
    pose proof (F2R_pos (Zpos px) ex ltac:(lia)) as Hx. unfold F2R in Hx.
    nra. }
  destruct (binary_round_aux_lower (Zpos (px * py)) (ex + ey) loc_Exact (Zpos px) ex
              ltac:(lia) ltac:(lia) Hfit Hle) as [H|[p [e [H [Hf [He Hl]]]]]].
  - now left.
  - right. exists p, e. auto.
Qed.

Lemma float_of_int_error z e : float_of_int z = Raise e -> e = OverflowError.
Proof.
  unfold float_of_int. destruct (binary_normalize prec emax z 0 false);
    intros H; congruence.
Qed.

Lemma next_users_lower g u :
  nonneg_real g = true -> 0 < u ->
  next_users g u = Raise OverflowError
  \/ exists u', next_users g u = Ok u'
                /\ 0 < u' /\ int_fits u' /\ (int_fits u -> u <= u').
Proof.
  intros Hg Hu. unfold next_users.
  destruct (float_of_int_pos u Hu) as [->|[px [ex [Hx [Hfx [Hex H1]]]]]];
    [now left|].
  rewrite Hx. cbn [bind].
  destruct (growth_factor_lower g Hg) as [->|[py [ey [-> [Hfy Hy]]]]];
    [now left|].
  destruct (fmul_lower px ex py ey Hfx Hy) as [->|[p [e [-> [Hf Hle]]]]];
    [now left|].
  right. simpl. eexists. split; [reflexivity|].
  assert (Hpos : 0 < Z.shiftl (Zpos p) e).
  { assert (1 <= Z.shiftl (Zpos p) e) by (apply shiftl_ge; lra). lia. }
  split; [assumption|]. split; [now apply shiftl_fits|].
  intros [ma [ea [Hma [Hfa Ha]]]].
  apply shiftl_ge. apply Rle_trans with (2 := Hle).
  destruct (float_of_int_lower u ma ea Hu Hma Hfa ltac:(lra)) as [H|[p' [e' [H [_ [_ Hl]]]]]].
  - congruence.
  - rewrite Hx in H. injection H as <- <-. lra.
Qed.

Lemma exact_float_fits z : 0 < z -> exact_float z = true -> int_fits z.
Proof.
  intros Hz. unfold exact_float.
  destruct (float_of_int_pos z Hz) as [->|[p [e [-> [Hf [He H1]]]]]];
    [discriminate|].
  simpl. intros H. apply Z.eqb_eq in H. rewrite <- H.
  apply shiftl_fits; [assumption|lia].
Qed.

(** Every count of a valid projection is positive, and from month 1 on it
    is a binary64 number. *)
Lemma grow_users_lower g n : forall users,
  nonneg_real g = true -> users <> [] -> 0 < last users 0 ->
  grow_users g n users = Raise OverflowError
  \/ exists users', grow_users g n users = Ok users'.
Proof.
  induction n as [|n IH]; intros users Hg Hne Hpos; simpl.
  - right. eauto.
  - destruct (next_users_lower g (last users 0) Hg Hpos) as [->|[u' [-> [Hu' _]]]];
      [now left|].
    cbn [bind]. apply IH; [assumption|now destruct users|].
    now rewrite last_last.
Qed.

Lemma project_users_positive iu g months users :
  nonneg_real g = true -> 0 < iu ->
  project_users iu g months = Ok users ->
  forall m, (m <= Z.to_nat months)%nat ->
    0 < nth m users 0 /\ ((1 <= m)%nat \/ exact_float iu = true -> int_fits (nth m users 0)).
Proof.
  intros Hg Hiu H m. induction m as [|m IH]; intros Hm.
  - rewrite (project_users_head _ _ _ _ H). split; [assumption|].
    intros [Hc|Hc]; [lia|]. now apply exact_float_fits.
  - destruct (IH ltac:(lia)) as [Hpos _].
    pose proof (project_users_step _ _ _ _ H (S m) ltac:(lia)) as Hs.
    replace (S m - 1)%nat with m in Hs by lia.
    destruct (next_users_lower g (nth m users 0) Hg Hpos) as [Hr|[u' [Hu' [Hp [Hf _]]]]];
      [congruence|].
    assert (u' = nth (S m) users 0) by congruence. subst u'. auto.
Qed.

Lemma project_users_monotone iu g months users :
  nonneg_real g = true -> 0 < iu -> exact_float iu = true ->
  project_users iu g months = Ok users ->
  forall m, (1 <= m <= Z.to_nat months)%nat -> nth (m - 1) users 0 <= nth m users 0.
Proof.
  intros Hg Hiu Hex H m Hm.
  destruct (project_users_positive iu g months users Hg Hiu H (m - 1)%nat ltac:(lia))
    as [Hpos Hfit].
  pose proof (project_users_step _ _ _ _ H m Hm) as Hs.
  destruct (next_users_lower g (nth (m - 1) users 0) Hg Hpos) as [Hr|[u' [Hu' [_ [_ Hle]]]]];
    [congruence|].
  assert (u' = nth m users 0) by congruence. subst u'. auto.
Qed.

(** ** Upper bounds: rounding stays below a power of two *)

Lemma canon_iff m e : canon m e <-> Z.max (Zdigits2 m + e - 53) (-1074) = e.
Proof. reflexivity. Qed.

Lemma canon_fits m e : canon m e -> fits m e.
Proof. intros H. apply (proj1 (canon_iff _ _)) in H. apply (proj2 (fits_iff _ _)). lia. Qed.

Lemma Zdigits2_shift m k : 0 < m -> 0 <= k -> Zdigits2 (m * 2 ^ k) = Zdigits2 m + k.
Proof.
  intros Hm Hk. destruct (Zdigits2_bounds m Hm) as [H1 H2].
  pose proof (Zdigits2_pos m Hm) as Hd.
  assert (Hp : 0 < 2 ^ k) by (apply Z.pow_pos_nonneg; lia).
  apply Zdigits2_unique; [|nia].
  replace (Zdigits2 m + k - 1) with (Zdigits2 m - 1 + k) by lia.
  rewrite !Z.pow_add_r by lia. split; nia.
Qed.

Lemma Zdigits2_div m n :
  0 < n -> 2 ^ n <= m -> Zdigits2 (m / 2 ^ n) = Zdigits2 m - n.
Proof.
  intros Hn Hm.
  assert (Hp : 0 < 2 ^ n) by (apply Z.pow_pos_nonneg; lia).
  assert (Hm0 : 0 < m) by lia.
  destruct (Zdigits2_bounds m Hm0) as [H1 H2].
  assert (Hd : n < Zdigits2 m).
  { destruct (Z.lt_ge_cases n (Zdigits2 m)) as [Hlt|Hge]; [assumption|].
    assert (2 ^ Zdigits2 m <= 2 ^ n) by (apply Z.pow_le_mono_r; lia). lia. }
  assert (Hq : 0 < m / 2 ^ n) by (apply Z.div_str_pos; lia).
  apply Zdigits2_unique; [|assumption]. split.
  - apply Z.div_le_lower_bound; [lia|].
    rewrite <- Z.pow_add_r by lia.
    now replace (n + (Zdigits2 m - n - 1)) with (Zdigits2 m - 1) by lia.
  - apply Z.div_lt_upper_bound; [lia|].
    rewrite <- Z.pow_add_r by lia.
    now replace (n + (Zdigits2 m - n)) with (Zdigits2 m) by lia.
Qed.

Lemma shift_to_canon mx ex :
  0 <= mx -> ex <= fexp prec emax (Zdigits2 mx + ex) ->
  let '(m1, e1) := shift_to mx ex (fexp prec emax (Zdigits2 mx + ex) - ex) in
  canon m1 e1.
Proof.
  intros Hm. unfold shift_to. rewrite fexp_eq. intros Hex.
  remember (Zdigits2 mx) as d eqn:Ed.
  destruct (Z.ltb_spec 0 (Z.max (d + ex - 53) (-1074) - ex)) as [Hn|Hn].
  - remember (Z.max (d + ex - 53) (-1074) - ex) as n eqn:En.
    apply (proj2 (canon_iff _ _)).
    destruct (Z.le_gt_cases (2 ^ n) mx) as [Hge|Hlt].
    + rewrite Zdigits2_div by assumption. lia.
    + rewrite Z.div_small by lia. simpl Zdigits2.
      assert (Hd : d <= n).
      { subst d. apply Zdigits2_le; lia. }
      lia.
  - apply (proj2 (canon_iff _ _)). rewrite <- Ed. lia.
Qed.

Lemma bpow_F2R k e : e <= k -> bpow k = F2R (2 ^ (k - e)) e.
Proof.
  intros H. unfold F2R. rewrite <- bpow_IZR, <- bpow_add by lia. f_equal. lia.
Qed.

Lemma F2R_le_bpow m e k :
  e <= k -> ((F2R m e <= bpow k)%R <-> m <= 2 ^ (k - e)).
Proof.
  intros H. rewrite (bpow_F2R k e H). split; [apply F2R_le_inv | apply F2R_le].
Qed.

Lemma F2R_le_bpow_exp m e k : 0 < m -> (F2R m e <= bpow k)%R -> e <= k.
Proof.
  intros Hm H. destruct (Z.le_gt_cases e k) as [Hle|Hgt]; [assumption|].
  exfalso. rewrite (F2R_rebase m e k ltac:(lia)) in H.
  assert (H1 : bpow k = F2R 1 k) by (unfold F2R; ring).
  rewrite H1 in H. apply F2R_le_inv in H.
  assert (2 <= 2 ^ (e - k)).
  { change 2 with (2 ^ 1) at 1. apply Z.pow_le_mono_r; lia. }
  nia.
Qed.

Lemma shift_to_upper mx ex k :
  0 <= mx -> -1074 <= k ->
  (F2R (mx + 1) ex <= bpow k)%R ->
  let '(m1, e1) := shift_to mx ex (fexp prec emax (Zdigits2 mx + ex) - ex) in
  (F2R (m1 + 1) e1 <= bpow k)%R.
Proof.
  intros Hm Hk Hle. unfold shift_to. rewrite fexp_eq.
  remember (Zdigits2 mx) as d eqn:Ed.
  destruct (Z.ltb_spec 0 (Z.max (d + ex - 53) (-1074) - ex)) as [Hn|Hn];
    [|assumption].
  remember (Z.max (d + ex - 53) (-1074) - ex) as n eqn:En.
  assert (Hp : 0 < 2 ^ n) by (apply Z.pow_pos_nonneg; lia).
  pose proof (F2R_le_bpow_exp (mx + 1) ex k ltac:(lia) Hle) as Hexk.
  apply F2R_le_bpow in Hle; [|assumption].
  assert (He1 : ex + n <= k).
  { destruct (Z.le_gt_cases (ex + n) k) as [H|H]; [assumption|]. exfalso.
    assert (Hmx : 0 < mx).
    { destruct (Z.eq_dec mx 0) as [->|]; [simpl in Ed; lia|lia]. }
    destruct (Zdigits2_bounds mx Hmx) as [H1 _]. rewrite <- Ed in H1.
    assert (2 ^ (k - ex) < 2 ^ (d - 1)) by (apply Z.pow_lt_mono_r; lia).
    lia. }
  apply F2R_le_bpow; [assumption|].
  assert (Hlt : mx / 2 ^ n < 2 ^ (k - (ex + n))).
  { apply Z.div_lt_upper_bound; [lia|].
    rewrite <- Z.pow_add_r by lia.
    replace (n + (k - (ex + n))) with (k - ex) by lia. lia. }
  lia.
Qed.

Lemma finish_canon s m1 e1 m2 :
  0 <= m1 -> canon m1 e1 -> (m2 = m1 \/ m2 = m1 + 1) ->
  (m2 = 0 /\ finish s m2 e1 = S754_zero s)
  \/ exists p e3,
       canon (Zpos p) e3 /\ F2R (Zpos p) e3 = F2R m2 e1
       /\ finish s m2 e1
          = if e3 <=? emax - prec then S754_finite s p e3 else S754_infinity s.
Proof.
  intros Hm1 Hc Hm2.
  pose proof (fits_lt m1 e1 Hm1 (canon_fits _ _ Hc)) as Hlt.
  apply (proj1 (canon_iff _ _)) in Hc.
  unfold finish, shift_to. rewrite fexp_eq.
  destruct (Z.eq_dec m2 (2 ^ 53)) as [->|Hne].
  - assert (Hm1' : m1 = 2 ^ 53 - 1) by lia.
    assert (Hd1 : Zdigits2 m1 = 53) by (subst m1; reflexivity).
    change (Zdigits2 (2 ^ 53)) with 54.
    replace (Z.max (54 + e1 - 53) (-1074) - e1) with 1 by lia.
    change (0 <? 1) with true. cbv iota.
    change (2 ^ 53 / 2 ^ 1) with (Zpos (2 ^ 52)). cbv iota beta.
    right. exists (2 ^ 52)%positive, (e1 + 1).
    split; [apply (proj2 (canon_iff _ _)); change (Zdigits2 (Z.pos (2 ^ 52))) with 53; lia|].
    split; [|reflexivity].
    rewrite <- F2R_shift by lia. reflexivity.
  - assert (Hd2 : Zdigits2 m2 <= 53) by (apply Zdigits2_le; lia).
    assert (Hc2 : m2 = 0 \/ Z.max (Zdigits2 m2 + e1 - 53) (-1074) = e1).
    { destruct (Z.eq_dec m2 0) as [|Hm20]; [now left|right].
      destruct Hm2 as [-> | ->]; [assumption|].
      destruct (Z.eq_dec m1 0) as [->|Hm10].
      { change (Zdigits2 0) with 0 in Hc. change (Zdigits2 (0 + 1)) with 1. lia. }
      destruct (Zdigits2_bounds m1 ltac:(lia)) as [H1 H2].
      destruct (Z.eq_dec (m1 + 1) (2 ^ Zdigits2 m1)) as [Heq|Hneq].
      - assert (Hd : Zdigits2 (m1 + 1) = Zdigits2 m1 + 1).
        { apply Zdigits2_unique; [|lia].
          replace (Zdigits2 m1 + 1 - 1) with (Zdigits2 m1) by lia.
          rewrite Z.pow_add_r by (pose proof (Zdigits2_pos m1); lia). lia. }
        assert (Zdigits2 m1 < 53).
        { destruct (Z.lt_ge_cases (Zdigits2 m1) 53) as [|Hge]; [assumption|].
          assert (2 ^ 53 <= 2 ^ Zdigits2 m1) by (apply Z.pow_le_mono_r; lia). lia. }
        lia.
      - assert (Hd : Zdigits2 (m1 + 1) = Zdigits2 m1)
          by (apply Zdigits2_unique; lia).
        lia. }
    destruct Hc2 as [->|Hc2].
    { left. split; [reflexivity|]. now destruct (0 <? _). }
    rewrite Hc2, Z.sub_diag. change (0 <? 0) with false. cbv iota.
    destruct m2 as [|p|p]; [left; split; reflexivity | | lia].
    right. exists p, e1. split; [now apply (proj2 (canon_iff _ _))|]. split; reflexivity.
Qed.

(** [binary_round_aux] on an input that is not shifted too far already:
    a zero, an infinity or a canonical float; no infinity below [2 ^ 1023]. *)
Lemma binary_round_aux_upper mx ex lx k :
  0 <= mx -> ex <= fexp prec emax (Zdigits2 mx + ex) ->
  -1074 <= k <= 1023 ->
  (F2R (mx + 1) ex <= bpow k)%R ->
  binary_round_aux prec emax false mx ex lx = S754_zero false
  \/ exists p e,
       binary_round_aux prec emax false mx ex lx = S754_finite false p e
       /\ canon (Zpos p) e /\ (F2R (Zpos p) e <= bpow k)%R.
Proof.
  intros Hmx Hex Hk Hle.
  destruct (binary_round_aux_finish false mx ex lx Hmx) as [m2 H].
  pose proof (shift_to_fits mx ex Hmx) as Hf.
  pose proof (shift_to_canon mx ex Hmx Hex) as Hc.
  pose proof (shift_to_upper mx ex k Hmx ltac:(lia) Hle) as Hu.
  destruct (shift_to mx ex _) as [m1 e1].
  destruct H as [Hm2 ->]. destruct Hf as [Hm1 _].
  destruct (finish_canon false m1 e1 m2 Hm1 Hc Hm2) as [[_ H]|[p [e3 [Hc3 [Hv ->]]]]];
    [now left|].
  assert (Hb : (F2R (Zpos p) e3 <= bpow k)%R).
  { rewrite Hv. apply Rle_trans with (2 := Hu). apply F2R_le. lia. }
  right. exists p, e3.
  destruct (Z.leb_spec e3 (emax - prec)) as [He|He]; [auto|].
  exfalso.
  pose proof (F2R_le_bpow_exp (Zpos p) e3 k ltac:(lia) Hb) as Hek.
  apply F2R_le_bpow in Hb; [|assumption].
  destruct (Zdigits2_bounds (Zpos p) ltac:(lia)) as [H1 _].
  apply (proj1 (canon_iff _ _)) in Hc3. unfold emax, prec in He.
  assert (Hd : k - e3 < Zdigits2 (Zpos p) - 1) by lia.
  assert (2 ^ (k - e3) < 2 ^ (Zdigits2 (Zpos p) - 1)) by (apply Z.pow_lt_mono_r; lia).
  lia.
Qed.

Lemma shl_align_canon m e :
  let '(mz, ez) := shl_align m e (fexp prec emax (Zpos (digits2_pos m) + e)) in
  ez <= fexp prec emax (Zdigits2 (Zpos mz) + ez) /\ ez <= e
  /\ (-1074 <= e -> -1074 <= ez).
Proof.
  unfold shl_align. rewrite fexp_eq.
  remember (Zpos (digits2_pos m)) as d eqn:Ed.
  destruct (Z.max (d + e - 53) (-1074) - e) as [|n|n] eqn:Hn.
  - rewrite fexp_eq. simpl Zdigits2. rewrite <- Ed. lia.
  - rewrite fexp_eq. simpl Zdigits2. rewrite <- Ed. lia.
  - rewrite fexp_eq, iter_xO_value, Zdigits2_shift by lia.
    simpl Zdigits2. rewrite <- Ed. lia.
Qed.

Lemma binary_round_upper m e k :
  -1074 <= k <= 1023 -> -1074 <= e <= 0 ->
  (F2R (Zpos m) e + 1 <= bpow k)%R ->
  exists p e',
    binary_round prec emax false m e = S754_finite false p e'
    /\ canon (Zpos p) e' /\ (F2R (Zpos p) e' <= bpow k)%R.
Proof.
  intros Hk He Hle. unfold binary_round.
  pose proof (shl_align_value m e (fexp prec emax (Zpos (digits2_pos m) + e))) as Hv.
  pose proof (shl_align_canon m e) as Hc.
  destruct (shl_align m e _) as [mz ez]. simpl in Hv. destruct Hc as [Hc [Hez Hez']].
  assert (Hb : (F2R (Zpos mz + 1) ez <= bpow k)%R).
  { rewrite F2R_plus, Hv. apply Rle_trans with (2 := Hle).
    assert ((F2R 1 ez <= 1)%R); [|lra].
    unfold F2R. rewrite Rmult_1_l. change 1%R with (bpow 0). apply bpow_le. lia. }
  destruct (binary_round_aux_upper (Zpos mz) ez loc_Exact k ltac:(lia) Hc Hk Hb)
    as [H|H]; [|exact H].
  exfalso.
  pose proof (binary_round_aux_finish false (Zpos mz) ez loc_Exact ltac:(lia)) as [m2 Hf].
  assert (Hfit : fits 1 (-1074)) by (apply fits_iff; simpl; lia).
  assert (Hlow : (F2R 1 (-1074) <= F2R (Zpos mz) ez)%R).
  { apply Rle_trans with (F2R 1 ez).
    - unfold F2R. rewrite !Rmult_1_l. apply bpow_le. lia.
    - apply F2R_le. lia. }
  destruct (binary_round_aux_lower (Zpos mz) ez loc_Exact 1 (-1074)
              ltac:(lia) ltac:(lia) Hfit Hlow) as [H'|[p [e' [H' _]]]]; congruence.
Qed.

Lemma float_of_int_upper z k :
  0 < z < 2 ^ k -> 0 <= k <= 1023 ->
  exists p e,
    float_of_int z = Ok (S754_finite false p e)
    /\ canon (Zpos p) e /\ (F2R (Zpos p) e <= bpow k)%R.
Proof.
  intros Hz Hk. unfold float_of_int, binary_normalize.
  destruct z as [|z|z]; try lia.
  assert (Hle : (F2R (Zpos z) 0 + 1 <= bpow k)%R).
  { rewrite F2R_1, bpow_IZR by lia. rewrite <- plus_IZR. apply IZR_le. lia. }
  destruct (binary_round_upper z 0 k ltac:(lia) ltac:(lia) Hle) as [p [e [-> H]]].
  now exists p, e.
Qed.

Lemma binary_round_aux_canon mx ex lx p e :
  0 <= mx -> ex <= fexp prec emax (Zdigits2 mx + ex) ->
  binary_round_aux prec emax false mx ex lx = S754_finite false p e ->
  canon (Zpos p) e.
Proof.
  intros Hmx Hex.
  destruct (binary_round_aux_finish false mx ex lx Hmx) as [m2 H].
  pose proof (shift_to_fits mx ex Hmx) as Hf.
  pose proof (shift_to_canon mx ex Hmx Hex) as Hc.
  destruct (shift_to mx ex _) as [m1 e1].
  destruct H as [Hm2 ->]. destruct Hf as [Hm1 _].
  destruct (finish_canon false m1 e1 m2 Hm1 Hc Hm2) as [[_ ->]|[p' [e3 [Hc3 [Hv ->]]]]];
    [discriminate|].
  destruct (e3 <=? emax - prec); [|discriminate].
  intros H. now injection H as <- <-.
Qed.

Lemma binary_round_canon m e p e' :
  binary_round prec emax false m e = S754_finite false p e' -> canon (Zpos p) e'.
Proof.
  unfold binary_round.
  pose proof (shl_align_canon m e) as Hc.
  destruct (shl_align m e _) as [mz ez]. destruct Hc as [Hc _].
  apply binary_round_aux_canon; [lia|assumption].
Qed.

Lemma growth_factor_canon g p e :
  nonneg_real g = true ->
  growth_factor g = S754_finite false p e -> canon (Zpos p) e.
Proof.
  intros Hg. pose proof (fdiv_hundred_nonneg g Hg) as Ht.
  unfold growth_factor, fadd, SFadd.
  destruct (fdiv g f_hundred) as [s|[|]| |[|] mt et]; try discriminate.
  - intros H. injection H as <- <-. reflexivity.
  - unfold f_one. cbv zeta.
    destruct (shl_align 4503599627370496 (-52) _) as [a ea].
    destruct (shl_align mt et _) as [b eb].
    simpl fst. simpl cond_Zopp.
    change (Zpos a + Zpos b) with (Zpos (a + b)). cbv iota.
    apply binary_round_canon.
Qed.

Lemma Zdigits2_mul px py :
  Zdigits2 (Zpos px) + Zdigits2 (Zpos py) - 1 <= Zdigits2 (Zpos (px * py)).
Proof.
  destruct (Zdigits2_bounds (Zpos px) ltac:(lia)) as [Hx _].
  destruct (Zdigits2_bounds (Zpos py) ltac:(lia)) as [Hy _].
  pose proof (Zdigits2_pos (Zpos px) ltac:(lia)) as Hdx.
  pose proof (Zdigits2_pos (Zpos py) ltac:(lia)) as Hdy.
  apply Zdigits2_ge; [lia|].
  replace (Zdigits2 (Zpos px) + Zdigits2 (Zpos py) - 1 - 1)
    with ((Zdigits2 (Zpos px) - 1) + (Zdigits2 (Zpos py) - 1)) by lia.
  rewrite Z.pow_add_r, Pos2Z.inj_mul by lia.
  apply Z.mul_le_mono_nonneg; try assumption; apply Z.pow_nonneg; lia.
Qed.

Lemma fmul_upper px ex py ey a b :
  canon (Zpos px) ex -> canon (Zpos py) ey ->
  (F2R (Zpos px) ex <= bpow a)%R ->
  Zdigits2 (Zpos py) + ey <= b ->
  -1074 <= a + b <= 1023 ->
  fmul (S754_finite false px ex) (S754_finite false py ey) = S754_zero false
  \/ exists p e,
       fmul (S754_finite false px ex) (S754_finite false py ey) = S754_finite false p e
       /\ canon (Zpos p) e /\ (F2R (Zpos p) e <= bpow (a + b))%R.
Proof.
  intros Hcx Hcy Hxa Hyb Hab. unfold fmul, SFmul. simpl xorb.
  apply binary_round_aux_upper; [lia| |assumption|].
  - pose proof (Zdigits2_mul px py) as Hd.
    pose proof (Zdigits2_pos (Zpos px) ltac:(lia)) as Hdx.
    pose proof (Zdigits2_pos (Zpos py) ltac:(lia)) as Hdy.
    apply (proj1 (canon_iff _ _)) in Hcx, Hcy. rewrite fexp_eq. lia.
  - pose proof (F2R_le_bpow_exp (Zpos px) ex a ltac:(lia) Hxa) as Hex.
    apply F2R_le_bpow in Hxa; [|assumption].
    destruct (Zdigits2_bounds (Zpos py) ltac:(lia)) as [_ Hy].
    pose proof (Zdigits2_pos (Zpos py) ltac:(lia)) as Hdy.
    assert (Hy' : Zpos py + 1 <= 2 ^ (b - ey)).
    { assert (2 ^ Zdigits2 (Zpos py) <= 2 ^ (b - ey)) by (apply Z.pow_le_mono_r; lia).
      lia. }
    apply F2R_le_bpow; [lia|].
    replace (a + b - (ex + ey)) with ((a - ex) + (b - ey)) by lia.
    rewrite Z.pow_add_r, Pos2Z.inj_mul by lia.
    assert (0 < 2 ^ (a - ex)) by (apply Z.pow_pos_nonneg; lia).
    nia.
Qed.

Lemma next_users_upper g u a b :
  nonneg_real g = true -> 0 < u < 2 ^ a -> 0 <= a ->
  factor_below g b = true -> a + b <= 1023 ->
  exists u', next_users g u = Ok u' /\ 0 < u' < 2 ^ (a + b + 1).
Proof.
  intros Hg Hu Ha Hb Hab. unfold factor_below in Hb.
  destruct (growth_factor_lower g Hg) as [Hgf|[py [ey [Hgf [Hfy Hy]]]]];
    [now rewrite Hgf in Hb|].
  rewrite Hgf in Hb. apply Z.leb_le in Hb.
  pose proof (growth_factor_canon g py ey Hg Hgf) as Hcy.
  assert (Hb1 : 1 <= b).
  { change 1%R with (bpow 0) in Hy.
    destruct (Zdigits2_bounds (Zpos py) ltac:(lia)) as [_ Hlt].
    pose proof (Zdigits2_pos (Zpos py) ltac:(lia)) as Hdy.
    destruct (Z.le_gt_cases 1 b) as [|Hb0]; [assumption|]. exfalso.
    assert (He : ey <= 0 - Zdigits2 (Zpos py)) by lia.
    assert (H1 : bpow 0 = F2R 1 0) by (unfold F2R; ring).
    rewrite H1 in Hy.
    apply (F2R_le_iff _ _ _ _ ey) in Hy; [|lia|lia].
    rewrite Z.sub_diag, Z.mul_1_r, Z.mul_1_l in Hy.
    assert (2 ^ Zdigits2 (Zpos py) <= 2 ^ (0 - ey)) by (apply Z.pow_le_mono_r; lia).
    lia. }
  destruct (float_of_int_upper u a Hu ltac:(lia)) as [px [ex [Hx [Hcx Hxa]]]].
  destruct (float_of_int_pos u ltac:(lia)) as [H|[px' [ex' [Hx' [Hfx [_ Hx1]]]]]];
    [congruence|].
  rewrite Hx in Hx'. injection Hx' as <- <-.
  unfold next_users. rewrite Hx, Hgf. cbn [bind].
  destruct (fmul_lower px ex py ey Hfx Hy) as [Hinf|[p [e [Hm [Hf Hle]]]]].
  - destruct (fmul_upper px ex py ey a b Hcx Hcy Hxa Hb ltac:(lia))
      as [H|[p [e [H _]]]]; congruence.
  - destruct (fmul_upper px ex py ey a b Hcx Hcy Hxa Hb ltac:(lia))
      as [H|[p' [e' [H [_ Hup]]]]]; [congruence|].
    rewrite Hm in H. injection H as <- <-.
    rewrite Hm. simpl. eexists. split; [reflexivity|].
    destruct (shiftl_floor p e) as [Hfl _].
    assert (1 <= Z.shiftl (Zpos p) e) by (apply shiftl_ge; lra).
    split; [lia|].
    assert (Hz : (IZR (Z.shiftl (Zpos p) e) <= bpow (a + b))%R) by lra.
    rewrite bpow_IZR in Hz by lia. apply le_IZR in Hz.
    rewrite Z.pow_add_r by lia. lia.
Qed.

Lemma grow_users_total g b n : forall users a,
  nonneg_real g = true -> factor_below g b = true ->
  users <> [] -> 0 <= a -> 0 <= b ->
  Forall (fun u => 0 < u < 2 ^ a) users ->
  a + Z.of_nat n * (b + 1) <= 1023 ->
  exists users',
    grow_users g n users = Ok users'
    /\ Forall (fun u => 0 < u < 2 ^ (a + Z.of_nat n * (b + 1))) users'.
Proof.
  induction n as [|n IH]; intros users a Hg Hb Hne Ha Hb0 Hall Hsum.
  - exists users. split; [reflexivity|].
    now replace (a + Z.of_nat 0 * (b + 1)) with a by lia.
  - simpl grow_users.
    assert (Hlast : 0 < last users 0 < 2 ^ a).
    { destruct (exists_last Hne) as [l [x ->]]. rewrite last_last.
      apply Forall_app in Hall. destruct Hall as [_ Hx]. now inversion Hx. }
    destruct (next_users_upper g (last users 0) a b Hg Hlast Ha Hb ltac:(lia))
      as [u' [-> Hu']].
    cbn [bind].
    destruct (IH (users ++ [u']) (a + b + 1) Hg Hb) as [users' [-> Hall']];
      try lia.
    + now destruct users.
    + apply Forall_app. split.
      * eapply Forall_impl; [|exact Hall]. intros u [H1 H2]. split; [assumption|].
        apply Z.lt_le_trans with (1 := H2). apply Z.pow_le_mono_r; lia.
      * constructor; [assumption|constructor].
    + exists users'. split; [reflexivity|].
      now replace (a + Z.of_nat (S n) * (b + 1))
        with (a + b + 1 + Z.of_nat n * (b + 1)) by lia.
Qed.

(** ** The only exception of a valid projection is [OverflowError] *)

Lemma bind_Raise {A B : Type} (r : result A) (k : A -> result B) e :
  bind r k = Raise e -> r = Raise e \/ exists a, r = Ok a /\ k a = Raise e.
Proof. destruct r as [a|e']; simpl; intros H; [eauto | left; congruence]. Qed.

Lemma mul_error a b e : mul a b = Raise e -> e = OverflowError.
Proof.
  destruct a as [x|x], b as [y|y]; simpl; intros H; try discriminate;
    apply bind_Raise in H; destruct H as [H|[? [_ H]]]; try discriminate;
    now apply float_of_int_error in H.
Qed.

Lemma add_error a b e : add a b = Raise e -> e = OverflowError.
Proof.
  destruct a as [x|x], b as [y|y]; simpl; intros H; try discriminate;
    apply bind_Raise in H; destruct H as [H|[? [_ H]]]; try discriminate;
    now apply float_of_int_error in H.
Qed.

Lemma tier_step_error st t e : tier_step st t = Raise e -> e = OverflowError.
Proof.
  destruct t as [limit price]. unfold tier_step.
  destruct (remaining_users st >? limit); intros H.
  - apply bind_Raise in H. destruct H as [H|[c [_ H]]]; [now apply mul_error in H|].
    apply bind_Raise in H. destruct H as [H|[t' [_ H]]]; [now apply add_error in H|].
    discriminate.
  - apply bind_Raise in H. destruct H as [H|[c [_ H]]]; [now apply mul_error in H|].
    apply bind_Raise in H. destruct H as [H|[t' [_ H]]]; [now apply add_error in H|].
    discriminate.
Qed.

Lemma tier_loop_error tiers : forall st e,
  tier_loop st tiers = Raise e -> e = OverflowError.
Proof.
  induction tiers as [|t tiers IH]; intros st e H; simpl in H; [discriminate|].
  apply bind_Raise in H. destruct H as [H|[st' [_ H]]];
    [now apply tier_step_error in H | now apply IH in H].
Qed.

Lemma final_tier_error st F e : final_tier st F = Raise e -> e = OverflowError.
Proof.
  unfold final_tier. destruct (remaining_users st >? 0); intros H; [|discriminate].
  apply bind_Raise in H. destruct H as [H|[c [_ H]]]; [now apply mul_error in H|].
  apply bind_Raise in H. destruct H as [H|[t' [_ H]]]; [now apply add_error in H|].
  discriminate.
Qed.

Lemma price_month_error L P F T u e :
  price_month L P F T u = Raise e -> e = OverflowError.
Proof.
  unfold price_month. destruct T; intros H.
  - apply bind_Raise in H. destruct H as [H|[st [_ H]]];
      [now apply tier_loop_error in H | now apply final_tier_error in H].
  - apply bind_Raise in H. destruct H as [H|[c [_ H]]];
      [now apply mul_error in H | discriminate].
Qed.

Lemma pricing_rows_error L P F T users : forall i e,
  pricing_rows L P F T i users = Raise e -> e = OverflowError.
Proof.
  induction users as [|u users IH]; intros i e H; simpl in H; [discriminate|].
  apply bind_Raise in H. destruct H as [H|[st [_ H]]];
    [now apply price_month_error in H|].
  apply bind_Raise in H. destruct H as [H|[rows [_ H]]];
    [now apply IH in H | discriminate].
Qed.

(** ** The rows are as wide as the header *)

Lemma column_headers_length L T :
  List.length (column_headers L T)
  = if T then (List.length L + 4)%nat else 4%nat.
Proof.
  unfold column_headers. destruct T; [|reflexivity].
  rewrite !length_app, length_map, length_seq. simpl. lia.
Qed.

Lemma pricing_row_length i u st :
  List.length (pricing_row i u st) = (List.length (tier_costs st) + 3)%nat.
Proof. unfold pricing_row. simpl. rewrite length_app. simpl. lia. Qed.

Lemma price_month_flat F L P u st :
  price_month L P F false u = Ok st ->
  mul (Int u) (Float F) = Ok (total_cost st) /\ tier_costs st = [total_cost st].
Proof.
  unfold price_month. intros H.
  apply bind_Ok in H. destruct H as [c [Hc H]]. injection H as <-. auto.
Qed.

Lemma pricing_rows_width L P F T users : forall i rows,
  (T = true -> List.length L = List.length P) ->
  pricing_rows L P F T i users = Ok rows ->
  forallb (fun row => Nat.eqb (List.length row) (List.length (column_headers L T))) rows
  = true.
Proof.
  induction users as [|u users IH]; intros i rows HT H; simpl in H.
  - now inv_ok.
  - apply bind_Ok in H. destruct H as [st [Hst H]].
    apply bind_Ok in H. destruct H as [rows' [Hrows H]].
    injection H as <-. cbn [forallb]. rewrite (IH _ _ HT Hrows), andb_true_r.
    apply Nat.eqb_eq. rewrite pricing_row_length, column_headers_length.
    destruct T.
    + rewrite (price_month_length _ _ _ _ _ Hst), (HT eq_refl). lia.
    + apply price_month_flat in Hst. destruct Hst as [_ ->]. reflexivity.
Qed.

Lemma make_DataFrame_total rows cols :
  forallb (fun row => Nat.eqb (List.length row) (List.length cols)) rows = true ->
  make_DataFrame rows cols = Ok {| columns := cols; data := rows |}.
Proof. unfold make_DataFrame. now intros ->. Qed.

Lemma valid_config_inv iu g months L P F T :
  valid_config iu g months L P F T = true ->
  0 < iu /\ 0 < months /\ nonneg_real g = true /\ nonneg_real F = true
  /\ (T = true ->
      forallb (fun limit => 0 <? limit) L = true
      /\ forallb nonneg_real P = true
      /\ List.length L = List.length P).
Proof.
  unfold valid_config, valid_tiers. intros H.
  apply andb_true_iff in H. destruct H as [H He].
  apply andb_true_iff in H. destruct H as [H Hd].
  apply andb_true_iff in H. destruct H as [H Hc].
  apply andb_true_iff in H. destruct H as [Ha Hb].
  apply Z.ltb_lt in Ha. apply Z.ltb_lt in Hb.
  split; [assumption|]. split; [assumption|].
  split; [assumption|]. split; [assumption|].
  intros ->.
  apply andb_true_iff in He. destruct He as [He He3].
  apply andb_true_iff in He. destruct He as [He1 He2].
  apply Nat.eqb_eq in He3. auto.
Qed.

Lemma generate_valid iu g months L P F T :
  valid_config iu g months L P F T = true ->
  generate_growth_projection iu g months L P F T = Raise OverflowError
  \/ exists df, generate_growth_projection iu g months L P F T = Ok df.
Proof.
  intros Hv. apply valid_config_inv in Hv.
  destruct Hv as [Hiu [Hm [Hg [HF HT]]]].
  unfold generate_growth_projection, project_users.
  destruct (grow_users_lower g (Z.to_nat months) [iu] Hg)
    as [->|[users ->]]; [discriminate|simpl; lia|now left|].
  cbn [bind].
  destruct (pricing_data L P F T users) as [rows|e] eqn:Hrows.
  - cbn [bind]. right. eexists. apply make_DataFrame_total.
    eapply pricing_rows_width; [|exact Hrows]. intros HT'. now apply HT.
  - left. apply pricing_rows_error in Hrows. now subst e.
Qed.

(** ** Within the range of binary64 the projection returns *)

Lemma float_of_int_in_range z :
  0 <= z < 2 ^ 1023 -> exists f, float_of_int z = Ok f.
Proof.
  intros Hz. destruct (Z.eq_dec z 0) as [->|Hne]; [now exists f_zero|].
  destruct (float_of_int_upper z 1023 ltac:(lia) ltac:(lia)) as [p [e [H _]]].
  eauto.
Qed.

Lemma mul_total z p :
  0 <= z < 2 ^ 1023 -> exists c, mul (Int z) (Float p) = Ok (Float c).
Proof.
  intros Hz. destruct (float_of_int_in_range z Hz) as [f Hf].
  simpl. rewrite Hf. simpl. eauto.
Qed.

Lemma add_total t c :
  total_ok t = true -> exists t', add t (Float c) = Ok t'.
Proof.
  destruct t as [z|f]; intros Ht.
  - apply Z.eqb_eq in Ht. subst z. exists (Float (fadd f_zero c)). reflexivity.
  - exists (Float (fadd f c)). reflexivity.
Qed.

Lemma tier_step_total st limit price :
  pricing_inv st -> remaining_users st < 2 ^ 1023 -> 0 <= limit ->
  nonneg_real price = true ->
  exists st', tier_step st (limit, price) = Ok st'
              /\ remaining_users st' <= remaining_users st.
Proof.
  intros [Hsum [Hok Hr]] Hlt Hl Hp.
  rewrite tier_step_spec. unfold spec_tier_step.
  destruct (mul_total (Z.min (remaining_users st) limit) price ltac:(lia)) as [c ->].
  cbn [bind].
  destruct (add_total (total_cost st) c Hok) as [t' ->]. cbn [bind].
  eexists. split; [reflexivity|]. simpl. lia.
Qed.

Lemma tier_loop_total tiers : forall st,
  Forall (fun t => 0 <= fst t /\ nonneg_real (snd t) = true) tiers ->
  pricing_inv st -> remaining_users st < 2 ^ 1023 ->
  exists st', tier_loop st tiers = Ok st' /\ remaining_users st' < 2 ^ 1023.
Proof.
  induction tiers as [|[limit price] tiers IH]; intros st Hv Hinv Hlt.
  - exists st. auto.
  - inversion Hv as [|? ? [Hl Hp] Hv']; subst. simpl in Hl, Hp.
    destruct (tier_step_total st limit price Hinv Hlt Hl Hp) as [st1 [Hst1 Hle]].
    change (tier_loop st ((limit, price) :: tiers))
      with (bind (tier_step st (limit, price)) (fun s => tier_loop s tiers)).
    rewrite Hst1. cbn [bind]. apply IH; [assumption| |lia].
    eapply tier_step_inv; eauto.
Qed.

Lemma final_tier_total st F :
  pricing_inv st -> remaining_users st < 2 ^ 1023 ->
  exists st', final_tier st F = Ok st'.
Proof.
  intros [Hsum [Hok Hr]] Hlt. unfold final_tier.
  destruct (remaining_users st >? 0); [|eauto].
  destruct (mul_total (remaining_users st) F ltac:(lia)) as [c ->]. cbn [bind].
  destruct (add_total (total_cost st) c Hok) as [t' ->]. cbn [bind]. eauto.
Qed.

Lemma price_month_total L P F T u :
  0 <= u < 2 ^ 1023 ->
  (T = true ->
   forallb (fun limit => 0 <? limit) L = true /\ forallb nonneg_real P = true) ->
  exists st, price_month L P F T u = Ok st.
Proof.
  intros Hu HT. unfold price_month. destruct T.
  - destruct (HT eq_refl) as [HL HP].
    assert (Hinv : pricing_inv
                     {| remaining_users := u; tier_costs := []; total_cost := Int 0 |}).
    { repeat split; simpl; auto; lia. }
    destruct (tier_loop_total (combine L P) _ (combine_valid _ _ HL HP) Hinv)
      as [st [Hst Hlt]]; [simpl; lia|].
    rewrite Hst. cbn [bind].
    apply final_tier_total; [|assumption].
    exact (tier_loop_inv _ _ _ (combine_valid _ _ HL HP) Hinv Hst).
  - destruct (mul_total u F Hu) as [c ->]. cbn [bind]. eauto.
Qed.

Lemma pricing_rows_total L P F T users : forall i,
  Forall (fun u => 0 <= u < 2 ^ 1023) users ->
  (T = true ->
   forallb (fun limit => 0 <? limit) L = true /\ forallb nonneg_real P = true) ->
  exists rows, pricing_rows L P F T i users = Ok rows.
Proof.
  induction users as [|u users IH]; intros i Hall HT; simpl.
  - eauto.
  - inversion Hall as [|? ? Hu Hall']; subst.
    destruct (price_month_total L P F T u Hu HT) as [st ->]. cbn [bind].
    destruct (IH (S i) Hall' HT) as [rows ->]. cbn [bind]. eauto.
Qed.

Lemma factor_below_pos g b :
  nonneg_real g = true -> factor_below g b = true -> 1 <= b.
Proof.
  intros Hg Hb. unfold factor_below in Hb.
  destruct (growth_factor_lower g Hg) as [Hgf|[py [ey [Hgf [Hfy Hy]]]]];
    [now rewrite Hgf in Hb|].
  rewrite Hgf in Hb. apply Z.leb_le in Hb.
  change 1%R with (bpow 0) in Hy.
  destruct (Zdigits2_bounds (Zpos py) ltac:(lia)) as [_ Hlt].
  pose proof (Zdigits2_pos (Zpos py) ltac:(lia)) as Hdy.
  destruct (Z.le_gt_cases 1 b) as [|Hb0]; [assumption|]. exfalso.
  assert (He : ey <= 0 - Zdigits2 (Zpos py)) by lia.
  assert (H1 : bpow 0 = F2R 1 0) by (unfold F2R; ring).
  rewrite H1 in Hy.
  apply (F2R_le_iff _ _ _ _ ey) in Hy; [|lia|lia].
  rewrite Z.sub_diag, Z.mul_1_r, Z.mul_1_l in Hy.
  assert (2 ^ Zdigits2 (Zpos py) <= 2 ^ (0 - ey)) by (apply Z.pow_le_mono_r; lia).
  lia.
Qed.

Lemma project_users_total iu g months :
  nonneg_real g = true -> 0 < iu -> 0 <= months ->
  in_range iu g months = true ->
  exists users,
    project_users iu g months = Ok users
    /\ Forall (fun u => 0 <= u < 2 ^ 1023) users.
Proof.
  intros Hg Hiu Hm Hr. unfold in_range in Hr.
  destruct (growth_factor g) as [| | |[|] p e] eqn:Hgf; try discriminate.
  apply Z.leb_le in Hr.
  remember (Zdigits2 (Zpos p) + e) as b eqn:Eb.
  remember (Z.log2 iu + 1) as a eqn:Ea.
  assert (Hb : factor_below g b = true).
  { unfold factor_below. rewrite Hgf. apply Z.leb_le. lia. }
  pose proof (factor_below_pos g b Hg Hb) as Hb1.
  pose proof (Z.log2_nonneg iu) as Hlog.
  assert (Ha : 0 < iu < 2 ^ a).
  { split; [assumption|]. subst a.
    destruct (Z.log2_spec iu Hiu) as [_ H]. now rewrite Z.add_1_r. }
  assert (Hne : [iu] <> []) by discriminate.
  assert (Hall0 : Forall (fun u => 0 < u < 2 ^ a) [iu])
    by (constructor; [assumption|constructor]).
  assert (Hsum : a + Z.of_nat (Z.to_nat months) * (b + 1) <= 1023)
    by (rewrite Z2Nat.id by assumption; lia).
  destruct (grow_users_total g b (Z.to_nat months) [iu] a Hg Hb Hne
              ltac:(lia) ltac:(lia) Hall0 Hsum) as [users [Hu Hall]].
  exists users. split; [exact Hu|].
  eapply Forall_impl; [|exact Hall]. intros u [H1 H2]. split; [lia|].
  apply Z.lt_le_trans with (1 := H2). apply Z.pow_le_mono_r; lia.
Qed.

Lemma generate_returns iu g months L P F T :
  valid_config iu g months L P F T = true ->
  in_range iu g months = true ->
  exists df, generate_growth_projection iu g months L P F T = Ok df.
Proof.
  intros Hv Hr. apply valid_config_inv in Hv.
  destruct Hv as [Hiu [Hm [Hg [HF HT]]]].
  destruct (project_users_total iu g months Hg Hiu ltac:(lia) Hr)
    as [users [Hu Hall]].
  unfold generate_growth_projection. rewrite Hu. cbn [bind].
  destruct (pricing_rows_total L P F T users 0 Hall) as [rows Hrows].
  { intros HT'. destruct (HT HT') as [H1 [H2 _]]. auto. }
  unfold pricing_data. rewrite Hrows. cbn [bind].
  eexists. apply make_DataFrame_total.
  eapply pricing_rows_width; [|exact Hrows]. intros HT'. now apply HT.
Qed.

(** ** Integers below [2 ^ 53] convert exactly *)

Lemma binary_round_aux_exact s mx ex :
  0 <= mx -> fexp prec emax (Zdigits2 mx + ex) <= ex ->
  binary_round_aux prec emax s mx ex loc_Exact = finish s mx ex.
Proof.
  intros Hmx Hex. unfold binary_round_aux.
  assert (H1 : shr_fexp prec emax mx ex loc_Exact
               = ({| shr_m := mx; shr_r := false; shr_s := false |}, ex)).
  { unfold shr_fexp, shr. simpl shr_record_of_loc.
    destruct (fexp prec emax (Zdigits2 mx + ex) - ex) eqn:Hn; try reflexivity. lia. }
  rewrite H1. simpl loc_of_shr_record. simpl round_nearest_even. simpl shr_m.
  pose proof (shr_fexp_shift_to mx ex loc_Exact Hmx) as H2.
  unfold finish. rewrite <- H2.
  now destruct (shr_fexp prec emax mx ex loc_Exact) as [mrs'' e''].
Qed.

Lemma shl_align_cases m e e' :
  (e' < e /\ Zpos (fst (shl_align m e e')) = Zpos m * 2 ^ (e - e')
   /\ snd (shl_align m e e') = e')
  \/ (e <= e' /\ shl_align m e e' = (m, e)).
Proof.
  unfold shl_align. destruct (e' - e) as [|d|d] eqn:Hd.
  - right. split; [lia|reflexivity].
  - right. split; [lia|reflexivity].
  - left. split; [lia|]. simpl. rewrite iter_xO_value.
    split; [|reflexivity]. replace (e - e') with (Zpos d) by lia. reflexivity.
Qed.

Lemma float_of_int_exact z :
  0 < z < 2 ^ 53 ->
  exists p e, float_of_int z = Ok (S754_finite false p e)
              /\ F2R (Zpos p) e = IZR z.
Proof.
  intros Hz. unfold float_of_int, binary_normalize.
  destruct z as [|z|z]; try lia.
  unfold binary_round.
  pose proof (shl_align_value z 0 (fexp prec emax (Zpos (digits2_pos z) + 0))) as Hv.
  assert (Hd : Zdigits2 (Zpos z) <= 53) by (apply Zdigits2_le; lia).
  pose proof (Zdigits2_pos (Zpos z) ltac:(lia)) as Hd0.
  assert (Hcan : canon (Zpos (fst (shl_align z 0 (fexp prec emax (Zpos (digits2_pos z) + 0)))))
                       (snd (shl_align z 0 (fexp prec emax (Zpos (digits2_pos z) + 0))))).
  { apply (proj2 (canon_iff _ _)).
    destruct (shl_align_cases z 0 (fexp prec emax (Zpos (digits2_pos z) + 0)))
      as [[Hlt [Hm He]]|[Hge Heq]].
    - rewrite Hm, He, Zdigits2_shift by lia. rewrite fexp_eq in *.
      simpl Zdigits2 in *. lia.
    - rewrite Heq. simpl fst. simpl snd. rewrite fexp_eq in Hge.
      simpl Zdigits2 in *. lia. }
  destruct (shl_align z 0 _) as [mz ez]. simpl in Hv, Hcan.
  rewrite binary_round_aux_exact;
    [|lia|unfold canon in Hcan; rewrite Hcan; lia].
  destruct (finish_canon false (Zpos mz) ez (Zpos mz) ltac:(lia) Hcan ltac:(auto))
    as [[H _]|[p [e3 [Hc3 [Hv3 ->]]]]]; [lia|].
  destruct (Z.leb_spec e3 (emax - prec)) as [He|He].
  - exists p, e3. split; [reflexivity|]. now rewrite Hv3, Hv, F2R_1.
  - exfalso. apply (proj1 (canon_iff _ _)) in Hc3. unfold emax, prec in He.
    assert (Hle : (F2R (Zpos p) e3 <= bpow 53)%R).
    { rewrite Hv3, Hv, F2R_1, bpow_IZR by lia. apply IZR_le. lia. }
    pose proof (F2R_le_bpow_exp (Zpos p) e3 53 ltac:(lia) Hle). lia.
Qed.

Lemma exact_float_small z : 0 < z < 2 ^ 53 -> exact_float z = true.
Proof.
  intros Hz. unfold exact_float.
  destruct (float_of_int_exact z Hz) as [p [e [-> Hv]]].
  simpl. apply Z.eqb_eq.
  destruct (shiftl_floor p e) as [H1 H2]. rewrite Hv in H1, H2.
  apply le_IZR in H1.
  assert (H3 : (IZR z < IZR (Z.shiftl (Zpos p) e + 1))%R) by (rewrite plus_IZR; lra).
  apply lt_IZR in H3. lia.
Qed.


(** ** The rows of the returned table *)

Lemma pricing_rows_columns L P F T users : forall i rows,
  pricing_rows L P F T i users = Ok rows ->
  map row_users rows = map (fun u => Some (Int u)) users
  /\ map row_month rows
     = map (fun m => Some (Int (Z.of_nat m))) (seq i (List.length users)).
Proof.
  induction users as [|u users IH]; intros i rows H; simpl in H.
  - inv_ok. now split.
  - apply bind_Ok in H. destruct H as [st [Hst H]].
    apply bind_Ok in H. destruct H as [rows' [Hrows H]].
    injection H as <-. destruct (IH _ _ Hrows) as [H1 H2].
    simpl. rewrite H1, H2. now split.
Qed.

Lemma generate_rows iu g months L P F T df :
  generate_growth_projection iu g months L P F T = Ok df ->
  exists users,
    project_users iu g months = Ok users
    /\ List.length users = S (Z.to_nat months)
    /\ columns df = column_headers L T
    /\ map row_users (data df) = map (fun u => Some (Int u)) users
    /\ map row_month (data df)
       = map (fun m => Some (Int (Z.of_nat m))) (seq 0 (S (Z.to_nat months)))
    /\ forall row, In row (data df) ->
         exists m u st,
           (m <= Z.to_nat months)%nat /\ nth m users 0 = u
           /\ price_month L P F T u = Ok st /\ row = pricing_row m u st.
Proof.
  intros H. destruct (generate_inv _ _ _ _ _ _ _ _ H) as [users [Hu [Hrows Hcols]]].
  exists users. pose proof (project_users_length _ _ _ _ Hu) as Hlen.
  destruct (pricing_rows_columns _ _ _ _ _ _ _ Hrows) as [H1 H2].
  rewrite Hlen in H2.
  split; [assumption|]. split; [assumption|]. split; [assumption|].
  split; [assumption|]. split; [assumption|].
  intros row Hin. apply In_nth_error in Hin. destruct Hin as [m Hm].
  destruct (pricing_rows_inv _ _ _ _ _ _ _ _ _ Hrows Hm) as [u [st [Hnu [Hst Hrow]]]].
  exists m, u, st.
  assert (Hlt : (m < List.length users)%nat) by (apply nth_error_Some; congruence).
  split; [lia|]. split; [now apply nth_error_nth|]. now split.
Qed.

Lemma users_nonneg_of_valid iu g months users :
  nonneg_real g = true -> 0 < iu ->
  project_users iu g months = Ok users ->
  forall m, (m <= Z.to_nat months)%nat -> 0 < nth m users 0.
Proof.
  intros Hg Hiu H m Hm.
  now destruct (project_users_positive iu g months users Hg Hiu H m Hm).
Qed.

(** ** Rounding to a neighbouring float *)

Lemma shr_1_rs mrs :
  0 <= shr_m mrs ->
  shr_r (shr_1 mrs) = Z.odd (shr_m mrs)
  /\ shr_s (shr_1 mrs) = shr_r mrs || shr_s mrs.
Proof.
  destruct mrs as [m r s]. intros Hm. simpl in Hm.
  destruct m as [|[p|p|]|p]; try lia; split; reflexivity.
Qed.

(** Shifting an exact mantissa by [n] digits leaves no round or sticky
    bit exactly when the digits shifted out are zero. *)
Lemma iter_shr_1_exact_iff n : forall m,
  0 <= m ->
  (shr_r (Nat.iter n shr_1 {| shr_m := m; shr_r := false; shr_s := false |})
   || shr_s (Nat.iter n shr_1 {| shr_m := m; shr_r := false; shr_s := false |})
   = false)
  <-> m mod 2 ^ Z.of_nat n = 0.
Proof.
  induction n as [|n IH]; intros m Hm.
  - simpl. rewrite Z.mod_1_r. tauto.
  - set (mrs := {| shr_m := m; shr_r := false; shr_s := false |}) in *.
    destruct (iter_shr_1_m n mrs Hm) as [Hq Hq0].
    change (Nat.iter (S n) shr_1 mrs) with (shr_1 (Nat.iter n shr_1 mrs)).
    destruct (shr_1_rs (Nat.iter n shr_1 mrs) Hq0) as [-> ->].
    rewrite Hq. simpl shr_m.
    specialize (IH m Hm). fold mrs in IH.
    rewrite orb_false_iff, IH.
    assert (Hp : 0 < 2 ^ Z.of_nat n) by (apply Z.pow_pos_nonneg; lia).
    rewrite Nat2Z.inj_succ, Z.pow_succ_r by lia.
    pose proof (Z.div_mod m (2 ^ Z.of_nat n) ltac:(lia)) as Hdm.
    pose proof (Z.mod_pos_bound m (2 ^ Z.of_nat n) Hp) as Hr.
    set (q := m / 2 ^ Z.of_nat n) in *. set (r := m mod 2 ^ Z.of_nat n) in *.
    rewrite <- Z.negb_even, negb_false_iff, Z.even_spec.
    split.
    + intros [[k Hk] Hr0]. apply Z.mod_divide; [lia|].
      exists k. rewrite Hdm, Hk, Hr0. ring.
    + intros H. apply Z.mod_divide in H; [|lia]. destruct H as [k Hk].
      set (P := 2 ^ Z.of_nat n) in *.
      assert (E : P * (q - 2 * k) + r = 0).
      { replace (P * (q - 2 * k) + r) with ((P * q + r) - k * (2 * P)) by ring.
        lia. }
      assert (Hq' : q - 2 * k = 0).
      { destruct (Z.lt_trichotomy (q - 2 * k) 0) as [Hlt | [Heq | Hgt]];
          [exfalso|exact Heq|exfalso].
        - assert (P * (q - 2 * k) <= P * (-1)) by (apply Z.mul_le_mono_nonneg_l; lia).
          lia.
        - assert (P * 1 <= P * (q - 2 * k)) by (apply Z.mul_le_mono_nonneg_l; lia).
          lia. }
      rewrite Hq', Z.mul_0_r in E. split; [exists k; lia|lia].
Qed.

(** [binary_round_aux] on an exact mantissa: the shift, then the mantissa
    kept or, only when digits were lost, raised by one. *)
Lemma binary_round_aux_rounded s mx ex :
  0 <= mx ->
  exists m2,
    let '(m1, e1) := shift_to mx ex (fexp prec emax (Zdigits2 mx + ex) - ex) in
    (m2 = m1 \/ (m2 = m1 + 1 /\ (F2R m1 e1 < F2R mx ex)%R))
    /\ binary_round_aux prec emax s mx ex loc_Exact = finish s m2 e1.
Proof.
  intros Hm. unfold binary_round_aux.
  pose proof (shr_fexp_shift_to mx ex loc_Exact Hm) as H1.
  pose proof (shr_fexp_nonneg mx ex loc_Exact Hm) as Hn1.
  assert (Hloc : loc_of_shr_record (fst (shr_fexp prec emax mx ex loc_Exact)) = loc_Exact
                 \/ (0 < fexp prec emax (Zdigits2 mx + ex) - ex
                     /\ mx mod 2 ^ (fexp prec emax (Zdigits2 mx + ex) - ex) <> 0)).
  { unfold shr_fexp, shr.
    change (shr_record_of_loc mx loc_Exact)
      with {| shr_m := mx; shr_r := false; shr_s := false |}.
    destruct (fexp prec emax (Zdigits2 mx + ex) - ex) as [|p|p] eqn:En;
      [left; reflexivity| |left; reflexivity].
    cbn [fst]. rewrite iter_pos_nat.
    pose proof (iter_shr_1_exact_iff (Pos.to_nat p) mx Hm) as Hiff.
    rewrite positive_nat_Z in Hiff.
    destruct (Nat.iter (Pos.to_nat p) shr_1 _) as [m' r' s'].
    cbn [shr_r shr_s] in Hiff.
    destruct r', s'; cbn [loc_of_shr_record]; try (left; reflexivity);
      right; (split; [lia|]); intros H0; apply Hiff in H0; discriminate. }
  destruct (shr_fexp prec emax mx ex loc_Exact) as [mrs' e']. simpl in H1, Hn1, Hloc.
  exists (round_nearest_even (shr_m mrs') (loc_of_shr_record mrs')).
  rewrite <- H1.
  split.
  - destruct Hloc as [-> | [Hn Hmod]]; [left; reflexivity|].
    destruct (round_nearest_even_cases (shr_m mrs') (loc_of_shr_record mrs'))
      as [E|E]; [now left|right].
    split; [exact E|].
    unfold shift_to in H1.
    replace (0 <? fexp prec emax (Zdigits2 mx + ex) - ex) with true in H1
      by (symmetry; apply Z.ltb_lt; exact Hn).
    injection H1 as -> ->.
    set (n := fexp prec emax (Zdigits2 mx + ex) - ex) in *.
    assert (Hp : 0 < 2 ^ n) by (apply Z.pow_pos_nonneg; lia).
    apply (proj2 (F2R_lt_iff (mx / 2 ^ n) (ex + n) mx ex ex ltac:(lia) ltac:(lia))).
    rewrite Z.sub_diag, Z.mul_1_r.
    replace (ex + n - ex) with n by lia.
    pose proof (Z.div_mod mx (2 ^ n) ltac:(lia)) as Hdm.
    pose proof (Z.mod_pos_bound mx (2 ^ n) Hp) as Hr. lia.
  - pose proof (round_nearest_even_nonneg _ (loc_of_shr_record mrs') Hn1) as Hn2.
    pose proof (shr_fexp_shift_to _ e' loc_Exact Hn2) as H2.
    unfold finish. rewrite <- H2.
    now destruct (shr_fexp prec emax _ e' loc_Exact) as [mrs'' e''].
Qed.

Lemma shift_to_below mx ex n :
  0 <= mx ->
  let '(m1, e1) := shift_to mx ex n in (F2R m1 e1 <= F2R mx ex)%R.
Proof.
  intros Hm. unfold shift_to.
  destruct (Z.ltb_spec 0 n) as [Hn|Hn]; [|lra].
  assert (Hp : 0 < 2 ^ n) by (apply Z.pow_pos_nonneg; lia).
  apply (proj2 (F2R_le_iff (mx / 2 ^ n) (ex + n) mx ex ex ltac:(lia) ltac:(lia))).
  rewrite Z.sub_diag, Z.mul_1_r.
  replace (ex + n - ex) with n by lia.
  pose proof (Z.div_mod mx (2 ^ n) ltac:(lia)) as Hdm.
  pose proof (Z.mod_pos_bound mx (2 ^ n) Hp) as Hr. lia.
Qed.

(** After a canonical float, the next number of at most 53 digits is one
    unit in the last place further. *)
Lemma next_float m1 e1 ma ea :
  0 <= m1 -> canon m1 e1 -> 0 <= ma -> fits ma ea ->
  (F2R m1 e1 < F2R ma ea)%R -> (F2R (m1 + 1) e1 <= F2R ma ea)%R.
Proof.
  intros Hm1 Hc Hma Hfit Hlt.
  apply (proj1 (canon_iff _ _)) in Hc.
  pose proof (fits_lt ma ea Hma Hfit) as Hma53.
  destruct (proj1 (fits_iff ma ea) Hfit) as [_ Hea].
  destruct (Z.le_gt_cases e1 ea) as [Hge|Hgt].
  - apply (proj2 (F2R_le_iff (m1 + 1) e1 ma ea e1 ltac:(lia) ltac:(lia))).
    apply (proj1 (F2R_lt_iff m1 e1 ma ea e1 ltac:(lia) ltac:(lia))) in Hlt.
    rewrite Z.sub_diag, Z.mul_1_r in *. lia.
  - exfalso.
    apply (proj1 (F2R_lt_iff m1 e1 ma ea ea ltac:(lia) ltac:(lia))) in Hlt.
    rewrite Z.sub_diag, Z.mul_1_r in Hlt.
    assert (Hd : Zdigits2 m1 = 53) by lia.
    assert (Hm1p : 0 < m1).
    { destruct m1 as [|p|p]; [discriminate Hd|lia|lia]. }
    destruct (Zdigits2_bounds m1 Hm1p) as [Hlo _]. rewrite Hd in Hlo.
    change (2 ^ (53 - 1)) with (2 ^ 52) in Hlo.
    assert (H2 : 2 <= 2 ^ (e1 - ea)).
    { change 2 with (2 ^ 1) at 1. apply Z.pow_le_mono_r; lia. }
    change (2 ^ 53) with (2 ^ 52 * 2) in Hma53. nia.
Qed.

Lemma F2R_mult a b e1 e2 : F2R (a * b) (e1 + e2) = (F2R a e1 * F2R b e2)%R.
Proof. unfold F2R. rewrite mult_IZR, bpow_add. ring. Qed.

Lemma bpow_1 : bpow 1 = 2%R.
Proof. unfold bpow. simpl. lra. Qed.

(** [binary_round_aux] on an exact positive mantissa returns a neighbour
    of the exact value, or overflows when that value is [2 ^ 1023] or
    more. *)
Lemma binary_round_aux_rounds mx ex :
  0 < mx -> ex <= fexp prec emax (Zdigits2 mx + ex) ->
  (binary_round_aux prec emax false mx ex loc_Exact = S754_infinity false
   /\ (bpow 1023 <= F2R mx ex)%R)
  \/ (is_finite (binary_round_aux prec emax false mx ex loc_Exact) = true
      /\ nonneg_float (binary_round_aux prec emax false mx ex loc_Exact) = true
      /\ rounds (F2R mx ex) (B2R (binary_round_aux prec emax false mx ex loc_Exact))).
Proof.
  intros Hmx Hex.
  destruct (binary_round_aux_rounded false mx ex ltac:(lia)) as [m2 Hr].
  pose proof (shift_to_canon mx ex ltac:(lia) Hex) as Hc.
  pose proof (shift_to_fits mx ex ltac:(lia)) as Hf.
  pose proof (shift_to_below mx ex (fexp prec emax (Zdigits2 mx + ex) - ex)
                ltac:(lia)) as Hb.
  assert (Hlow : forall ma ea, 0 < ma -> fits ma ea ->
            (F2R ma ea <= F2R mx ex)%R ->
            let '(m1, e1) := shift_to mx ex (fexp prec emax (Zdigits2 mx + ex) - ex) in
            (F2R ma ea <= F2R m1 e1)%R).
  { intros ma ea Hma Hfit Hle. exact (shift_to_lower mx ex ma ea Hmx Hma Hfit Hle). }
  destruct (shift_to mx ex (fexp prec emax (Zdigits2 mx + ex) - ex)) as [m1 e1].
  destruct Hf as [Hm1 Hfit1]. destruct Hr as [Hm2 ->].
  pose proof (F2R_pos mx ex Hmx) as Hxpos.
  assert (Hm2' : m2 = m1 \/ m2 = m1 + 1) by (destruct Hm2 as [?|[? _]]; auto).
  assert (Hlower : forall ma ea, 0 <= ma -> fits ma ea ->
            (F2R ma ea <= F2R mx ex)%R -> (F2R ma ea <= F2R m2 e1)%R).
  { intros ma ea Hma Hfit Hle.
    apply Rle_trans with (F2R m1 e1); [|apply F2R_le; lia].
    destruct (Z.eq_dec ma 0) as [->|Hne].
    - rewrite F2R_0. replace 0%R with (F2R 0 e1) by apply F2R_0.
      apply F2R_le; lia.
    - apply Hlow; [lia|assumption|assumption]. }
  assert (Hupper : forall ma ea, 0 <= ma -> fits ma ea ->
            (F2R mx ex <= F2R ma ea)%R -> (F2R m2 e1 <= F2R ma ea)%R).
  { intros ma ea Hma Hfit Hle.
    destruct Hm2 as [-> | [-> Hlt]]; [lra|].
    apply next_float; try assumption. lra. }
  destruct (finish_canon false m1 e1 m2 Hm1 Hc Hm2')
    as [[Hz ->] | [p [e3 [Hcp [Hval ->]]]]].
  - right. split; [reflexivity|]. split; [reflexivity|].
    intros ma ea Hma Hfit. simpl B2R.
    specialize (Hlower ma ea Hma Hfit). specialize (Hupper ma ea Hma Hfit).
    rewrite Hz, F2R_0 in Hlower, Hupper. split; assumption.
  - destruct (Z.leb_spec e3 (emax - prec)) as [He3|He3].
    + right. split; [reflexivity|]. split; [reflexivity|].
      intros ma ea Hma Hfit. simpl B2R. rewrite Hval.
      split; [apply Hlower|apply Hupper]; assumption.
    + left. split; [reflexivity|].
      unfold emax, prec in He3.
      apply (proj1 (canon_iff _ _)) in Hcp.
      assert (Hd : Zdigits2 (Zpos p) = 53) by lia.
      destruct (Zdigits2_bounds (Zpos p) ltac:(lia)) as [Hlo _].
      rewrite Hd in Hlo. change (2 ^ (53 - 1)) with (2 ^ 52) in Hlo.
      assert (Hbig : (bpow 1024 <= F2R m2 e1)%R).
      { rewrite <- Hval. unfold F2R.
        replace 1024 with (52 + 972) by lia. rewrite bpow_add, (bpow_IZR 52) by lia.
        pose proof (bpow_gt_0 972). pose proof (bpow_le 972 e3 ltac:(lia)).
        apply IZR_le in Hlo.
        apply Rmult_le_compat; lra. }
      assert (Hm1p : 0 < m1).
      { destruct (Z.eq_dec m1 0) as [E|]; [|lia]. exfalso. subst m1.
        apply (proj1 (canon_iff _ _)) in Hc. simpl Zdigits2 in Hc.
        assert (He1 : e1 = -1074) by lia. subst e1.
        assert (Hle : (F2R m2 (-1074) <= F2R 1 (-1074))%R) by (apply F2R_le; lia).
        unfold F2R at 2 in Hle. rewrite Rmult_1_l in Hle.
        pose proof (bpow_le (-1074) 1023 ltac:(lia)).
        pose proof (bpow_le 1023 1024 ltac:(lia)).
        assert ((bpow 1023 < bpow 1024)%R).
        { replace 1024 with (1023 + 1) by lia. rewrite bpow_add.
          rewrite bpow_1. pose proof (bpow_gt_0 1023). lra. }
        lra. }
      assert (H2 : (F2R m2 e1 <= 2 * F2R m1 e1)%R).
      { replace (2 * F2R m1 e1)%R with (F2R (2 * m1) e1)
          by (unfold F2R; rewrite mult_IZR; ring).
        apply F2R_le. lia. }
      replace 1024 with (1023 + 1) in Hbig by lia. rewrite bpow_add in Hbig.
      rewrite bpow_1 in Hbig. lra.
Qed.

Lemma bounded_canon m e :
  SpecFloat.bounded prec emax m e = true -> canon (Zpos m) e /\ e <= emax - prec.
Proof.
  unfold SpecFloat.bounded, canonical_mantissa. intros H.
  apply andb_true_iff in H. destruct H as [Hc He].
  apply Z.eqb_eq in Hc. apply Z.leb_le in He. now split.
Qed.

(** The float product of two positive floats is a neighbour of their
    exact product, or [+inf] when that is [2 ^ 1023] or more. *)
Lemma fmul_rounds px ex py ey :
  canon (Zpos px) ex -> canon (Zpos py) ey ->
  (fmul (S754_finite false px ex) (S754_finite false py ey) = S754_infinity false
   /\ (bpow 1023 <= F2R (Zpos px) ex * F2R (Zpos py) ey)%R)
  \/ (is_finite (fmul (S754_finite false px ex) (S754_finite false py ey)) = true
      /\ nonneg_float (fmul (S754_finite false px ex) (S754_finite false py ey)) = true
      /\ rounds (F2R (Zpos px) ex * F2R (Zpos py) ey)
           (B2R (fmul (S754_finite false px ex) (S754_finite false py ey)))).
Proof.
  intros Hcx Hcy. unfold fmul, SFmul. cbn [xorb].
  rewrite <- F2R_mult. change (Zpos px * Zpos py) with (Zpos (px * py)).
  apply binary_round_aux_rounds; [lia|].
  pose proof (Zdigits2_mul px py) as Hd.
  pose proof (Zdigits2_pos (Zpos px) ltac:(lia)) as Hdx.
  pose proof (Zdigits2_pos (Zpos py) ltac:(lia)) as Hdy.
  apply (proj1 (canon_iff _ _)) in Hcx, Hcy. rewrite fexp_eq. lia.
Qed.

(** [float(z)] of a positive integer is a neighbour of [z]; it is [z]
    when [z] is a binary64 number. *)
Lemma float_of_int_rounds z x :
  0 < z -> float_of_int z = Ok x ->
  exists p e,
    x = S754_finite false p e /\ canon (Zpos p) e
    /\ rounds (IZR z) (F2R (Zpos p) e).
Proof.
  intros Hz Hx.
  destruct (float_of_int_pos z Hz) as [E | [p [e [E _]]]]; [congruence|].
  assert (x = S754_finite false p e) by congruence. subst x.
  exists p, e. split; [reflexivity|].
  destruct z as [|q|q]; try lia.
  unfold float_of_int, binary_normalize in E.
  assert (Hb : binary_round prec emax false q 0 = S754_finite false p e).
  { destruct (binary_round prec emax false q 0); try discriminate; congruence. }
  split; [exact (binary_round_canon q 0 p e Hb)|].
  unfold binary_round in Hb.
  pose proof (shl_align_value q 0 (fexp prec emax (Zpos (digits2_pos q) + 0))) as Hv.
  pose proof (shl_align_canon q 0) as Hc.
  destruct (shl_align q 0 (fexp prec emax (Zpos (digits2_pos q) + 0))) as [mz ez].
  cbn [fst snd] in Hv. destruct Hc as [Hc _].
  destruct (binary_round_aux_rounds (Zpos mz) ez ltac:(lia) Hc)
    as [[Hinf _] | [_ [_ Hr]]]; [congruence|].
  rewrite Hb, Hv, F2R_1 in Hr. exact Hr.
Qed.

(** * The claims of the specification *)

(** ** Error conditions *)

(** C1 (as stated, refuted): a configuration with [initialUsers = 0] is
    invalid, yet the projector raises nothing on it and returns the
    complete table of its three months, every row with 0 users. *)
Lemma invalid_config_is_computed :
  invalid_config 0 (f_of 5) 2 [] [] f_one false = true
  /\ exists df,
       generate_growth_projection 0 (f_of 5) 2 [] [] f_one false = Ok df
       /\ map row_users (data df) = [Some (Int 0); Some (Int 0); Some (Int 0)]
       /\ map row_month (data df) = [Some (Int 0); Some (Int 1); Some (Int 2)].
Proof.
  split; [reflexivity|]. eexists. split; [vm_compute; reflexivity|].
  split; reflexivity.
Qed.

(** C1 (amended): the projector has no validation and no
    [InvalidConfiguration] error.  On a valid configuration the only
    exception it can raise is Python's [OverflowError], when a user count
    leaves the range of binary64; within the bound [in_range] it returns a
    table. *)
Theorem valid_config_returns_or_overflows iu g months L P F T :
  valid_config iu g months L P F T = true ->
  (generate_growth_projection iu g months L P F T = Raise OverflowError
   \/ exists df, generate_growth_projection iu g months L P F T = Ok df)
  /\ (in_range iu g months = true ->
      exists df, generate_growth_projection iu g months L P F T = Ok df).
Proof.
  intros Hv. split; [now apply generate_valid|].
  intros Hr. now apply generate_returns.
Qed.

Lemma valid_config_returns_or_overflows_witness :
  valid_config 10000 (f_of 5) 12 [] [] f_one false = true
  /\ in_range 10000 (f_of 5) 12 = true
  /\ (generate_growth_projection 10000 (f_of 5) 12 [] [] f_one false = Raise OverflowError
      \/ exists df,
           generate_growth_projection 10000 (f_of 5) 12 [] [] f_one false = Ok df)
  /\ (in_range 10000 (f_of 5) 12 = true ->
      exists df,
        generate_growth_projection 10000 (f_of 5) 12 [] [] f_one false = Ok df).
Proof.
  split; [vm_compute; reflexivity|]. split; [vm_compute; reflexivity|].
  apply (valid_config_returns_or_overflows 10000 (f_of 5) 12 [] [] f_one false).
  vm_compute; reflexivity.
Defined.

(** The second half of C1 fails as well: the largest double as growth
    rate is a valid configuration, and the first product overflows. *)
Example valid_config_can_overflow :
  valid_config 10000 (S754_finite false (2 ^ 53 - 1) 971) 1 [] [] f_one false = true
  /\ generate_growth_projection 10000 (S754_finite false (2 ^ 53 - 1) 971) 1
       [] [] f_one false
     = Raise OverflowError.
Proof. split; vm_compute; reflexivity. Qed.

(** ** The growth recurrence *)





(** The products are binary64 products: 100 users growing by 15 % make
    114 users, the floor of the double nearest below 115. *)
Example growth_is_computed_in_binary64 :
  project_users 100 (f_of 15) 1 = Ok [100; 114].
Proof. vm_compute; reflexivity. Qed.

(** ** Tiered pricing *)

Lemma price_month_tiered_shape L P F u st :
  price_month L P F true u = Ok st ->
  exists st1 cost,
    tier_loop {| remaining_users := u; tier_costs := []; total_cost := Int 0 |}
      (combine L P) = Ok st1
    /\ tier_costs st = tier_costs st1 ++ [cost]
    /\ List.length (tier_costs st1) = Nat.min (List.length L) (List.length P)
    /\ (remaining_users st1 <= 0 -> cost = Int 0 /\ total_cost st = total_cost st1)
    /\ (0 < remaining_users st1 ->
        mul (Int (remaining_users st1)) (Float F) = Ok cost
        /\ add (total_cost st1) cost = Ok (total_cost st)).
Proof.
  unfold price_month. intros H.
  apply bind_Ok in H. destruct H as [st1 [Hloop H]].
  pose proof (tier_loop_length _ _ _ Hloop) as Hlen. simpl in Hlen.
  rewrite length_combine in Hlen.
  apply final_tier_shape in H. destruct H as [_ [c [Htc [Hz Hp]]]].
  exists st1, c. auto.
Qed.


(** ** The shape of the result *)

(** C4: the table of a valid configuration has exactly
    [horizonMonths + 1] rows and its month column is
    [0, 1, ..., horizonMonths]: one record per month, in month order, each
    at the position of its month. *)
Theorem one_record_per_month iu g months L P F T :
  valid_config iu g months L P F T = true ->
  (in_range iu g months = true ->
   exists df, generate_growth_projection iu g months L P F T = Ok df)
  /\ forall df,
       generate_growth_projection iu g months L P F T = Ok df ->
       Z.of_nat (List.length (data df)) = months + 1
       /\ map row_month (data df)
          = map (fun m => Some (Int (Z.of_nat m))) (seq 0 (S (Z.to_nat months)))
       /\ forall m, 0 <= m <= months ->
            exists row, nth_error (data df) (Z.to_nat m) = Some row
                        /\ row_month row = Some (Int m).
Proof.
  intros Hv. split; [now apply generate_returns|].
  apply valid_config_inv in Hv. destruct Hv as [_ [Hm _]].
  intros df H.
  destruct (generate_rows _ _ _ _ _ _ _ _ H) as [users [_ [_ [_ [_ [Hcol _]]]]]].
  assert (Hlen : List.length (data df) = S (Z.to_nat months)).
  { rewrite <- (length_map row_month), Hcol, length_map, length_seq. reflexivity. }
  split; [rewrite Hlen; lia|]. split; [assumption|].
  intros m Hmm.
  destruct (nth_error (data df) (Z.to_nat m)) as [row|] eqn:Hrow;
    [|apply nth_error_None in Hrow; lia].
  exists row. split; [reflexivity|].
  pose proof (map_nth_error row_month _ _ Hrow) as H1.
  rewrite Hcol in H1.
  rewrite (map_nth_error (fun m => Some (Int (Z.of_nat m))) (Z.to_nat m)
             (seq 0 (S (Z.to_nat months))) (d := Z.to_nat m)) in H1.
  - injection H1 as <-. now rewrite Z2Nat.id by lia.
  - rewrite nth_error_nth' with (d := O) by (rewrite length_seq; lia).
    rewrite seq_nth by lia. reflexivity.
Qed.

Lemma one_record_per_month_witness :
  valid_config 10000 (f_of 5) 2 [] [] f_one false = true
  /\ (in_range 10000 (f_of 5) 2 = true ->
      exists df,
        generate_growth_projection 10000 (f_of 5) 2 [] [] f_one false = Ok df)
  /\ forall df,
       generate_growth_projection 10000 (f_of 5) 2 [] [] f_one false = Ok df ->
       Z.of_nat (List.length (data df)) = 2 + 1
       /\ map row_month (data df)
          = map (fun m => Some (Int (Z.of_nat m))) (seq 0 (S (Z.to_nat 2)))
       /\ forall m, 0 <= m <= 2 ->
            exists row, nth_error (data df) (Z.to_nat m) = Some row
                        /\ row_month row = Some (Int m).
Proof.
  split; [vm_compute; reflexivity|].
  apply (one_record_per_month 10000 (f_of 5) 2 [] [] f_one false).
  vm_compute; reflexivity.
Defined.

(** ** Costs *)



(** Scenario B, evaluated: the tiers charge 5000.0 and 2500.0, the
    overflow entry is the integer 0 and the total is 7500.0. *)
Example scenario_B_month_0 :
  exists st,
    price_month [5000; 5000] [f_one; fdiv f_one (f_of 2)]
      (fdiv (f_of 8) (f_of 10)) true 10000 = Ok st
    /\ tier_costs st = [Float (f_of 5000); Float (f_of 2500); Int 0]
    /\ total_cost st = Float (f_of 7500).
Proof. eexists. split; [vm_compute; reflexivity|]. split; reflexivity. Qed.

(** C6: in Tiered mode every record has one cost per configured tier
    and one more, the overflow entry, which is there also when nothing is
    left to charge; when the capacities add up to at least the month's
    users, the overflow entry is the integer 0. *)
Theorem tiered_rows_carry_the_overflow_entry iu g months L P F :
  valid_config iu g months L P F true = true ->
  (in_range iu g months = true ->
   exists df, generate_growth_projection iu g months L P F true = Ok df)
  /\ forall df,
       generate_growth_projection iu g months L P F true = Ok df ->
       forall row, In row (data df) ->
         List.length (row_tier_costs row) = S (List.length L)
         /\ forall u,
              row_users row = Some (Int u) -> u <= sum_limits L ->
              nth_error (row_tier_costs row) (List.length L) = Some (Int 0).
Proof.
  intros Hv. split; [now apply generate_returns|].
  apply valid_config_inv in Hv. destruct Hv as [_ [_ [_ [_ HT]]]].
  destruct (HT eq_refl) as [HL [HP Hlen]].
  intros df H row Hin.
  destruct (generate_rows _ _ _ _ _ _ _ _ H) as [users [_ [_ [_ [_ [_ Hrows]]]]]].
  destruct (Hrows row Hin) as [m [u [st [_ [_ [Hst ->]]]]]].
  rewrite row_tier_costs_pricing_row, row_users_pricing_row.
  destruct (price_month_tiered_shape _ _ _ _ _ Hst)
    as [st1 [c [Hloop [Htc [Hl1 [Hz _]]]]]].
  rewrite <- Hlen, Nat.min_id in Hl1.
  split; [rewrite Htc, length_app, Hl1; simpl; lia|].
  intros u' Hu' Hsum. injection Hu' as <-.
  assert (Hpos : Forall (fun l => 0 <= l) (map fst (combine L P))).
  { rewrite map_fst_combine by assumption.
    apply Forall_forall. intros l Hl.
    rewrite forallb_forall in HL. specialize (HL l Hl). apply Z.ltb_lt in HL. lia. }
  destruct (tier_loop_remaining _ _ _ Hpos Hloop) as [Hrem _].
  rewrite map_fst_combine in Hrem by assumption. simpl in Hrem.
  destruct (Hz ltac:(lia)) as [-> _].
  rewrite Htc, nth_error_app2 by lia. rewrite Hl1, Nat.sub_diag. reflexivity.
Qed.

Lemma tiered_rows_carry_the_overflow_entry_witness :
  valid_config 10000 f_zero 1 [5000; 5000] [f_one; fdiv f_one (f_of 2)]
    (fdiv (f_of 8) (f_of 10)) true = true
  /\ (in_range 10000 f_zero 1 = true ->
      exists df,
        generate_growth_projection 10000 f_zero 1 [5000; 5000]
          [f_one; fdiv f_one (f_of 2)] (fdiv (f_of 8) (f_of 10)) true = Ok df)
  /\ forall df,
       generate_growth_projection 10000 f_zero 1 [5000; 5000]
         [f_one; fdiv f_one (f_of 2)] (fdiv (f_of 8) (f_of 10)) true = Ok df ->
       forall row, In row (data df) ->
         List.length (row_tier_costs row) = S (List.length [5000; 5000])
         /\ forall u,
              row_users row = Some (Int u) -> u <= sum_limits [5000; 5000] ->
              nth_error (row_tier_costs row) (List.length [5000; 5000]) = Some (Int 0).
Proof.
  split; [vm_compute; reflexivity|].
  apply (tiered_rows_carry_the_overflow_entry 10000 f_zero 1 [5000; 5000]
           [f_one; fdiv f_one (f_of 2)] (fdiv (f_of 8) (f_of 10))).
  vm_compute; reflexivity.
Defined.

(** C7 (as stated, refuted): 3 users at the flat price 0.1 is a valid
    configuration; the total of a month is the float
    0.30000000000000004, above the exact product of 3 and the price. *)
Lemma flat_cost_is_not_the_exact_product :
  valid_config 3 f_zero 1 [] [] (fdiv f_one (f_of 10)) false = true
  /\ exists df t,
       generate_growth_projection 3 f_zero 1 [] [] (fdiv f_one (f_of 10)) false
       = Ok df
       /\ map row_users (data df) = [Some (Int 3); Some (Int 3)]
       /\ map row_total (data df) = [Some (Float t); Some (Float t)]
       /\ (IZR 3 * B2R (fdiv f_one (f_of 10)) < B2R t)%R.
Proof.
  split; [vm_compute; reflexivity|].
  eexists. exists (S754_finite false 5404319552844596 (-54)).
  split; [vm_compute; reflexivity|]. split; [reflexivity|]. split; [reflexivity|].
  assert (E : fdiv f_one (f_of 10) = S754_finite false 7205759403792794 (-56))
    by (vm_compute; reflexivity).
  rewrite E. cbn [B2R cond_Zopp].
  replace (IZR 3 * F2R 7205759403792794 (-56))%R
    with (F2R (3 * 7205759403792794) (-56))
    by (unfold F2R; rewrite mult_IZR; ring).
  apply (proj2 (F2R_lt_iff (3 * 7205759403792794) (-56) 5404319552844596 (-54) (-56)
                  ltac:(lia) ltac:(lia))).
  vm_compute. reflexivity.
Qed.

Lemma rounds_zero : rounds 0 0.
Proof. intros ma ea _ _. split; intros H; exact H. Qed.

(** The flat cost of a positive count at a valid price. *)
Lemma flat_cost_rounds u F total :
  0 < u -> nonneg_real F = true ->
  mul (Int u) (Float F) = Ok total ->
  exists x t,
    total = Float t
    /\ float_of_int u = Ok x /\ t = fmul x F
    /\ rounds (IZR u) (B2R x)
    /\ (t = S754_infinity false /\ (bpow 1023 <= B2R x * B2R F)%R
        \/ is_finite t = true /\ rounds (B2R x * B2R F) (B2R t)).
Proof.
  intros Hu HF H. unfold mul in H.
  apply bind_Ok in H. destruct H as [x [Hx H]]. injection H as <-.
  destruct (float_of_int_rounds u x Hu Hx) as [p [e [-> [Hc Hr]]]].
  exists (S754_finite false p e), (fmul (S754_finite false p e) F).
  split; [reflexivity|]. split; [exact Hx|]. split; [reflexivity|].
  split; [exact Hr|].
  destruct F as [s|s| |[|] m e']; try discriminate.
  - right. split; [reflexivity|].
    cbn [B2R]. change (B2R (fmul (S754_finite false p e) (S754_zero s))) with 0%R.
    rewrite Rmult_0_r. exact rounds_zero.
  - simpl in HF. destruct (bounded_canon m e' HF) as [Hcm _].
    cbn [B2R cond_Zopp].
    destruct (fmul_rounds p e m e' Hc Hcm) as [[Hinf Hb] | [Hfin [_ Hrr]]];
      [left|right]; auto.
Qed.

(** C7 (amended): with Flat pricing, every month's tier costs are the
    one-element list of its total, and the total is the float product
    [float(projectedUsers) * pricePerUser]: the conversion and the
    product each give a neighbour of the exact value among the floats --
    the exact value itself when it is a float -- and the product is
    [+inf] only when the exact one is [2 ^ 1023] or more. *)
Theorem flat_cost_is_users_times_price iu g months L P F :
  valid_config iu g months L P F false = true ->
  (in_range iu g months = true ->
   exists df, generate_growth_projection iu g months L P F false = Ok df)
  /\ forall df,
       generate_growth_projection iu g months L P F false = Ok df ->
       forall row, In row (data df) ->
         exists u x t,
           row_users row = Some (Int u)
           /\ row_total row = Some (Float t)
           /\ row_tier_costs row = [Float t]
           /\ float_of_int u = Ok x /\ t = fmul x F
           /\ rounds (IZR u) (B2R x)
           /\ (t = S754_infinity false /\ (bpow 1023 <= B2R x * B2R F)%R
               \/ is_finite t = true /\ rounds (B2R x * B2R F) (B2R t)).
Proof.
  intros Hv. split; [now apply generate_returns|].
  destruct (valid_config_inv _ _ _ _ _ _ _ Hv) as [Hiu [_ [Hg [HF _]]]].
  intros df H row Hin.
  destruct (generate_rows _ _ _ _ _ _ _ _ H) as [users [Hu [_ [_ [_ [_ Hrows]]]]]].
  destruct (Hrows row Hin) as [m [u [st [Hle [Hnth [Hst ->]]]]]].
  pose proof (users_nonneg_of_valid _ _ _ _ Hg Hiu Hu m Hle) as Hpos.
  rewrite Hnth in Hpos.
  apply price_month_flat in Hst. destruct Hst as [Hmul Htc].
  destruct (flat_cost_rounds u F _ Hpos HF Hmul) as [x [t [Et [Hx [Ht [Hr Hcase]]]]]].
  exists u, x, t.
  rewrite row_tier_costs_pricing_row, row_users_pricing_row, row_total_pricing_row.
  rewrite Htc, Et. auto 10.
Qed.

(** 10000 users, 5 %, two months, 2.5 per user: the totals are the exact
    products 25000, 26250 and 27562.5. *)
Lemma flat_cost_is_users_times_price_witness :
  valid_config 10000 (f_of 5) 2 [] [] (fdiv (f_of 5) (f_of 2)) false = true
  /\ (exists df,
        generate_growth_projection 10000 (f_of 5) 2 [] [] (fdiv (f_of 5) (f_of 2)) false
        = Ok df
        /\ data df
           = [[Int 0; Int 10000; Float (f_of 25000); Float (f_of 25000)];
              [Int 1; Int 10500; Float (f_of 26250); Float (f_of 26250)];
              [Int 2; Int 11025; Float (fdiv (f_of 55125) (f_of 2));
               Float (fdiv (f_of 55125) (f_of 2))]])
  /\ (in_range 10000 (f_of 5) 2 = true ->
      exists df,
        generate_growth_projection 10000 (f_of 5) 2 [] [] (fdiv (f_of 5) (f_of 2)) false
        = Ok df)
  /\ forall df,
       generate_growth_projection 10000 (f_of 5) 2 [] [] (fdiv (f_of 5) (f_of 2)) false
       = Ok df ->
       forall row, In row (data df) ->
         exists u x t,
           row_users row = Some (Int u)
           /\ row_total row = Some (Float t)
           /\ row_tier_costs row = [Float t]
           /\ float_of_int u = Ok x /\ t = fmul x (fdiv (f_of 5) (f_of 2))
           /\ rounds (IZR u) (B2R x)
           /\ (t = S754_infinity false
               /\ (bpow 1023 <= B2R x * B2R (fdiv (f_of 5) (f_of 2)))%R
               \/ is_finite t = true
                  /\ rounds (B2R x * B2R (fdiv (f_of 5) (f_of 2))) (B2R t)).
Proof.
  split; [vm_compute; reflexivity|].
  split; [eexists; split; [vm_compute; reflexivity | vm_compute; reflexivity]|].
  apply (flat_cost_is_users_times_price 10000 (f_of 5) 2 [] []
           (fdiv (f_of 5) (f_of 2))).
  vm_compute; reflexivity.
Defined.

(** ** Monotonicity *)

(** C8 (as stated, refuted): [2 ^ 53 + 1] users at a growth rate of 0
    is a valid configuration, but the float product rounds the count to
    [2 ^ 53]: month 1 has fewer users than month 0. *)
Lemma users_decrease_above_2_to_53 :
  valid_config 9007199254740993 f_zero 1 [] [] f_one false = true
  /\ exists df,
       generate_growth_projection 9007199254740993 f_zero 1 [] [] f_one false
       = Ok df
       /\ map row_users (data df)
          = [Some (Int 9007199254740993); Some (Int 9007199254740992)].
Proof.
  split; [reflexivity|]. eexists. split; [vm_compute; reflexivity|]. reflexivity.
Qed.

(** From the second month on every count is the truncation of a float,
    so a binary64 number itself: the conversion loses nothing and the
    product with a factor of at least 1 cannot fall below it. *)
Lemma project_users_monotone_from_month_2 iu g months users :
  nonneg_real g = true -> 0 < iu ->
  project_users iu g months = Ok users ->
  forall m, (1 <= m <= Z.to_nat months)%nat ->
    (2 <= m)%nat \/ exact_float iu = true ->
    nth (m - 1) users 0 <= nth m users 0.
Proof.
  intros Hg Hiu Hu m Hm Hcase.
  destruct (project_users_positive iu g months users Hg Hiu Hu (m - 1)%nat
              ltac:(lia)) as [Hpos Hfit].
  assert (Hf : int_fits (nth (m - 1) users 0)).
  { apply Hfit. destruct Hcase as [H2|Hex]; [left; lia|right; exact Hex]. }
  pose proof (project_users_step _ _ _ _ Hu m Hm) as Hstep.
  destruct (next_users_lower g (nth (m - 1) users 0) Hg Hpos)
    as [E | [u' [E [_ [_ Hle]]]]]; [congruence|].
  rewrite E in Hstep. injection Hstep as ->. exact (Hle Hf).
Qed.

(** C8 (amended): in every valid configuration the projected users never
    decrease from month 1 on ([users[m] >= users[m-1]] for every
    [m >= 2]); they do not decrease from month 0 to month 1 either when
    [initialUsers] is a binary64 number, which every count below [2 ^ 53]
    is. *)
Theorem users_never_decrease iu g months L P F T :
  valid_config iu g months L P F T = true ->
  (in_range iu g months = true ->
   exists df, generate_growth_projection iu g months L P F T = Ok df)
  /\ forall df,
       generate_growth_projection iu g months L P F T = Ok df ->
       exists users,
         map row_users (data df) = map (fun u => Some (Int u)) users
         /\ forall m, (1 <= m <= Z.to_nat months)%nat ->
              (2 <= m)%nat \/ iu < 2 ^ 53 \/ exact_float iu = true ->
              nth (m - 1) users 0 <= nth m users 0.
Proof.
  intros Hv. split; [now apply generate_returns|].
  apply valid_config_inv in Hv. destruct Hv as [Hiu [Hm [Hg _]]].
  intros df H.
  destruct (generate_rows _ _ _ _ _ _ _ _ H) as [users [Hu [_ [_ [Hcol _]]]]].
  exists users. split; [assumption|].
  intros m Hmm Hcase.
  apply (project_users_monotone_from_month_2 iu g months users Hg Hiu Hu m Hmm).
  destruct Hcase as [H2 | [Hlt | Hex]];
    [now left | right; apply exact_float_small; lia | now right].
Qed.

(** At [2 ^ 53 + 1] users and 5 percent the first step is outside the
    statement and every later one inside it; at 10000 users all are. *)
Lemma users_never_decrease_witness :
  valid_config 9007199254740993 (f_of 5) 3 [] [] f_one false = true
  /\ project_users 9007199254740993 (f_of 5) 3
     = Ok [9007199254740993; 9457559217478042; 9930437178351944; 10426959037269542]
  /\ project_users 10000 (f_of 5) 2 = Ok [10000; 10500; 11025]
  /\ (in_range 9007199254740993 (f_of 5) 3 = true ->
      exists df,
        generate_growth_projection 9007199254740993 (f_of 5) 3 [] [] f_one false
        = Ok df)
  /\ forall df,
       generate_growth_projection 9007199254740993 (f_of 5) 3 [] [] f_one false
       = Ok df ->
       exists users,
         map row_users (data df) = map (fun u => Some (Int u)) users
         /\ forall m, (1 <= m <= Z.to_nat 3)%nat ->
              (2 <= m)%nat \/ 9007199254740993 < 2 ^ 53
              \/ exact_float 9007199254740993 = true ->
              nth (m - 1) users 0 <= nth m users 0.
Proof.
  split; [vm_compute; reflexivity|].
  split; [vm_compute; reflexivity|].
  split; [vm_compute; reflexivity|].
  apply (users_never_decrease 9007199254740993 (f_of 5) 3 [] [] f_one false).
  vm_compute; reflexivity.
Defined.

(** ** The header of the table *)

(** C9: the labels of the returned table are [Month],
    [Projected Users], then, when Tiered, [Tier N Pricing ($)] for
    [N = 1 .. number of tiers] and [Final Tier Pricing ($)], or, when
    Flat, [Final Tier Pricing ($)] alone, then
    [Total Estimated Pricing ($)], in this order. *)
Theorem header_labels iu g months L P F T :
  valid_config iu g months L P F T = true ->
  (in_range iu g months = true ->
   exists df, generate_growth_projection iu g months L P F T = Ok df)
  /\ forall df,
       generate_growth_projection iu g months L P F T = Ok df ->
       columns df = spec_headers (List.length L) T.
Proof.
  intros Hv. split; [now apply generate_returns|].
  intros df H.
  destruct (generate_rows _ _ _ _ _ _ _ _ H) as [users [_ [_ [Hcols _]]]].
  rewrite Hcols. apply column_headers_spec.
Qed.

Lemma header_labels_witness :
  valid_config 10000 f_zero 1 [5000; 5000] [f_one; fdiv f_one (f_of 2)]
    (fdiv (f_of 8) (f_of 10)) true = true
  /\ spec_headers 2 true
     = ["Month"; "Projected Users"; "Tier 1 Pricing ($)"; "Tier 2 Pricing ($)";
        "Final Tier Pricing ($)"; "Total Estimated Pricing ($)"]%string
  /\ spec_headers 0 false
     = ["Month"; "Projected Users"; "Final Tier Pricing ($)";
        "Total Estimated Pricing ($)"]%string
  /\ (in_range 10000 f_zero 1 = true ->
      exists df,
        generate_growth_projection 10000 f_zero 1 [5000; 5000]
          [f_one; fdiv f_one (f_of 2)] (fdiv (f_of 8) (f_of 10)) true = Ok df)
  /\ forall df,
       generate_growth_projection 10000 f_zero 1 [5000; 5000]
         [f_one; fdiv f_one (f_of 2)] (fdiv (f_of 8) (f_of 10)) true = Ok df ->
       columns df = spec_headers (List.length [5000; 5000]) true.
Proof.
  split; [vm_compute; reflexivity|]. split; [reflexivity|]. split; [reflexivity|].
  apply (header_labels 10000 f_zero 1 [5000; 5000]
           [f_one; fdiv f_one (f_of 2)] (fdiv (f_of 8) (f_of 10)) true).
  vm_compute; reflexivity.
Defined.

(** The label of the tenth tier, as the f-string renders it. *)
Example tier_10_label : tier_header 9 = "Tier 10 Pricing ($)"%string.
Proof. reflexivity. Qed.

(** ** The two parallel lists *)

(** C10: the pricing loop runs over [zip(tier_limits, tier_prices)]: only
    the first [min(len(tier_limits), len(tier_prices))] tiers are charged
    and the surplus of the longer list does not change the pricing; a row
    has that many tier costs and one more, while the header has one tier
    label per element of [tier_limits], whatever [tier_prices] is. *)
Theorem tier_lists_are_zipped L P F u :
  price_month L P F true u
  = price_month (firstn (Nat.min (List.length L) (List.length P)) L)
                (firstn (Nat.min (List.length L) (List.length P)) P) F true u
  /\ (forall st i,
        price_month L P F true u = Ok st ->
        List.length (tier_costs st) = S (Nat.min (List.length L) (List.length P))
        /\ List.length (pricing_row i u st)
           = (Nat.min (List.length L) (List.length P) + 4)%nat)
  /\ column_headers L true = spec_headers (List.length L) true
  /\ List.length (column_headers L true) = (List.length L + 4)%nat.
Proof.
  split; [|split; [|split]].
  - unfold price_month. now rewrite <- combine_firstn.
  - intros st i H. pose proof (price_month_length _ _ _ _ _ H) as Hlen.
    split; [assumption|]. rewrite pricing_row_length, Hlen. lia.
  - apply column_headers_spec.
  - apply column_headers_length.
Qed.

(** With more limits than prices the rows are narrower than the header
    and [pandas] refuses them: the projector returns a table only if
    every limit has a price. *)
Remark more_limits_than_prices_is_refused iu g months L P F df :
  generate_growth_projection iu g months L P F true = Ok df ->
  (List.length L <= List.length P)%nat.
Proof.
  unfold generate_growth_projection. intros H.
  apply bind_Ok in H. destruct H as [users [Hu H]].
  apply bind_Ok in H. destruct H as [rows [Hrows H]].
  unfold make_DataFrame in H.
  destruct (forallb _ rows) eqn:Hw; [|discriminate].
  pose proof (project_users_length _ _ _ _ Hu) as Hlen.
  destruct users as [|u users]; [discriminate|].
  unfold pricing_data in Hrows. simpl in Hrows.
  apply bind_Ok in Hrows. destruct Hrows as [st [Hst Hrows]].
  apply bind_Ok in Hrows. destruct Hrows as [rows' [_ Hrows]].
  injection Hrows as <-. cbn [forallb] in Hw.
  apply andb_true_iff in Hw. destruct Hw as [Hw _]. apply Nat.eqb_eq in Hw.
  rewrite pricing_row_length, column_headers_length in Hw.
  rewrite (price_month_length _ _ _ _ _ Hst) in Hw. lia.
Qed.

(** * Further properties of the code *)

(** ** The tiered schedule in closed form *)






(** ** No cost is negative or undefined *)

Lemma total_ok_nonneg_cost t : total_ok t = true -> nonneg_cost t = true.
Proof.
  destruct t as [z|f]; simpl; [trivial|].
  destruct f as [s|s| |s m e]; simpl; trivial.
Qed.

Lemma tier_loop_costs tiers : forall st st',
  Forall (fun t => 0 <= fst t /\ nonneg_real (snd t) = true) tiers ->
  0 <= remaining_users st ->
  Forall (fun c => nonneg_cost c = true) (tier_costs st) ->
  tier_loop st tiers = Ok st' ->
  Forall (fun c => nonneg_cost c = true) (tier_costs st').
Proof.
  induction tiers as [|[limit price] tiers IH]; intros st st' Hv Hr Hc H.
  - simpl in H. injection H as <-. exact Hc.
  - change (tier_loop st ((limit, price) :: tiers))
      with (bind (tier_step st (limit, price)) (fun s => tier_loop s tiers)) in H.
    apply bind_Ok in H. destruct H as [st1 [Hstep H]].
    inversion Hv as [|? ? [Hl Hp] Hv']; subst. simpl in Hl, Hp.
    apply tier_step_shape in Hstep.
    destruct Hstep as [c [Hmul [_ [Htc Hrem]]]].
    apply mul_cost in Hmul; [|lia|assumption].
    destruct Hmul as [cf [E Hcf]]. injection E as ->.
    apply (IH st1 st' Hv'); [lia| |exact H].
    rewrite Htc. apply Forall_app. split; [exact Hc|].
    constructor; [exact Hcf|constructor].
Qed.

Lemma price_month_costs L P F T u st :
  0 <= u ->
  nonneg_real F = true ->
  (T = true ->
   forallb (fun limit => 0 <? limit) L = true
   /\ forallb nonneg_real P = true) ->
  price_month L P F T u = Ok st ->
  Forall (fun c => nonneg_cost c = true) (tier_costs st ++ [total_cost st]).
Proof.
  intros Hu HF Hv H. destruct T.
  - destruct (Hv eq_refl) as [Hl Hp].
    pose proof (combine_valid _ _ Hl Hp) as Hc.
    unfold price_month in H.
    apply bind_Ok in H. destruct H as [st1 [Hloop Hfin]].
    assert (Hinv : pricing_inv st1).
    { refine (tier_loop_inv _ _ _ Hc _ Hloop). repeat split; simpl; auto. }
    pose proof (tier_loop_costs (combine L P)
                  {| remaining_users := u; tier_costs := []; total_cost := Int 0 |}
                  st1 Hc Hu (Forall_nil _) Hloop) as Hcs.
    destruct (final_tier_inv _ _ _ HF Hinv Hfin) as [_ Hok].
    destruct Hinv as [_ [_ Hr]].
    destruct (final_tier_shape _ _ _ Hfin) as [_ [c [Htc [Hz Hpos]]]].
    apply Forall_app. split.
    + rewrite Htc. apply Forall_app. split; [exact Hcs|].
      constructor; [|constructor].
      destruct (Z_le_gt_dec (remaining_users st1) 0) as [Hle|Hgt].
      * destruct (Hz Hle) as [-> _]. reflexivity.
      * destruct (Hpos ltac:(lia)) as [Hmul _].
        apply mul_cost in Hmul; [|lia|assumption].
        destruct Hmul as [cf [-> Hcf]]. exact Hcf.
    + constructor; [|constructor]. now apply total_ok_nonneg_cost.
  - destruct (price_month_flat _ _ _ _ _ H) as [Hmul Htc].
    apply mul_cost in Hmul; [|assumption|assumption].
    destruct Hmul as [cf [E Hcf]]. rewrite Htc, E.
    repeat constructor; exact Hcf.
Qed.

(** X2: in the table of a valid configuration every entry after the two
    count columns (the tier costs and the total) is a number that is not
    negative: the integer 0, or a float that is no NaN and has no minus
    sign other than on a zero. *)
Theorem costs_are_never_negative_or_nan iu g months L P F T df :
  valid_config iu g months L P F T = true ->
  generate_growth_projection iu g months L P F T = Ok df ->
  forall row, In row (data df) ->
    Forall (fun c => nonneg_cost c = true) (skipn 2 row).
Proof.
  intros Hv H row Hrow.
  destruct (valid_config_inv _ _ _ _ _ _ _ Hv) as [Hiu [Hm [Hg [HF HT]]]].
  destruct (generate_rows _ _ _ _ _ _ _ _ H)
    as [users [Hu [_ [_ [_ [_ Hrows]]]]]].
  destruct (Hrows row Hrow) as [m [u [st [Hle [Hnth [Hst ->]]]]]].
  pose proof (users_nonneg_of_valid _ _ _ _ Hg Hiu Hu m Hle) as Hpos.
  rewrite Hnth in Hpos.
  change (skipn 2 (pricing_row m u st)) with (tier_costs st ++ [total_cost st]).
  apply (price_month_costs L P F T u st); [lia|assumption| |assumption].
  intros ->. destruct (HT eq_refl) as [Hl [Hp _]]. now split.
Qed.

Lemma costs_are_never_negative_or_nan_witness :
  exists df,
    generate_growth_projection 1000 (f_of 10) 3 [500; 500]
      [f_one; fdiv f_one (f_of 2)] (fdiv f_one (f_of 4)) true = Ok df
    /\ forall row, In row (data df) ->
         Forall (fun c => nonneg_cost c = true) (skipn 2 row).
Proof.
  eexists. split; [vm_compute; reflexivity|].
  apply (costs_are_never_negative_or_nan 1000 (f_of 10) 3 [500; 500]
           [f_one; fdiv f_one (f_of 2)] (fdiv f_one (f_of 4)) true);
    vm_compute; reflexivity.
Defined.

(** ** The projected counts stay positive *)

(** X3: with a positive start and a non-negative rate the truncation of
    [int(...)] never brings a month's user count to zero or below. *)
Theorem projected_users_stay_positive iu g months L P F T df :
  0 < iu -> nonneg_real g = true ->
  generate_growth_projection iu g months L P F T = Ok df ->
  forall row, In row (data df) ->
    exists u, row_users row = Some (Int u) /\ 1 <= u.
Proof.
  intros Hiu Hg H row Hrow.
  destruct (generate_rows _ _ _ _ _ _ _ _ H)
    as [users [Hu [_ [_ [_ [_ Hrows]]]]]].
  destruct (Hrows row Hrow) as [m [u [st [Hle [Hnth [Hst ->]]]]]].
  exists u. split; [apply row_users_pricing_row|].
  pose proof (users_nonneg_of_valid _ _ _ _ Hg Hiu Hu m Hle) as Hpos. lia.
Qed.

Lemma projected_users_stay_positive_witness :
  exists df,
    generate_growth_projection 1 (fdiv f_one (f_of 2)) 4 [] [] f_one false = Ok df
    /\ forall row, In row (data df) ->
         exists u, row_users row = Some (Int u) /\ 1 <= u.
Proof.
  eexists. split; [vm_compute; reflexivity|].
  apply (projected_users_stay_positive 1 (fdiv f_one (f_of 2)) 4 [] [] f_one false);
    [lia | reflexivity | vm_compute; reflexivity].
Defined.

(** ** A limit without a price *)

(** X4: when there are more tier limits than tier prices and the numbers
    stay in range, the Tiered projector raises [ValueError]: the rows have
    a cost per zipped pair, the header a label per limit, and the table
    constructor refuses the narrower rows. *)
Theorem missing_tier_price_raises_ValueError iu g months L P F :
  0 < iu -> 0 <= months -> nonneg_real g = true ->
  in_range iu g months = true ->
  forallb (fun limit => 0 <? limit) L = true ->
  forallb nonneg_real P = true ->
  (List.length P < List.length L)%nat ->
  generate_growth_projection iu g months L P F true = Raise ValueError.
Proof.
  intros Hiu Hm Hg Hr Hl Hp Hlen.
  destruct (project_users_total _ _ _ Hg Hiu Hm Hr) as [users [Hu Hb]].
  destruct (pricing_rows_total L P F true users 0%nat Hb ltac:(intros _; now split))
    as [rows Hrows].
  unfold generate_growth_projection, pricing_data. rewrite Hu. cbn [bind].
  rewrite Hrows. cbn [bind].
  pose proof (project_users_length _ _ _ _ Hu) as Hul.
  destruct users as [|u users]; [discriminate|].
  simpl in Hrows.
  apply bind_Ok in Hrows. destruct Hrows as [st [Hst Hrows]].
  apply bind_Ok in Hrows. destruct Hrows as [rows' [_ Hrows]].
  injection Hrows as <-.
  unfold make_DataFrame. cbn [forallb].
  rewrite pricing_row_length, column_headers_length.
  rewrite (price_month_length _ _ _ _ _ Hst).
  replace (Nat.eqb _ _) with false; [reflexivity|].
  symmetry. apply Nat.eqb_neq. lia.
Qed.

Lemma missing_tier_price_raises_ValueError_witness :
  generate_growth_projection 100 (f_of 5) 2 [50; 50] [f_one] f_one true
  = Raise ValueError.
Proof.
  apply (missing_tier_price_raises_ValueError 100 (f_of 5) 2 [50; 50] [f_one] f_one);
    try reflexivity; try lia; simpl; lia.
Defined.

(** ** Tiered pricing without a bounded tier *)

Lemma float_of_int_pos_finite z x :
  0 < z -> float_of_int z = Ok x ->
  exists p e, x = S754_finite false p e
              /\ canon (Zpos p) e /\ e <= emax - prec.
Proof.
  intros Hz Hx.
  destruct (float_of_int_pos z Hz) as [E | [p [e [E [_ [He _]]]]]];
    [congruence|].
  exists p, e. split; [congruence|]. split; [|exact He].
  destruct z as [|q|q]; try lia.
  unfold float_of_int, binary_normalize in E.
  apply (binary_round_canon q 0).
  destruct (binary_round prec emax false q 0) as [s|s| |s m' e'] eqn:Hb;
    try discriminate; congruence.
Qed.

Lemma fmul_pos_nonneg p e F :
  nonneg_float F = true -> nonneg_float (fmul (S754_finite false p e) F) = true.
Proof.
  destruct F as [s|s| |s m e']; simpl; intros H; try discriminate;
    try (destruct s; [discriminate|reflexivity]).
  destruct s; [discriminate|].
  unfold fmul, SFmul. simpl xorb.
  apply binary_round_aux_nonneg. lia.
Qed.

Lemma fadd_zero_l c : nonneg_float c = true -> fadd f_zero c = c.
Proof.
  destruct c as [s|s| |s m e]; simpl; intros H; try discriminate;
    destruct s; try discriminate; reflexivity.
Qed.

Lemma price_month_no_tiers L P P' F u :
  0 < u -> nonneg_float F = true ->
  price_month [] P F true u = price_month L P' F false u.
Proof.
  intros Hu HF. unfold price_month. cbn [combine tier_loop bind].
  unfold final_tier. cbn [remaining_users tier_costs total_cost].
  replace (u >? 0) with true by (symmetry; apply Z.gtb_lt; lia).
  unfold mul.
  destruct (float_of_int u) as [x|e] eqn:Hx; [|reflexivity].
  destruct (float_of_int_pos_finite u x Hu Hx) as [p [e [-> _]]].
  cbn [bind]. unfold add.
  change (float_of_int 0) with (Ok f_zero). cbn [bind app].
  rewrite fadd_zero_l; [reflexivity|]. now apply fmul_pos_nonneg.
Qed.

Lemma pricing_rows_no_tiers L P P' F users : forall i,
  Forall (fun u => 0 < u) users -> nonneg_float F = true ->
  pricing_rows [] P F true i users = pricing_rows L P' F false i users.
Proof.
  induction users as [|u users IH]; intros i Hu HF; [reflexivity|].
  inversion Hu as [|? ? Hu0 Hu']; subst.
  cbn [pricing_rows].
  rewrite (price_month_no_tiers L P P' F u Hu0 HF).
  destruct (price_month L P' F false u); [|reflexivity].
  cbn [bind]. now rewrite (IH (S i) Hu' HF).
Qed.

Lemma fadd_zero_l_same c : cost_float c = true -> SFeqb (fadd f_zero c) c = true.
Proof.
  destruct c as [s|s| |s m e]; simpl; intros H; try discriminate.
  - destruct s; reflexivity.
  - destruct s; [discriminate|reflexivity].
  - destruct s; [discriminate|].
    change (fadd f_zero (S754_finite false m e)) with (S754_finite false m e).
    now apply SFeqb_refl.
Qed.

Lemma price_month_no_tiers_same L P P' F u :
  0 < u -> nonneg_real F = true ->
  match price_month [] P F true u, price_month L P' F false u with
  | Ok st, Ok st' =>
      Forall2 same_value (tier_costs st ++ [total_cost st])
        (tier_costs st' ++ [total_cost st'])
  | Raise e, Raise e' => e = e'
  | _, _ => False
  end.
Proof.
  intros Hu HF. unfold price_month. cbn [combine tier_loop bind].
  unfold final_tier. cbn [remaining_users tier_costs total_cost].
  replace (u >? 0) with true by (symmetry; apply Z.gtb_lt; lia).
  unfold mul.
  destruct (float_of_int u) as [x|e] eqn:Hx; [|reflexivity].
  pose proof (float_of_int_finite u x ltac:(lia) Hx) as Hfin.
  pose proof (fmul_cost x F Hfin HF) as Hc.
  cbn [bind]. unfold add.
  change (float_of_int 0) with (Ok f_zero). cbn [bind app tier_costs total_cost].
  constructor; [exact (SFeqb_refl _ Hc)|].
  constructor; [exact (fadd_zero_l_same _ Hc)|constructor].
Qed.

Lemma pricing_rows_no_tiers_same L P P' F users : forall i,
  Forall (fun u => 0 < u) users -> nonneg_real F = true ->
  match pricing_rows [] P F true i users, pricing_rows L P' F false i users with
  | Ok rows, Ok rows' => Forall2 (Forall2 same_value) rows rows'
  | Raise e, Raise e' => e = e'
  | _, _ => False
  end.
Proof.
  induction users as [|u users IH]; intros i Hu HF; [constructor|].
  inversion Hu as [|? ? Hu0 Hu']; subst.
  cbn [pricing_rows].
  pose proof (price_month_no_tiers_same L P P' F u Hu0 HF) as Hm.
  destruct (price_month [] P F true u) as [st|e];
    destruct (price_month L P' F false u) as [st'|e']; try contradiction;
    [|exact Hm].
  cbn [bind]. specialize (IH (S i) Hu' HF).
  destruct (pricing_rows [] P F true (S i) users) as [rows|e];
    destruct (pricing_rows L P' F false (S i) users) as [rows'|e'];
    try contradiction; [|exact IH].
  cbn [bind]. constructor; [|exact IH].
  unfold pricing_row. cbn [app].
  constructor; [reflexivity|]. constructor; [reflexivity|]. exact Hm.
Qed.

Lemma same_rows_width (cols cols' : list string) : forall rows rows' : list (list num),
  List.length cols = List.length cols' ->
  Forall2 (Forall2 same_value) rows rows' ->
  forallb (fun row => Nat.eqb (List.length row) (List.length cols)) rows
  = forallb (fun row => Nat.eqb (List.length row) (List.length cols')) rows'.
Proof.
  intros rows rows' Hc H. induction H as [|row row' rows rows' Hr _ IH]; [reflexivity|].
  cbn [forallb]. rewrite IH, Hc. f_equal. f_equal.
  clear -Hr. induction Hr; simpl; congruence.
Qed.

(** X5: Tiered pricing with an empty list of limits is Flat pricing at the
    final price, whatever the other tier arguments are.  For a positive
    start and a non-negative rate, the two calls raise the same exception
    or return tables with the same labels and, cell by cell, equal
    numbers ([==]) for every price that is not negative; the tables are
    identical unless the price is [-0.0], where the Tiered total is
    [+0.0] and the Flat one [-0.0]. *)
Theorem tiered_without_tiers_is_flat iu g months L P P' F :
  0 < iu -> nonneg_real g = true ->
  (nonneg_real F = true ->
   same_result (generate_growth_projection iu g months [] P F true)
     (generate_growth_projection iu g months L P' F false))
  /\ (nonneg_float F = true ->
      generate_growth_projection iu g months [] P F true
      = generate_growth_projection iu g months L P' F false).
Proof.
  intros Hiu Hg.
  assert (Hpos : forall users, project_users iu g months = Ok users ->
                   Forall (fun u => 0 < u) users).
  { intros users Hu. apply Forall_forall. intros u Hin.
    destruct (In_nth users u 0 Hin) as [m [Hm <-]].
    rewrite (project_users_length _ _ _ _ Hu) in Hm.
    apply (users_nonneg_of_valid iu g months users Hg Hiu Hu). lia. }
  split; intros HF; unfold generate_growth_projection;
    destruct (project_users iu g months) as [users|e] eqn:Hu;
    try reflexivity; cbn [bind]; unfold pricing_data.
  - pose proof (pricing_rows_no_tiers_same L P P' F users 0%nat
                  (Hpos users eq_refl) HF) as Hrows.
    destruct (pricing_rows [] P F true 0 users) as [rows|e];
      destruct (pricing_rows L P' F false 0 users) as [rows'|e'];
      try contradiction; [|exact Hrows].
    cbn [bind]. unfold make_DataFrame.
    rewrite (same_rows_width (column_headers [] true) (column_headers L false)
               rows rows' eq_refl Hrows).
    destruct (forallb _ rows'); cbn [same_result columns data]; [|reflexivity].
    split; [reflexivity|exact Hrows].
  - now rewrite (pricing_rows_no_tiers L P P' F users 0%nat (Hpos users eq_refl) HF).
Qed.

(** At the price 0.8 the two tables are the same; at [-0.0] they are
    equal cell by cell. *)
Lemma tiered_without_tiers_is_flat_witness :
  generate_growth_projection 10000 (f_of 5) 12 [] [f_one] (fdiv (f_of 4) (f_of 5)) true
  = generate_growth_projection 10000 (f_of 5) 12 [5000] [] (fdiv (f_of 4) (f_of 5)) false
  /\ (exists df,
        generate_growth_projection 10000 (f_of 5) 12 [] [f_one]
          (fdiv (f_of 4) (f_of 5)) true = Ok df)
  /\ same_result
       (generate_growth_projection 10000 (f_of 5) 12 [] [f_one] (S754_zero true) true)
       (generate_growth_projection 10000 (f_of 5) 12 [5000] [] (S754_zero true) false)
  /\ exists df,
       generate_growth_projection 10000 (f_of 5) 12 [] [f_one] (S754_zero true) true
       = Ok df.
Proof.
  split; [|split; [|split]].
  - apply (tiered_without_tiers_is_flat 10000 (f_of 5) 12 [5000] [f_one] []
             (fdiv (f_of 4) (f_of 5))); [lia | reflexivity | reflexivity].
  - eexists. vm_compute. reflexivity.
  - apply (tiered_without_tiers_is_flat 10000 (f_of 5) 12 [5000] [f_one] []
             (S754_zero true)); [lia | reflexivity | reflexivity].
  - eexists. vm_compute. reflexivity.
Defined.

(** ** A growth rate of zero *)

Lemma shr_1_even m :
  0 <= m ->
  shr_1 {| shr_m := 2 * m; shr_r := false; shr_s := false |}
  = {| shr_m := m; shr_r := false; shr_s := false |}.
Proof. intros Hm. destruct m as [|p|p]; [reflexivity|reflexivity|lia]. Qed.

Lemma iter_shr_1_exact n : forall m,
  0 <= m ->
  Nat.iter n shr_1 {| shr_m := m * 2 ^ Z.of_nat n; shr_r := false; shr_s := false |}
  = {| shr_m := m; shr_r := false; shr_s := false |}.
Proof.
  induction n as [|n IH]; intros m Hm.
  - simpl. now rewrite Z.mul_1_r.
  - rewrite Nat.iter_succ_r.
    replace (m * 2 ^ Z.of_nat (S n)) with (2 * (m * 2 ^ Z.of_nat n))
      by (rewrite Nat2Z.inj_succ, Z.pow_succ_r by lia; ring).
    rewrite shr_1_even by (apply Z.mul_nonneg_nonneg; [lia|apply Z.pow_nonneg; lia]).
    now apply IH.
Qed.

(** [x * 1.0] is [x] for a positive binary64 number. *)
Lemma fmul_one p e :
  canon (Zpos p) e -> e <= emax - prec ->
  fmul (S754_finite false p e) f_one = S754_finite false p e.
Proof.
  intros Hc He.
  unfold fmul, f_one, SFmul. cbn [xorb].
  assert (Hd : Zdigits2 (Zpos (p * 4503599627370496)) = Zdigits2 (Zpos p) + 52).
  { rewrite Pos2Z.inj_mul. change (Zpos 4503599627370496) with (2 ^ 52).
    apply Zdigits2_shift; lia. }
  unfold canon in Hc.
  unfold binary_round_aux.
  assert (H1 : shr_fexp prec emax (Zpos (p * 4503599627370496)) (e + -52) loc_Exact
               = ({| shr_m := Zpos p; shr_r := false; shr_s := false |}, e)).
  { unfold shr_fexp. rewrite Hd.
    replace (Zdigits2 (Zpos p) + 52 + (e + -52)) with (Zdigits2 (Zpos p) + e) by lia.
    rewrite Hc. replace (e - (e + -52)) with 52 by lia.
    unfold shr. rewrite iter_pos_nat.
    change (Pos.to_nat 52) with 52%nat.
    change (shr_record_of_loc (Zpos (p * 4503599627370496)) loc_Exact)
      with {| shr_m := Zpos (p * 4503599627370496); shr_r := false; shr_s := false |}.
    rewrite Pos2Z.inj_mul. change (Zpos 4503599627370496) with (2 ^ Z.of_nat 52).
    rewrite iter_shr_1_exact by lia.
    f_equal. lia. }
  rewrite H1.
  change (loc_of_shr_record {| shr_m := Zpos p; shr_r := false; shr_s := false |})
    with loc_Exact.
  change (round_nearest_even (shr_m {| shr_m := Zpos p; shr_r := false; shr_s := false |})
            loc_Exact) with (Zpos p).
  assert (H2 : shr_fexp prec emax (Zpos p) e loc_Exact
               = ({| shr_m := Zpos p; shr_r := false; shr_s := false |}, e)).
  { unfold shr_fexp. rewrite Hc, Z.sub_diag. reflexivity. }
  rewrite H2. cbn [shr_m].
  replace (e <=? emax - prec) with true by (symmetry; apply Z.leb_le; exact He).
  reflexivity.
Qed.

Lemma growth_factor_zero s : growth_factor (S754_zero s) = f_one.
Proof. destruct s; vm_compute; reflexivity. Qed.

Lemma next_users_zero_growth s u :
  0 < u -> exact_float u = true -> next_users (S754_zero s) u = Ok u.
Proof.
  intros Hu Hx. unfold exact_float in Hx. unfold next_users.
  destruct (float_of_int u) as [x|] eqn:Hf; [|discriminate].
  destruct (float_of_int_pos_finite u x Hu Hf) as [p [e [-> [Hc He]]]].
  cbn [bind]. rewrite growth_factor_zero, (fmul_one p e Hc He).
  destruct (int_of_float (S754_finite false p e)) as [z|]; [|discriminate].
  apply Z.eqb_eq in Hx. now subst.
Qed.

Lemma grow_users_zero_growth s iu n : forall users,
  0 < iu -> exact_float iu = true -> last users 0 = iu ->
  grow_users (S754_zero s) n users = Ok (users ++ repeat iu n).
Proof.
  induction n as [|n IH]; intros users Hiu Hx Hl.
  - simpl. now rewrite app_nil_r.
  - cbn [grow_users]. rewrite Hl, (next_users_zero_growth s iu Hiu Hx).
    cbn [bind]. rewrite (IH (users ++ [iu]) Hiu Hx) by apply last_last.
    now rewrite <- app_assoc.
Qed.

(** X6: with a growth rate of zero (of either sign) and a positive initial
    count that is a binary64 number ([int(float(n)) == n], so every count
    below 2^53), the projection never raises and every month has the
    initial count. *)
Theorem zero_growth_keeps_the_users s iu months :
  0 < iu -> exact_float iu = true ->
  project_users iu (S754_zero s) months = Ok (repeat iu (S (Z.to_nat months)))
  /\ forall L P F T df,
       generate_growth_projection iu (S754_zero s) months L P F T = Ok df ->
       forall row, In row (data df) -> row_users row = Some (Int iu).
Proof.
  intros Hiu Hx.
  assert (Hp : project_users iu (S754_zero s) months
               = Ok (repeat iu (S (Z.to_nat months)))).
  { unfold project_users.
    now rewrite (grow_users_zero_growth s iu (Z.to_nat months) [iu] Hiu Hx). }
  split; [exact Hp|].
  intros L P F T df H row Hrow.
  destruct (generate_rows _ _ _ _ _ _ _ _ H)
    as [users [Hu [_ [_ [_ [_ Hrows]]]]]].
  destruct (Hrows row Hrow) as [m [u [st [Hle [Hnth [Hst ->]]]]]].
  rewrite row_users_pricing_row. do 2 f_equal.
  rewrite Hp in Hu. injection Hu as <-. subst u.
  apply (repeat_spec (S (Z.to_nat months)) iu).
  apply nth_In. rewrite repeat_length. lia.
Qed.

Lemma zero_growth_keeps_the_users_witness :
  project_users 10000 (S754_zero false) 12 = Ok (repeat 10000 (S (Z.to_nat 12)))
  /\ forall L P F T df,
       generate_growth_projection 10000 (S754_zero false) 12 L P F T = Ok df ->
       forall row, In row (data df) -> row_users row = Some (Int 10000).
Proof.
  apply (zero_growth_keeps_the_users false 10000 12); [lia | vm_compute; reflexivity].
Defined.

(** ** The labels of the header *)

Lemma string_length_append (a b : string) :
  String.length (a ++ b) = (String.length a + String.length b)%nat.
Proof. induction a as [|c a IH]; simpl; [reflexivity|now rewrite IH]. Qed.

Lemma string_append_inj_r (s : string) : forall a b : string,
  (a ++ s)%string = (b ++ s)%string -> a = b.
Proof.
  induction a as [|c a IH]; intros [|c' b] H; simpl in H.
  - reflexivity.
  - apply (f_equal String.length) in H. simpl in H.
    rewrite string_length_append in H. lia.
  - apply (f_equal String.length) in H. simpl in H.
    rewrite string_length_append in H. lia.
  - injection H as -> H. f_equal. now apply IH.
Qed.

Lemma to_uint_not_Nil n : Nat.to_uint n <> Decimal.Nil.
Proof.
  intros H. pose proof (DecimalNat.Unsigned.of_to n) as E.
  rewrite H in E. simpl in E. subst n. discriminate.
Qed.

Lemma str_of_nat_inj n m : str_of_nat n = str_of_nat m -> n = m.
Proof.
  unfold str_of_nat. intros H.
  apply (f_equal NilZero.uint_of_string) in H.
  rewrite !NilZero.usu in H by apply to_uint_not_Nil.
  injection H as H. now apply DecimalNat.Unsigned.to_uint_inj.
Qed.

Lemma tier_header_inj i j : tier_header i = tier_header j -> i = j.
Proof.
  unfold tier_header. intros H.
  simpl in H. injection H as H.
  apply string_append_inj_r, str_of_nat_inj in H. lia.
Qed.

Lemma digits_have_no_Total d s :
  contains "Total" s = false ->
  contains "Total" (NilEmpty.string_of_uint d ++ s) = false.
Proof.
  intros Hs. induction d; simpl; try exact Hs; exact IHd.
Qed.

Lemma tier_header_is_tier_column i :
  contains "Tier" (tier_header i) && negb (contains "Total" (tier_header i)) = true.
Proof.
  unfold tier_header, str_of_nat.
  assert (H : contains "Total"
                (NilZero.string_of_uint (Nat.to_uint (i + 1)) ++ " Pricing ($)")
              = false).
  { unfold NilZero.string_of_uint.
    destruct (Nat.to_uint (i + 1)) eqn:E;
      try (rewrite <- E; apply digits_have_no_Total; reflexivity).
    reflexivity. }
  simpl. rewrite H. reflexivity.
Qed.

Lemma tier_columns_of_header L T :
  filter (fun col => contains "Tier" col && negb (contains "Total" col))
    (column_headers L T)
  = if T then map tier_header (seq 0 (List.length L)) ++ ["Final Tier Pricing ($)"%string]
    else ["Final Tier Pricing ($)"%string].
Proof.
  unfold column_headers. destruct T; [|reflexivity].
  rewrite !filter_app.
  change (filter _ ["Month"%string; "Projected Users"%string]) with (@nil string).
  change (filter _ ["Total Estimated Pricing ($)"%string]) with (@nil string).
  change (filter _ ["Final Tier Pricing ($)"%string])
    with ["Final Tier Pricing ($)"%string].
  rewrite app_nil_r. cbn [app]. f_equal.
  induction (seq 0 (List.length L)) as [|i l IH]; [reflexivity|].
  cbn [map filter]. rewrite tier_header_is_tier_column. now f_equal.
Qed.

Lemma tier_header_first i : exists s, tier_header i = String "T" (String "i" s).
Proof. unfold tier_header. simpl. eexists. reflexivity. Qed.

Lemma column_headers_NoDup L T : NoDup (column_headers L T).
Proof.
  unfold column_headers. destruct T.
  - assert (Ht : NoDup (map tier_header (seq 0 (List.length L)))).
    { generalize (seq_NoDup (List.length L) 0).
      induction (seq 0 (List.length L)) as [|i l IH]; intros Hd; [constructor|].
      inversion Hd as [|? ? Hi Hd']; subst. cbn [map]. constructor; [|now apply IH].
      intros Hin. apply in_map_iff in Hin. destruct Hin as [j [E Hj]].
      apply tier_header_inj in E. now subst j. }
    assert (Hn : forall s, (forall t, s <> String "T" (String "i" t)) ->
                   ~ In s (map tier_header (seq 0 (List.length L)))).
    { intros s Hs Hin. apply in_map_iff in Hin. destruct Hin as [i [<- _]].
      destruct (tier_header_first i) as [t E]. exact (Hs t E). }
    cbn [app].
    constructor.
    { intros [H|H]; [discriminate|].
      rewrite !in_app_iff in H. destruct H as [[H|H]|H].
      - revert H. apply Hn. discriminate.
      - destruct H as [H|[]]; discriminate.
      - destruct H as [H|[]]; discriminate. }
    constructor.
    { rewrite !in_app_iff. intros [[H|H]|H].
      - revert H. apply Hn. discriminate.
      - destruct H as [H|[]]; discriminate.
      - destruct H as [H|[]]; discriminate. }
    rewrite <- app_assoc. apply NoDup_app; [exact Ht| |].
    + repeat constructor; simpl; intuition discriminate.
    + intros s Hs [H|[H|[]]]; subst s; revert Hs; apply Hn; discriminate.
  - cbn [app]. repeat constructor; simpl; intuition discriminate.
Qed.

Lemma index_of_nth cols : forall j label,
  NoDup cols -> nth_error cols j = Some label -> index_of label cols = Some j.
Proof.
  induction cols as [|c cols IH]; intros [|j] label Hd Hn; simpl in Hn;
    try discriminate.
  - injection Hn as ->. simpl. now rewrite String.eqb_refl.
  - inversion Hd as [|? ? Hc Hd']; subst. simpl.
    destruct (String.eqb_spec c label) as [->|_].
    + exfalso. apply Hc. eapply nth_error_In; exact Hn.
    + now rewrite (IH j label Hd' Hn).
Qed.

Lemma column_headers_nth L :
  nth_error (column_headers L true) 0 = Some "Month"%string
  /\ (forall k, (k < List.length L)%nat ->
        nth_error (column_headers L true) (2 + k) = Some (tier_header k))
  /\ nth_error (column_headers L true) (2 + List.length L)
     = Some "Final Tier Pricing ($)"%string
  /\ nth_error (column_headers L true) (3 + List.length L)
     = Some "Total Estimated Pricing ($)"%string.
Proof.
  unfold column_headers. cbn [app nth_error Nat.add].
  split; [reflexivity|].
  assert (Hl : List.length (map tier_header (seq 0 (List.length L))) = List.length L)
    by now rewrite length_map, length_seq.
  split; [|split].
  - intros k Hk. rewrite <- app_assoc, nth_error_app1 by lia.
    rewrite nth_error_map, nth_error_seq.
    destruct (Nat.ltb_spec k (List.length L)); [reflexivity|lia].
  - rewrite <- app_assoc. rewrite nth_error_app2; [|rewrite Hl; lia].
    now rewrite Hl, Nat.sub_diag.
  - change (nth_error ((map tier_header (seq 0 (List.length L))
                        ++ ["Final Tier Pricing ($)"%string])
                       ++ ["Total Estimated Pricing ($)"%string])
              (S (List.length L))
            = Some "Total Estimated Pricing ($)"%string).
    rewrite nth_error_app2; [|rewrite length_app, Hl; simpl; lia].
    rewrite length_app, Hl. cbn [List.length].
    replace (S (List.length L) - (List.length L + 1))%nat with 0%nat by lia.
    reflexivity.
Qed.

(** X7: the labels of the returned header are pairwise distinct, so that
    each column can be looked up by its label: [Month] is column 0, the
    label of tier [k] column [2 + k], the final tier's label the column
    after the tiers and the total's label the last one. *)
Theorem header_labels_are_distinct L T :
  NoDup (column_headers L T)
  /\ index_of "Month" (column_headers L true) = Some 0%nat
  /\ (forall k, (k < List.length L)%nat ->
        index_of (tier_header k) (column_headers L true) = Some (2 + k)%nat)
  /\ index_of "Final Tier Pricing ($)" (column_headers L true)
     = Some (2 + List.length L)%nat
  /\ index_of "Total Estimated Pricing ($)" (column_headers L true)
     = Some (3 + List.length L)%nat.
Proof.
  destruct (column_headers_nth L) as [H0 [Hk [Hf Ht]]].
  pose proof (column_headers_NoDup L true) as Hd.
  split; [apply column_headers_NoDup|].
  split; [now apply index_of_nth|].
  split; [intros k Hlt; apply index_of_nth; auto|].
  split; now apply index_of_nth.
Qed.

(** ** The chart: columns and conversions *)

Lemma obind_Returns {A B : Type} (r : outcome A) (k : A -> outcome B) (b : B) :
  obind r k = Returns b -> exists a, r = Returns a /\ k a = Returns b.
Proof. destruct r as [a|e]; simpl; intros H; [now exists a|discriminate]. Qed.

Lemma astype_nth {A : Type} (conv : num -> result A) xs : forall ys,
  astype conv xs = Ok ys ->
  List.length ys = List.length xs
  /\ forall r x, nth_error xs r = Some x ->
       exists y, nth_error ys r = Some y /\ conv x = Ok y.
Proof.
  induction xs as [|x0 xs IH]; intros ys H; simpl in H.
  - injection H as <-. split; [reflexivity|]. intros [|r] x Hx; discriminate.
  - apply bind_Ok in H. destruct H as [y0 [Hy0 H]].
    apply bind_Ok in H. destruct H as [ys' [Hys H]]. injection H as <-.
    destruct (IH ys' Hys) as [Hlen Hnth].
    split; [simpl; congruence|].
    intros [|r] x Hx; simpl in Hx.
    + injection Hx as <-. exists y0. now split.
    + exact (Hnth r x Hx).
Qed.

Lemma astype_total {A : Type} (conv : num -> result A) xs :
  Forall (fun x => exists y, conv x = Ok y) xs ->
  exists ys, astype conv xs = Ok ys.
Proof.
  induction 1 as [|x xs [y Hy] _ [ys Hys]]; [now exists []|].
  exists (y :: ys). simpl. now rewrite Hy, Hys.
Qed.

Lemma astype_as_int zs : astype as_int (map Int zs) = Ok zs.
Proof. induction zs as [|z zs IH]; simpl; [reflexivity|now rewrite IH]. Qed.

Lemma nth_error_combine {A B : Type} (xs : list A) : forall (ys : list B) r x y,
  nth_error xs r = Some x -> nth_error ys r = Some y ->
  nth_error (combine xs ys) r = Some (x, y).
Proof.
  induction xs as [|x0 xs IH]; intros [|y0 ys] [|r] x y Hx Hy; simpl in *;
    try discriminate.
  - congruence.
  - now apply IH.
Qed.

Lemma add_arrays_nth a b r x y :
  nth_error a r = Some x -> nth_error b r = Some y ->
  nth_error (add_arrays a b) r = Some (fadd x y).
Proof.
  intros Hx Hy. unfold add_arrays.
  now rewrite nth_error_map, (nth_error_combine a b r x y Hx Hy).
Qed.

Lemma add_arrays_length a b :
  List.length a = List.length b -> List.length (add_arrays a b) = List.length a.
Proof.
  intros H. unfold add_arrays. rewrite length_map, length_combine. lia.
Qed.

Lemma column_at df label j :
  index_of label (columns df) = Some j ->
  column df label = Returns (map (fun row => nth j row (Int 0)) (data df)).
Proof. intros H. unfold column. now rewrite H. Qed.

Lemma skipn_nth_error {A : Type} (l : list A) : forall i c,
  nth_error l i = Some c -> skipn i l = c :: skipn (S i) l.
Proof.
  induction l as [|x l IH]; intros [|i] c H; simpl in H; try discriminate.
  - now injection H as ->.
  - simpl. now apply IH.
Qed.

Lemma colors_nth i :
  (i < 4)%nat -> exists c, nth_error colors i = Some c.
Proof.
  intros H. do 4 (destruct i as [|i]; [eexists; reflexivity|]). lia.
Qed.

Lemma colors_none i : (4 <= i)%nat -> nth_error colors i = None.
Proof. intros H. apply nth_error_None. simpl. lia. Qed.

(** The loop of the bands, on columns that are in the table and hold
    numbers: it draws a band per column when the colours suffice, and
    fails at the first index without a colour otherwise. *)
Lemma fill_tiers_spec df months : forall cols js,
  Forall2 (fun col j => index_of col (columns df) = Some j) cols js ->
  (forall row, In row (data df) ->
     Forall (fun j => exists f, as_float (nth j row (Int 0)) = Ok f) js) ->
  forall i bottom,
  List.length bottom = List.length (data df) ->
  ((i + List.length cols <= 4)%nat ->
   exists bands,
     fill_tiers df months i cols bottom = Returns bands
     /\ map artist_label bands = cols
     /\ map band_color bands = firstn (List.length cols) (skipn i colors)
     /\ stacked bottom bands
     /\ List.length (stack_top bottom bands) = List.length (data df)
     /\ forall r row b,
          nth_error (data df) r = Some row -> nth_error bottom r = Some b ->
          exists fs,
            astype as_float (map (fun j => nth j row (Int 0)) js) = Ok fs
            /\ nth_error (stack_top bottom bands) r = Some (fold_left fadd fs b))
  /\ ((4 < i + List.length cols)%nat -> cols <> [] ->
      fill_tiers df months i cols bottom = Raises IndexError).
Proof.
  intros cols js Hidx.
  induction Hidx as [|col j cols js Hj Hidx IH]; intros Hcells i bottom Hlen.
  - split; [|intros _ H; now contradiction H].
    intros _. exists []. simpl. repeat split; auto.
    intros r row b _ Hb. exists []. now split.
  - assert (Hcol : Forall (fun x => exists f, as_float x = Ok f)
                     (map (fun row => nth j row (Int 0)) (data df))).
    { apply Forall_forall. intros x Hx. apply in_map_iff in Hx.
      destruct Hx as [row [<- Hrow]].
      specialize (Hcells row Hrow). now inversion Hcells. }
    destruct (astype_total as_float _ Hcol) as [vs Hvs].
    destruct (astype_nth as_float _ _ Hvs) as [Hvl Hvn].
    rewrite length_map in Hvl.
    assert (Hcells' : forall row, In row (data df) ->
              Forall (fun j => exists f, as_float (nth j row (Int 0)) = Ok f) js).
    { intros row Hrow. specialize (Hcells row Hrow). now inversion Hcells. }
    assert (Htl : List.length (add_arrays bottom vs) = List.length (data df)).
    { rewrite add_arrays_length; congruence. }
    destruct (IH Hcells' (S i) (add_arrays bottom vs) Htl) as [IHok IHerr].
    cbn [fill_tiers]. rewrite (column_at df col j Hj). cbn [obind].
    rewrite Hvs. cbn [lift obind].
    split.
    + intros Hi. cbn [List.length] in Hi.
      destruct (colors_nth i ltac:(lia)) as [c Hc]. rewrite Hc. cbn [obind].
      destruct (IHok ltac:(lia)) as [bands [Hb [Hlab [Hcolr [Hst [Htop Hrow]]]]]].
      rewrite Hb. cbn [obind]. eexists. split; [reflexivity|].
      cbn [map artist_label band_color stacked stack_top List.length firstn].
      rewrite Hlab, Hcolr, (skipn_nth_error colors i c Hc).
      repeat split; auto.
      intros r row b Hr Hbr.
      assert (Hx : nth_error (map (fun row => nth j row (Int 0)) (data df)) r
                   = Some (nth j row (Int 0))).
      { now rewrite nth_error_map, Hr. }
      destruct (Hvn r _ Hx) as [v [Hv Hconv]].
      destruct (Hrow r row (fadd b v) Hr (add_arrays_nth bottom vs r b v Hbr Hv))
        as [fs [Hfs Hnth]].
      exists (v :: fs). cbn [map astype]. rewrite Hconv, Hfs. cbn [bind].
      split; [reflexivity|exact Hnth].
    + intros Hi _. cbn [List.length] in Hi.
      destruct (Nat.lt_ge_cases i 4) as [Hlt|Hge].
      * destruct (colors_nth i Hlt) as [c Hc]. rewrite Hc. cbn [obind].
        rewrite IHerr; [reflexivity|lia|].
        destruct cols; [simpl in Hi; lia|discriminate].
      * now rewrite (colors_none i Hge).
Qed.

(** ** The chart: the cells of a projected table *)

Lemma mul_Int_Float z p c : mul (Int z) (Float p) = Ok c -> exists f, c = Float f.
Proof.
  unfold mul. intros H. apply bind_Ok in H. destruct H as [x [_ H]].
  injection H as <-. eexists. reflexivity.
Qed.

Lemma add_Float t c t' : add t (Float c) = Ok t' -> exists f, t' = Float f.
Proof.
  destruct t as [z|x]; unfold add; intros H.
  - apply bind_Ok in H. destruct H as [x [_ H]]. injection H as <-.
    eexists. reflexivity.
  - injection H as <-. eexists. reflexivity.
Qed.

Lemma is_cell_as_float c : is_cell c -> exists f, as_float c = Ok f.
Proof. intros [-> | [f ->]]; eexists; reflexivity. Qed.

Lemma tier_loop_cells tiers : forall st st',
  Forall is_cell (tier_costs st) -> is_cell (total_cost st) ->
  tier_loop st tiers = Ok st' ->
  Forall is_cell (tier_costs st') /\ is_cell (total_cost st').
Proof.
  induction tiers as [|[limit price] tiers IH]; intros st st' Hc Ht H.
  - simpl in H. injection H as <-. now split.
  - change (tier_loop st ((limit, price) :: tiers))
      with (bind (tier_step st (limit, price)) (fun s => tier_loop s tiers)) in H.
    apply bind_Ok in H. destruct H as [st1 [Hstep H]].
    apply tier_step_shape in Hstep.
    destruct Hstep as [c [_ [Hadd [Htc _]]]].
    apply (IH st1 st'); [| |exact H].
    + rewrite Htc. apply Forall_app. split; [exact Hc|].
      constructor; [right; now exists c|constructor].
    + right. exact (add_Float _ _ _ Hadd).
Qed.

Lemma price_month_cells L P F T u st :
  price_month L P F T u = Ok st ->
  Forall is_cell (tier_costs st) /\ is_cell (total_cost st).
Proof.
  intros H. destruct T.
  - unfold price_month in H.
    apply bind_Ok in H. destruct H as [st1 [Hloop Hfin]].
    destruct (tier_loop_cells (combine L P)
                {| remaining_users := u; tier_costs := []; total_cost := Int 0 |}
                st1 (Forall_nil _) (or_introl eq_refl) Hloop) as [Hc Ht].
    destruct (final_tier_shape _ _ _ Hfin) as [_ [c [Htc [Hz Hpos]]]].
    destruct (Z_le_gt_dec (remaining_users st1) 0) as [Hle|Hgt].
    + destruct (Hz Hle) as [-> ->]. rewrite Htc. split; [|exact Ht].
      apply Forall_app. split; [exact Hc|]. constructor; [now left|constructor].
    + destruct (Hpos ltac:(lia)) as [Hmul Hadd].
      destruct (mul_Int_Float _ _ _ Hmul) as [f ->].
      rewrite Htc. split.
      * apply Forall_app. split; [exact Hc|].
        constructor; [right; now exists f|constructor].
      * right. exact (add_Float _ _ _ Hadd).
  - destruct (price_month_flat _ _ _ _ _ H) as [Hmul Htc].
    destruct (mul_Int_Float _ _ _ Hmul) as [f Hf].
    rewrite Htc, Hf. split; [|right; now exists f].
    constructor; [right; now exists f|constructor].
Qed.

Lemma map_nth_error_0 {A : Type} (d : A) (rows : list (list A)) : forall xs,
  map (fun row => nth_error row 0) rows = map Some xs ->
  map (fun row => nth 0 row d) rows = xs.
Proof.
  induction rows as [|row rows IH]; intros [|x xs] H; simpl in H; try discriminate.
  - reflexivity.
  - injection H as Hx H. simpl. f_equal; [|now apply IH].
    destruct row; simpl in *; congruence.
Qed.

Lemma pricing_row_nth m u st :
  (forall k, (k < List.length (tier_costs st))%nat ->
     nth (2 + k) (pricing_row m u st) (Int 0) = nth k (tier_costs st) (Int 0))
  /\ nth (2 + List.length (tier_costs st)) (pricing_row m u st) (Int 0)
     = total_cost st.
Proof.
  unfold pricing_row. cbn [app Nat.add]. split.
  - intros k Hk. cbn [nth]. now rewrite app_nth1.
  - cbn [nth]. rewrite app_nth2 by lia. now rewrite Nat.sub_diag.
Qed.

(** The table the projector returns: its rows are the rows of the months,
    as wide as the header. *)
Lemma generate_table iu g months L P F T df :
  generate_growth_projection iu g months L P F T = Ok df ->
  columns df = column_headers L T
  /\ List.length (data df) = S (Z.to_nat months)
  /\ map (fun row => nth 0 row (Int 0)) (data df)
     = map Int (map Z.of_nat (seq 0 (S (Z.to_nat months))))
  /\ forall row, In row (data df) ->
       exists m u st,
         price_month L P F T u = Ok st /\ row = pricing_row m u st
         /\ List.length (tier_costs st)
            = if T then S (List.length L) else 1%nat.
Proof.
  intros H.
  destruct (generate_rows _ _ _ _ _ _ _ _ H)
    as [users [Hu [Hul [Hcols [Hcu [Hcm Hrows]]]]]].
  split; [exact Hcols|].
  split; [apply (f_equal (@List.length _)) in Hcu;
          rewrite !length_map in Hcu; congruence|].
  split.
  { rewrite map_map. apply map_nth_error_0.
    unfold row_month in Hcm. now rewrite map_map. }
  intros row Hrow.
  destruct (Hrows row Hrow) as [m [u [st [_ [_ [Hst ->]]]]]].
  exists m, u, st. split; [exact Hst|]. split; [reflexivity|].
  unfold generate_growth_projection in H.
  apply bind_Ok in H. destruct H as [us [_ H]].
  apply bind_Ok in H. destruct H as [rows [_ H]].
  unfold make_DataFrame in H.
  destruct (forallb _ rows) eqn:Hw; [|discriminate].
  injection H as <-. simpl in Hrow.
  rewrite forallb_forall in Hw. specialize (Hw _ Hrow).
  apply Nat.eqb_eq in Hw.
  rewrite pricing_row_length, column_headers_length in Hw.
  destruct T; lia.
Qed.

(** ** The chart of a projected table *)

Lemma header_index L T :
  index_of "Month" (column_headers L T) = Some 0%nat
  /\ index_of "Total Estimated Pricing ($)" (column_headers L T)
     = Some (2 + if T then S (List.length L) else 1)%nat.
Proof.
  destruct T; [|split; reflexivity].
  destruct (column_headers_nth L) as [H0 [_ [_ Ht]]].
  pose proof (column_headers_NoDup L true) as Hd.
  split; [now apply index_of_nth|].
  apply index_of_nth; [exact Hd|].
  replace (2 + S (List.length L))%nat with (3 + List.length L)%nat by lia.
  exact Ht.
Qed.

Lemma tier_index L : forall n,
  (n <= List.length L)%nat ->
  Forall2 (fun col j => index_of col (column_headers L true) = Some j)
    (map tier_header (seq 0 n)) (seq 2 n).
Proof.
  destruct (column_headers_nth L) as [_ [Hk _]].
  pose proof (column_headers_NoDup L true) as Hd.
  induction n as [|n IH]; intros Hn; [constructor|].
  rewrite !seq_S, map_app. apply Forall2_app; [apply IH; lia|].
  constructor; [|constructor].
  apply index_of_nth; [exact Hd|]. apply Hk. lia.
Qed.

Lemma tier_columns_index L :
  Forall2 (fun col j => index_of col (column_headers L true) = Some j)
    (map tier_header (seq 0 (List.length L)) ++ ["Final Tier Pricing ($)"%string])
    (seq 2 (S (List.length L))).
Proof.
  rewrite seq_S. apply Forall2_app; [apply tier_index; lia|].
  constructor; [|constructor].
  destruct (column_headers_nth L) as [_ [_ [Hf _]]].
  apply index_of_nth; [apply column_headers_NoDup|exact Hf].
Qed.

Lemma map_nth_middle {A : Type} (d : A) (post : list A) : forall cs pre,
  map (fun j => nth j (pre ++ cs ++ post) d) (seq (List.length pre) (List.length cs))
  = cs.
Proof.
  induction cs as [|c cs IH]; intros pre; [reflexivity|].
  cbn [List.length seq map].
  change ((c :: cs) ++ post) with (c :: cs ++ post). f_equal.
  - now rewrite nth_middle.
  - specialize (IH (pre ++ [c])).
    rewrite length_app, Nat.add_1_r, <- app_assoc in IH. exact IH.
Qed.

Lemma pricing_row_tier_cells m u st :
  map (fun j => nth j (pricing_row m u st) (Int 0))
    (seq 2 (List.length (tier_costs st)))
  = tier_costs st.
Proof.
  exact (map_nth_middle (Int 0) [total_cost st] (tier_costs st)
           [Int (Z.of_nat m); Int u]).
Qed.

(** The two columns of the line: the months and the totals. *)
Lemma plot_line iu g months L P F T df :
  generate_growth_projection iu g months L P F T = Ok df ->
  column df "Month" = Returns (map Int (map Z.of_nat (seq 0 (S (Z.to_nat months)))))
  /\ exists tc totals,
       column df "Total Estimated Pricing ($)" = Returns tc
       /\ astype as_float tc = Ok totals
       /\ List.length totals = S (Z.to_nat months)
       /\ forall r row,
            nth_error (data df) r = Some row ->
            exists c t,
              row_total row = Some c /\ as_float c = Ok t
              /\ nth_error totals r = Some t.
Proof.
  intros H.
  destruct (generate_table _ _ _ _ _ _ _ _ H) as [Hcols [Hlen [Hm Hrows]]].
  destruct (header_index L T) as [H0 Ht]. rewrite <- Hcols in H0, Ht.
  split; [now rewrite (column_at df _ _ H0), Hm|].
  rewrite (column_at df _ _ Ht).
  assert (Hcell : forall row, In row (data df) ->
            exists c, row_total row = Some c
                      /\ nth (2 + (if T then S (List.length L) else 1)) row (Int 0) = c
                      /\ is_cell c).
  { intros row Hrow.
    destruct (Hrows row Hrow) as [m [u [st [Hst [-> Hl]]]]].
    exists (total_cost st). split; [apply row_total_pricing_row|].
    split; [|exact (proj2 (price_month_cells _ _ _ _ _ _ Hst))].
    rewrite <- Hl. apply pricing_row_nth. }
  destruct (astype_total as_float
              (map (fun row => nth (2 + (if T then S (List.length L) else 1)) row (Int 0))
                 (data df))) as [totals Htot].
  { apply Forall_forall. intros x Hx. apply in_map_iff in Hx.
    destruct Hx as [row [<- Hrow]].
    destruct (Hcell row Hrow) as [c [_ [<- Hc]]]. now apply is_cell_as_float. }
  eexists. exists totals. split; [reflexivity|]. split; [exact Htot|].
  destruct (astype_nth as_float _ _ Htot) as [Hl Hn].
  rewrite length_map in Hl. split; [congruence|].
  intros r row Hr.
  destruct (Hcell row (nth_error_In _ _ Hr)) as [c [Hc [Hnth _]]].
  destruct (Hn r c) as [t [Ht' Hconv]].
  { rewrite nth_error_map, Hr. unfold option_map. f_equal. exact Hnth. }
  exists c, t. auto.
Qed.

(** The bands of a table projected with Tiered pricing. *)
Lemma plot_bands iu g months L P F df ms :
  generate_growth_projection iu g months L P F true = Ok df ->
  ((List.length L <= 3)%nat ->
   exists bands,
     fill_tiers df ms 0 (tier_columns df) (repeat f_zero (S (Z.to_nat months)))
     = Returns bands
     /\ map artist_label bands
        = map tier_header (seq 0 (List.length L)) ++ ["Final Tier Pricing ($)"%string]
     /\ map band_color bands = firstn (S (List.length L)) colors
     /\ stacked (repeat f_zero (S (Z.to_nat months))) bands
     /\ List.length (stack_top (repeat f_zero (S (Z.to_nat months))) bands)
        = S (Z.to_nat months)
     /\ forall r row,
          nth_error (data df) r = Some row ->
          exists fs,
            astype as_float (row_tier_costs row) = Ok fs
            /\ nth_error (stack_top (repeat f_zero (S (Z.to_nat months))) bands) r
               = Some (fold_left fadd fs f_zero))
  /\ ((4 <= List.length L)%nat ->
      fill_tiers df ms 0 (tier_columns df) (repeat f_zero (S (Z.to_nat months)))
      = Raises IndexError).
Proof.
  intros H.
  destruct (generate_table _ _ _ _ _ _ _ _ H) as [Hcols [Hlen [_ Hrows]]].
  assert (Htc : tier_columns df
                = map tier_header (seq 0 (List.length L))
                  ++ ["Final Tier Pricing ($)"%string]).
  { unfold tier_columns. rewrite Hcols. apply (tier_columns_of_header L true). }
  assert (Hl : List.length (tier_columns df) = S (List.length L)).
  { rewrite Htc, length_app, length_map, length_seq. simpl. lia. }
  pose proof (tier_columns_index L) as Hidx. rewrite <- Hcols, <- Htc in Hidx.
  assert (Hcells : forall row, In row (data df) ->
            Forall (fun j => exists f, as_float (nth j row (Int 0)) = Ok f)
              (seq 2 (S (List.length L)))).
  { intros row Hrow.
    destruct (Hrows row Hrow) as [m [u [st [Hst [-> Hn]]]]].
    apply Forall_forall. intros j Hj. apply in_seq in Hj.
    replace j with (2 + (j - 2))%nat by lia.
    rewrite (proj1 (pricing_row_nth m u st)) by lia.
    apply is_cell_as_float.
    destruct (price_month_cells _ _ _ _ _ _ Hst) as [Hc _].
    rewrite Forall_forall in Hc. apply Hc. apply nth_In. lia. }
  destruct (fill_tiers_spec df ms _ _ Hidx Hcells 0%nat
              (repeat f_zero (S (Z.to_nat months))))
    as [Hok Herr]; [now rewrite repeat_length|].
  split.
  - intros Hn.
    destruct (Hok ltac:(lia)) as [bands [Hb [Hlab [Hcol [Hst [Htl Hrow]]]]]].
    exists bands. split; [exact Hb|]. split; [congruence|].
    split; [now rewrite Hcol, Hl|]. split; [exact Hst|].
    split; [congruence|].
    intros r row Hr.
    destruct (Hrow r row f_zero Hr) as [fs [Hfs Htop]].
    { apply nth_error_repeat. rewrite <- Hlen.
      apply nth_error_Some. congruence. }
    exists fs. split; [|exact Htop].
    destruct (Hrows row (nth_error_In _ _ Hr)) as [m [u [st [_ [-> Hn']]]]].
    rewrite row_tier_costs_pricing_row.
    rewrite <- Hn', pricing_row_tier_cells in Hfs. exact Hfs.
  - intros Hn. apply Herr; [lia|]. rewrite Htc.
    intros E. apply (f_equal (@List.length _)) in E.
    rewrite length_app in E. simpl in E. lia.
Qed.

Lemma months_length months :
  List.length (map Z.of_nat (seq 0 (S (Z.to_nat months)))) = S (Z.to_nat months).
Proof. now rewrite length_map, length_seq. Qed.

Lemma Forall2_nth_error {A B : Type} (R : A -> B -> Prop) : forall xs ys,
  List.length xs = List.length ys ->
  (forall r x y, nth_error xs r = Some x -> nth_error ys r = Some y -> R x y) ->
  Forall2 R xs ys.
Proof.
  induction xs as [|x xs IH]; intros [|y ys] Hl H; simpl in Hl; try discriminate.
  - constructor.
  - constructor; [exact (H 0%nat x y eq_refl eq_refl)|].
    apply IH; [lia|]. intros r x' y' Hx Hy. exact (H (S r) x' y' Hx Hy).
Qed.

(** X8: a table projected with four or more bounded tiers cannot be
    charted with its tiers: the fifth band has no colour in the list of
    four and the chart raises [IndexError]. *)
Theorem chart_of_four_tiers_raises_IndexError iu g months L P F df :
  generate_growth_projection iu g months L P F true = Ok df ->
  (4 <= List.length L)%nat ->
  plot_growth_projection df true = Raises IndexError.
Proof.
  intros H Hn.
  destruct (plot_line _ _ _ _ _ _ _ _ H) as [Hm [tc [totals [Htc [Htot _]]]]].
  unfold plot_growth_projection.
  rewrite Hm. cbn [obind]. rewrite astype_as_int. cbn [lift obind].
  rewrite Htc. cbn [obind]. rewrite Htot. cbn [lift obind].
  rewrite months_length.
  now rewrite (proj2 (plot_bands _ _ _ _ _ _ _ _ H) Hn).
Qed.

Lemma chart_of_four_tiers_raises_IndexError_witness :
  exists df,
    generate_growth_projection 100 (f_of 5) 1 [10; 10; 10; 10]
      [f_one; f_one; f_one; f_one] f_one true = Ok df
    /\ plot_growth_projection df true = Raises IndexError.
Proof.
  eexists. split; [vm_compute; reflexivity|].
  apply (chart_of_four_tiers_raises_IndexError 100 (f_of 5) 1 [10; 10; 10; 10]
           [f_one; f_one; f_one; f_one] f_one);
    [vm_compute; reflexivity | simpl; lia].
Defined.

(** X9: a table projected with at most three bounded tiers is charted:
    the line of the totals (each row's total, as a float) over the
    months, then one band per tier column and one for the final tier,
    labelled with the column labels in order, coloured with the first
    colours of the list, each band starting where the one before it ended
    and the first one at zero; the upper edge of the last band is, month
    by month, the float sum of the row's tier costs. *)
Theorem chart_of_a_tiered_table iu g months L P F df :
  generate_growth_projection iu g months L P F true = Ok df ->
  (List.length L <= 3)%nat ->
  exists totals bands,
    plot_growth_projection df true
    = Returns {| artists :=
                   Line2D (map Z.of_nat (seq 0 (S (Z.to_nat months)))) totals
                     "o" "-" "blue" "Total Pricing" :: bands;
                 xlabel := "Month";
                 ylabel := "Estimated Pricing ($)";
                 title := "Projected Growth & Pricing";
                 legend := "Total Pricing"%string :: map artist_label bands |}
    /\ Forall2 (fun row t => exists c, row_total row = Some c /\ as_float c = Ok t)
         (data df) totals
    /\ map artist_label bands
       = map tier_header (seq 0 (List.length L)) ++ ["Final Tier Pricing ($)"%string]
    /\ map band_color bands = firstn (S (List.length L)) colors
    /\ stacked (repeat f_zero (S (Z.to_nat months))) bands
    /\ Forall2 (fun row top =>
                  exists fs,
                    astype as_float (row_tier_costs row) = Ok fs
                    /\ top = fold_left fadd fs f_zero)
         (data df) (stack_top (repeat f_zero (S (Z.to_nat months))) bands).
Proof.
  intros H Hn.
  destruct (plot_line _ _ _ _ _ _ _ _ H) as [Hm [tc [totals [Htc [Htot [Hl Htr]]]]]].
  destruct (generate_table _ _ _ _ _ _ _ _ H) as [_ [Hlen _]].
  destruct (proj1 (plot_bands _ _ _ _ _ _ _
                     (map Z.of_nat (seq 0 (S (Z.to_nat months)))) H) Hn)
    as [bands [Hb [Hlab [Hcol [Hst [Htl Hrow]]]]]].
  exists totals, bands.
  split; [|split; [|split; [exact Hlab|split; [exact Hcol|split; [exact Hst|]]]]].
  - unfold plot_growth_projection.
    rewrite Hm. cbn [obind]. rewrite astype_as_int. cbn [lift obind].
    rewrite Htc. cbn [obind]. rewrite Htot. cbn [lift obind].
    rewrite months_length, Hb. reflexivity.
  - apply Forall2_nth_error; [congruence|].
    intros r row t Hr Ht.
    destruct (Htr r row Hr) as [c [t' [Hc [Hct Ht']]]].
    exists c. split; [exact Hc|]. congruence.
  - apply Forall2_nth_error; [congruence|].
    intros r row top Hr Htop.
    destruct (Hrow r row Hr) as [fs [Hfs Htop']].
    exists fs. split; [exact Hfs|]. congruence.
Qed.

Lemma chart_of_a_tiered_table_witness :
  exists df totals bands,
    generate_growth_projection 10000 (f_of 5) 2 [5000; 5000] [f_one; f_one] f_one true
    = Ok df
    /\ plot_growth_projection df true
       = Returns {| artists :=
                      Line2D (map Z.of_nat (seq 0 (S (Z.to_nat 2)))) totals
                        "o" "-" "blue" "Total Pricing" :: bands;
                    xlabel := "Month";
                    ylabel := "Estimated Pricing ($)";
                    title := "Projected Growth & Pricing";
                    legend := "Total Pricing"%string :: map artist_label bands |}
    /\ Forall2 (fun row t => exists c, row_total row = Some c /\ as_float c = Ok t)
         (data df) totals
    /\ map artist_label bands
       = map tier_header (seq 0 (List.length [5000; 5000]))
         ++ ["Final Tier Pricing ($)"%string]
    /\ map band_color bands = firstn (S (List.length [5000; 5000])) colors
    /\ stacked (repeat f_zero (S (Z.to_nat 2))) bands
    /\ Forall2 (fun row top =>
                  exists fs,
                    astype as_float (row_tier_costs row) = Ok fs
                    /\ top = fold_left fadd fs f_zero)
         (data df) (stack_top (repeat f_zero (S (Z.to_nat 2))) bands).
Proof.
  eexists.
  assert (E : generate_growth_projection 10000 (f_of 5) 2 [5000; 5000]
                [f_one; f_one] f_one true = Ok _) by (vm_compute; reflexivity).
  destruct (chart_of_a_tiered_table 10000 (f_of 5) 2 [5000; 5000] [f_one; f_one]
              f_one _ E ltac:(simpl; lia)) as [totals [bands Hc]].
  exists totals, bands. split; [exact E|exact Hc].
Defined.

(** The sum Python makes of the tier costs is the sum the chart stacks. *)
Lemma sum_from_as_float cs : forall acc s a fs,
  is_cell acc -> Forall is_cell cs ->
  sum_from acc cs = Ok s ->
  as_float acc = Ok a -> astype as_float cs = Ok fs ->
  is_cell s /\ as_float s = Ok (fold_left fadd fs a).
Proof.
  induction cs as [|c cs IH]; intros acc s a fs Hacc Hcs Hs Ha Hfs.
  - simpl in Hs, Hfs. injection Hs as <-. injection Hfs as <-. now split.
  - inversion Hcs as [|? ? Hc Hcs']; subst.
    cbn [sum_from] in Hs. apply bind_Ok in Hs. destruct Hs as [acc' [Hadd Hs]].
    cbn [astype] in Hfs. apply bind_Ok in Hfs. destruct Hfs as [y [Hy Hfs]].
    apply bind_Ok in Hfs. destruct Hfs as [fs' [Hfs' Hfs]]. injection Hfs as <-.
    cbn [fold_left].
    apply (IH acc' s (fadd a y) fs'); try assumption.
    + destruct Hacc as [-> | [x ->]], Hc as [-> | [z ->]]; simpl in Hadd;
        injection Hadd as <-; try (now left); right; eexists; reflexivity.
    + destruct Hacc as [-> | [x ->]], Hc as [-> | [z ->]];
        simpl in Hadd, Ha, Hy; injection Hadd as <-; injection Ha as <-;
        injection Hy as <-; reflexivity.
Qed.

(** X10: in the chart of a table projected from a valid Tiered
    configuration the upper edge of the last band is the line of the
    totals: at every month the stacked tier costs are equal ([==]) to the
    total. *)
Theorem chart_stack_reaches_the_total iu g months L P F df fig :
  valid_config iu g months L P F true = true ->
  generate_growth_projection iu g months L P F true = Ok df ->
  plot_growth_projection df true = Returns fig ->
  exists ms totals bands,
    artists fig = Line2D ms totals "o" "-" "blue" "Total Pricing" :: bands
    /\ stacked (repeat f_zero (List.length ms)) bands
    /\ Forall2 (fun top t => SFeqb top t = true)
         (stack_top (repeat f_zero (List.length ms)) bands) totals.
Proof.
  intros Hv H Hplot.
  destruct (valid_config_inv _ _ _ _ _ _ _ Hv) as [Hiu [_ [Hg [HF HT]]]].
  destruct (HT eq_refl) as [HL [HP _]].
  destruct (plot_line _ _ _ _ _ _ _ _ H) as [Hm [tc [totals [Htc [Htot [Hl Htr]]]]]].
  destruct (plot_bands _ _ _ _ _ _ _
              (map Z.of_nat (seq 0 (S (Z.to_nat months)))) H) as [Hok Herr].
  unfold plot_growth_projection in Hplot.
  rewrite Hm in Hplot. cbn [obind] in Hplot.
  rewrite astype_as_int in Hplot. cbn [lift obind] in Hplot.
  rewrite Htc in Hplot. cbn [obind] in Hplot.
  rewrite Htot in Hplot. cbn [lift obind] in Hplot.
  rewrite months_length in Hplot.
  destruct (le_lt_dec (List.length L) 3) as [Hn|Hn];
    [|rewrite (Herr Hn) in Hplot; discriminate].
  destruct (Hok Hn) as [bands [Hb [_ [_ [Hst [Htl Hrow]]]]]].
  rewrite Hb in Hplot. cbn [obind] in Hplot. injection Hplot as <-.
  exists (map Z.of_nat (seq 0 (S (Z.to_nat months)))), totals, bands.
  cbn [artists]. rewrite months_length.
  split; [reflexivity|]. split; [exact Hst|].
  apply Forall2_nth_error; [congruence|].
  intros r top t Htop Ht.
  destruct (generate_rows _ _ _ _ _ _ _ _ H)
    as [users [Hu [_ [_ [Hcu [_ Hrows]]]]]].
  destruct (generate_table _ _ _ _ _ _ _ _ H) as [_ [Hlen _]].
  destruct (nth_error (data df) r) as [row|] eqn:Hr;
    [|apply nth_error_None in Hr;
      assert (r < List.length totals)%nat
        by (apply nth_error_Some; congruence); lia].
  destruct (Hrows row (nth_error_In _ _ Hr)) as [m [u [st [Hle [Hnth [Hpm ->]]]]]].
  pose proof (users_nonneg_of_valid _ _ _ _ Hg Hiu Hu m Hle) as Hpos.
  rewrite Hnth in Hpos.
  destruct (price_month_sum L P F true u st ltac:(lia) HF
              ltac:(intros _; now split) Hpm) as [s [Hsum Hsame]].
  destruct (price_month_cells _ _ _ _ _ _ Hpm) as [Hcells Hcell].
  destruct (Hrow r _ Hr) as [fs [Hfs Htop']].
  rewrite row_tier_costs_pricing_row in Hfs.
  destruct (sum_from_as_float (tier_costs st) (Int 0) s f_zero fs
              (or_introl eq_refl) Hcells Hsum eq_refl Hfs) as [Hs Hsf].
  destruct (Htr r _ Hr) as [c [t' [Hc [Hct Ht']]]].
  rewrite row_total_pricing_row in Hc. injection Hc as <-.
  assert (top = fold_left fadd fs f_zero) by congruence.
  assert (t' = t) by congruence. subst top t'.
  destruct Hs as [-> | [x ->]], Hcell as [Ec | [y Ec]]; rewrite Ec in *;
    simpl in Hsame, Hsf, Hct; try contradiction.
  - injection Hsf as <-. injection Hct as <-. reflexivity.
  - injection Hsf as <-. injection Hct as <-. exact Hsame.
Qed.

Lemma chart_stack_reaches_the_total_witness :
  exists df fig ms totals bands,
    generate_growth_projection 12000 (f_of 5) 3 [5000; 5000]
      [f_one; fdiv f_one (f_of 2)] (fdiv f_one (f_of 4)) true = Ok df
    /\ plot_growth_projection df true = Returns fig
    /\ artists fig = Line2D ms totals "o" "-" "blue" "Total Pricing" :: bands
    /\ stacked (repeat f_zero (List.length ms)) bands
    /\ Forall2 (fun top t => SFeqb top t = true)
         (stack_top (repeat f_zero (List.length ms)) bands) totals.
Proof.
  eexists. eexists.
  assert (E : generate_growth_projection 12000 (f_of 5) 3 [5000; 5000]
                [f_one; fdiv f_one (f_of 2)] (fdiv f_one (f_of 4)) true = Ok _)
    by (vm_compute; reflexivity).
  match type of E with
  | _ = Ok ?d =>
      assert (E' : plot_growth_projection d true = Returns _)
        by (vm_compute; reflexivity)
  end.
  destruct (chart_stack_reaches_the_total 12000 (f_of 5) 3 [5000; 5000]
              [f_one; fdiv f_one (f_of 2)] (fdiv f_one (f_of 4)) _ _
              ltac:(vm_compute; reflexivity) E E') as [ms [totals [bands Hc]]].
  exists ms, totals, bands. split; [exact E|]. split; [exact E'|exact Hc].
Defined.

(** X11: charted without tiers, a table the projector returned never
    raises: the figure is the single line of the row totals, as floats,
    over the months [0 .. months], with the fixed labels and no band. *)
Theorem chart_without_tiers_is_the_total_line iu g months L P F T df :
  generate_growth_projection iu g months L P F T = Ok df ->
  exists totals,
    plot_growth_projection df false
    = Returns {| artists :=
                   [Line2D (map Z.of_nat (seq 0 (S (Z.to_nat months)))) totals
                      "o" "-" "blue" "Total Pricing"];
                 xlabel := "Month";
                 ylabel := "Estimated Pricing ($)";
                 title := "Projected Growth & Pricing";
                 legend := ["Total Pricing"%string] |}
    /\ Forall2 (fun row t => exists c, row_total row = Some c /\ as_float c = Ok t)
         (data df) totals.
Proof.
  intros H.
  destruct (plot_line _ _ _ _ _ _ _ _ H) as [Hm [tc [totals [Htc [Htot [Hl Htr]]]]]].
  destruct (generate_table _ _ _ _ _ _ _ _ H) as [_ [Hlen _]].
  exists totals. split.
  - unfold plot_growth_projection.
    rewrite Hm. cbn [obind]. rewrite astype_as_int. cbn [lift obind].
    rewrite Htc. cbn [obind]. rewrite Htot. reflexivity.
  - apply Forall2_nth_error; [congruence|].
    intros r row t Hr Ht.
    destruct (Htr r row Hr) as [c [t' [Hc [Hct Ht']]]].
    exists c. split; [exact Hc|]. congruence.
Qed.

Lemma chart_without_tiers_is_the_total_line_witness :
  exists df totals,
    generate_growth_projection 10000 (f_of 5) 12 [] [] f_one false = Ok df
    /\ plot_growth_projection df false
       = Returns {| artists :=
                      [Line2D (map Z.of_nat (seq 0 (S (Z.to_nat 12)))) totals
                         "o" "-" "blue" "Total Pricing"];
                    xlabel := "Month";
                    ylabel := "Estimated Pricing ($)";
                    title := "Projected Growth & Pricing";
                    legend := ["Total Pricing"%string] |}
    /\ Forall2 (fun row t => exists c, row_total row = Some c /\ as_float c = Ok t)
         (data df) totals.
Proof.
  eexists.
  assert (E : generate_growth_projection 10000 (f_of 5) 12 [] [] f_one false = Ok _)
    by (vm_compute; reflexivity).
  destruct (chart_without_tiers_is_the_total_line 10000 (f_of 5) 12 [] [] f_one
              false _ E) as [totals Hc].
  exists totals. split; [exact E|exact Hc].
Defined.

(** ** The displayed table *)

Lemma hundredths_nearest m e :
  0 <= hundredths m e
  /\ (Rabs (100 * F2R (Zpos m) e - IZR (hundredths m e)) <= 1 / 2)%R.
Proof.
  destruct e as [|p|p].
  - unfold hundredths, F2R, bpow. simpl powerRZ.
    split; [lia|].
    rewrite Z.mul_1_r, mult_IZR.
    replace (100 * (IZR (Zpos m) * 1) - IZR (Zpos m) * 100)%R with 0%R by ring.
    rewrite Rabs_R0. lra.
  - unfold hundredths, F2R. rewrite (bpow_IZR (Zpos p)) by lia.
    split; [apply Z.mul_nonneg_nonneg; [lia|apply Z.pow_nonneg; lia]|].
    rewrite !mult_IZR.
    replace (100 * (IZR (Zpos m) * IZR (2 ^ Zpos p))
             - IZR (Zpos m) * 100 * IZR (2 ^ Zpos p))%R with 0%R by ring.
    rewrite Rabs_R0. lra.
  - unfold hundredths.
    set (d := 2 ^ Zpos p). set (n := Zpos m * 100).
    assert (Hd : 0 < d) by (apply Z.pow_pos_nonneg; lia).
    pose proof (Z.div_mod n d ltac:(lia)) as Hn.
    pose proof (Z.mod_pos_bound n d Hd) as Hr.
    assert (Hq : 0 <= n / d) by (apply Z.div_pos; unfold n; lia).
    set (q := n / d) in *. set (r := n mod d) in *.
    assert (Hb : (bpow (Zneg p) * IZR d = 1)%R).
    { unfold d. rewrite <- (bpow_IZR (Zpos p)) by lia.
      rewrite <- bpow_add.
      replace (Zneg p + Zpos p) with 0 by lia. reflexivity. }
    pose proof (bpow_gt_0 (Zneg p)) as Hb0.
    assert (Hx : (100 * F2R (Zpos m) (Zneg p)
                  = IZR q + IZR r * bpow (Zneg p))%R).
    { unfold F2R.
      replace (100 * (IZR (Zpos m) * bpow (Zneg p)))%R
        with (IZR n * bpow (Zneg p))%R by (unfold n; rewrite mult_IZR; ring).
      rewrite Hn, plus_IZR, mult_IZR.
      replace ((IZR d * IZR q + IZR r) * bpow (Zneg p))%R
        with (IZR q * (bpow (Zneg p) * IZR d) + IZR r * bpow (Zneg p))%R by ring.
      rewrite Hb. ring. }
    rewrite Hx.
    assert (HR : (0 <= IZR r < IZR d)%R) by (split; [apply IZR_le|apply IZR_lt]; lia).
    assert (HD : (0 < IZR d)%R) by (apply IZR_lt; lia).
    destruct (Z.ltb_spec (2 * r) d) as [H1|H1].
    + split; [exact Hq|].
      apply IZR_lt in H1. rewrite mult_IZR in H1.
      apply Rabs_le. split; nra.
    + destruct (Z.ltb_spec d (2 * r)) as [H2|H2].
      * split; [lia|].
        apply IZR_lt in H2. rewrite mult_IZR in H2. rewrite plus_IZR.
        apply Rabs_le. split; nra.
      * assert (H3 : 2 * r = d) by lia.
        apply (f_equal IZR) in H3. rewrite mult_IZR in H3.
        destruct (Z.even q); [split; [exact Hq|]|split; [lia|rewrite plus_IZR]];
          apply Rabs_le; split; nra.
Qed.

Lemma two_digits_spec n :
  0 <= n < 100 ->
  exists a b,
    0 <= a < 10 /\ 0 <= b < 10 /\ n = 10 * a + b
    /\ two_digits n
       = String (ascii_of_nat (48 + Z.to_nat a))
           (String (ascii_of_nat (48 + Z.to_nat b)) EmptyString).
Proof.
  intros Hn. exists (n / 10), (n mod 10).
  pose proof (Z.div_mod n 10 ltac:(lia)) as Hdm.
  pose proof (Z.mod_pos_bound n 10 ltac:(lia)) as Hm.
  assert (Hq : 0 <= n / 10 < 10).
  { split; [apply Z.div_pos; lia|apply Z.div_lt_upper_bound; lia]. }
  split; [exact Hq|]. split; [exact Hm|]. split; [exact Hdm|].
  assert (Hall : forallb
            (fun k => String.eqb (two_digits (Z.of_nat k))
                        (String (ascii_of_nat (48 + Z.to_nat (Z.of_nat k / 10)))
                           (String (ascii_of_nat (48 + Z.to_nat (Z.of_nat k mod 10)))
                              EmptyString)))
            (seq 0 100) = true) by (vm_compute; reflexivity).
  rewrite forallb_forall in Hall.
  specialize (Hall (Z.to_nat n)).
  rewrite Z2Nat.id in Hall by lia.
  apply String.eqb_eq, Hall. apply in_seq. lia.
Qed.

(** X12: a finite cost that is not negative is displayed as the hundredth
    nearest to it: the text is an integer part, a point and two decimal
    digits, and the number it writes is within half a hundredth of the
    float's exact value. *)
Theorem displayed_cost_is_the_nearest_hundredth x :
  finite_nonneg x = true ->
  exists ip a b,
    format_2f (Float x)
    = Ok (str_of_N ip ++ "."
          ++ String (ascii_of_nat (48 + Z.to_nat a))
               (String (ascii_of_nat (48 + Z.to_nat b)) EmptyString))%string
    /\ 0 <= a < 10 /\ 0 <= b < 10
    /\ (Rabs (100 * B2R x - IZR (100 * Z.of_N ip + 10 * a + b)) <= 1 / 2)%R.
Proof.
  intros Hx. destruct x as [[|]| | |[|] m e]; try discriminate.
  - exists 0%N, 0, 0. split; [reflexivity|]. split; [lia|]. split; [lia|].
    simpl. rewrite Rmult_0_r, Rminus_0_r, Rabs_R0. lra.
  - destruct (hundredths_nearest m e) as [Hh Hb].
    pose proof (Z.div_mod (hundredths m e) 100 ltac:(lia)) as Hdm.
    pose proof (Z.mod_pos_bound (hundredths m e) 100 ltac:(lia)) as Hm.
    destruct (two_digits_spec _ Hm) as [a [b [Ha [Hb' [Hab Htd]]]]].
    exists (Z.to_N (hundredths m e / 100)), a, b.
    split; [|split; [exact Ha|split; [exact Hb'|]]].
    + unfold format_2f, as_float, format_float, fixed_2. cbn [bind].
      rewrite Htd. reflexivity.
    + rewrite Z2N.id by (apply Z.div_pos; lia).
      replace (100 * (hundredths m e / 100) + 10 * a + b) with (hundredths m e) by lia.
      exact Hb.
Qed.

Lemma displayed_cost_is_the_nearest_hundredth_witness :
  exists ip a b,
    format_2f (Float (fdiv (f_of 2675) (f_of 1000)))
    = Ok (str_of_N ip ++ "."
          ++ String (ascii_of_nat (48 + Z.to_nat a))
               (String (ascii_of_nat (48 + Z.to_nat b)) EmptyString))%string
    /\ 0 <= a < 10 /\ 0 <= b < 10
    /\ (Rabs (100 * B2R (fdiv (f_of 2675) (f_of 1000))
              - IZR (100 * Z.of_N ip + 10 * a + b)) <= 1 / 2)%R.
Proof.
  apply (displayed_cost_is_the_nearest_hundredth (fdiv (f_of 2675) (f_of 1000))).
  vm_compute. reflexivity.
Defined.

(** ** The page *)

Lemma plot_returns iu g months L P F T df :
  generate_growth_projection iu g months L P F T = Ok df ->
  (T = true -> (List.length L <= 3)%nat) ->
  exists fig, plot_growth_projection df T = Returns fig.
Proof.
  intros H Hn.
  destruct (plot_line _ _ _ _ _ _ _ _ H) as [Hm [tc [totals [Htc [Htot _]]]]].
  unfold plot_growth_projection.
  rewrite Hm. cbn [obind]. rewrite astype_as_int. cbn [lift obind].
  rewrite Htc. cbn [obind]. rewrite Htot. cbn [lift obind].
  destruct T; [|eexists; reflexivity].
  rewrite months_length.
  destruct (proj1 (plot_bands _ _ _ _ _ _ _
                     (map Z.of_nat (seq 0 (S (Z.to_nat months)))) H) (Hn eq_refl))
    as [bands [Hb _]].
  rewrite Hb. eexists. reflexivity.
Qed.

Lemma forallb_map_impl {A B : Type} (f : A -> bool) (g : B -> bool) (h : A -> B) xs :
  (forall x, f x = true -> g (h x) = true) ->
  forallb f xs = true -> forallb g (map h xs) = true.
Proof.
  intros Himp. induction xs as [|x xs IH]; simpl; [trivial|].
  intros H. apply andb_true_iff in H. destruct H as [Hx H].
  now rewrite (Himp x Hx), IH.
Qed.

(** The arguments [main] passes are a valid configuration, with at most
    three tiers. *)
Lemma main_arguments_valid ui :
  widgets_ok ui = true ->
  valid_config (initial_users_input ui) (growth_rate_input ui) (months_input ui)
    (tier_limits_of ui) (tier_prices_of ui) (final_tier_price_of ui)
    (use_tiers_input ui) = true
  /\ (List.length (tier_limits_of ui) <= 3)%nat.
Proof.
  unfold widgets_ok, valid_config, tier_limits_of, tier_prices_of,
    final_tier_price_of, valid_tiers.
  intros H.
  apply andb_true_iff in H. destruct H as [H Ht].
  apply andb_true_iff in H. destruct H as [H Hm].
  apply andb_true_iff in H. destruct H as [Hi Hg].
  apply Z.leb_le in Hi.
  assert (Hm' : 0 < months_input ui).
  { apply orb_true_iff in Hm. destruct Hm as [Hm|Hm]; apply Z.eqb_eq in Hm; lia. }
  rewrite Hg.
  replace (0 <? initial_users_input ui) with true by (symmetry; apply Z.ltb_lt; lia).
  replace (0 <? months_input ui) with true by (symmetry; apply Z.ltb_lt; lia).
  destruct (use_tiers_input ui).
  - apply andb_true_iff in Ht. destruct Ht as [Ht HF].
    apply andb_true_iff in Ht. destruct Ht as [Ht HP].
    apply andb_true_iff in Ht. destruct Ht as [Hn HL].
    apply andb_true_iff in Hn. destruct Hn as [Hn1 Hn3].
    apply Z.leb_le in Hn1, Hn3.
    rewrite HF, !length_map, !length_seq, Nat.eqb_refl.
    assert (HL' : forallb (fun limit => 0 <? limit)
                    (map (tier_limit_input ui) (seq 0 (Z.to_nat (num_tiers_input ui))))
                  = true).
    { apply (forallb_map_impl (fun i => 1 <=? tier_limit_input ui i)); [|exact HL].
      intros i Hi'. apply Z.leb_le in Hi'. apply Z.ltb_lt. lia. }
    assert (HP' : forallb nonneg_real
                    (map (tier_price_input ui) (seq 0 (Z.to_nat (num_tiers_input ui))))
                  = true).
    { apply (forallb_map_impl (fun i => nonneg_real (tier_price_input ui i)));
        [|exact HP].
      intros i Hi'. exact Hi'. }
    rewrite HL', HP'. split; [reflexivity|lia].
  - rewrite Ht. split; [reflexivity|simpl; lia].
Qed.

(** X13: with the values its widgets can give, [main] passes the
    projector a valid configuration whose tier lists are parallel and
    have at most three tiers; so the call of line 92 raises nothing but
    the [OverflowError] of a count or cost that leaves the range of a
    float, it returns when the counts stay in that range, and from the
    table it returns [plot_growth_projection(df, use_tiers)] of line 98
    builds its figure -- no [IndexError], no [KeyError]. *)
Theorem widget_values_are_a_valid_configuration ui :
  widgets_ok ui = true ->
  valid_config (initial_users_input ui) (growth_rate_input ui) (months_input ui)
    (tier_limits_of ui) (tier_prices_of ui) (final_tier_price_of ui)
    (use_tiers_input ui) = true
  /\ List.length (tier_limits_of ui) = List.length (tier_prices_of ui)
  /\ (List.length (tier_limits_of ui) <= 3)%nat
  /\ (in_range (initial_users_input ui) (growth_rate_input ui) (months_input ui)
      = true ->
      exists df, main_projection ui = Ok df)
  /\ (forall e, main_projection ui = Raise e -> e = OverflowError)
  /\ forall df,
       main_projection ui = Ok df ->
       exists fig, plot_growth_projection df (use_tiers_input ui) = Returns fig.
Proof.
  intros Hw. destruct (main_arguments_valid ui Hw) as [Hv Hn].
  split; [exact Hv|].
  split.
  { unfold tier_limits_of, tier_prices_of.
    destruct (use_tiers_input ui); [|reflexivity].
    now rewrite !length_map. }
  split; [exact Hn|].
  split; [intros Hr; exact (generate_returns _ _ _ _ _ _ _ Hv Hr)|].
  split.
  - intros e He. unfold main_projection in He.
    destruct (generate_valid _ _ _ _ _ _ _ Hv) as [Hraise | [df Hdf]]; congruence.
  - intros df Hdf.
    exact (plot_returns _ _ _ _ _ _ _ _ Hdf ltac:(intros _; exact Hn)).
Qed.

(** The page as it opens, with tiered pricing switched on: 10000 users,
    5.0 percent, 12 months, two tiers of 5000 and 10000 at 1.0, final
    price 0.8. *)
Lemma widget_values_are_a_valid_configuration_witness :
  exists ui,
    tier_limits_of ui = [5000; 10000]
    /\ valid_config (initial_users_input ui) (growth_rate_input ui) (months_input ui)
         (tier_limits_of ui) (tier_prices_of ui) (final_tier_price_of ui)
         (use_tiers_input ui) = true
    /\ List.length (tier_limits_of ui) = List.length (tier_prices_of ui)
    /\ (List.length (tier_limits_of ui) <= 3)%nat
    /\ (in_range (initial_users_input ui) (growth_rate_input ui) (months_input ui)
        = true ->
        exists df, main_projection ui = Ok df)
    /\ (forall e, main_projection ui = Raise e -> e = OverflowError)
    /\ forall df,
         main_projection ui = Ok df ->
         exists fig, plot_growth_projection df (use_tiers_input ui) = Returns fig.
Proof.
  exists {| initial_users_input := 10000;
            growth_rate_input := f_of 5;
            months_input := 12;
            use_tiers_input := true;
            num_tiers_input := 2;
            tier_limit_input := fun i => (Z.of_nat i + 1) * 5000;
            tier_price_input := fun _ => f_one;
            final_tier_price_input := fdiv (f_of 4) (f_of 5);
            flat_cost_input := f_one |}.
  split; [reflexivity|].
  apply (widget_values_are_a_valid_configuration
           {| initial_users_input := 10000;
              growth_rate_input := f_of 5;
              months_input := 12;
              use_tiers_input := true;
              num_tiers_input := 2;
              tier_limit_input := fun i => (Z.of_nat i + 1) * 5000;
              tier_price_input := fun _ => f_one;
              final_tier_price_input := fdiv (f_of 4) (f_of 5);
              flat_cost_input := f_one |}).
  vm_compute. reflexivity.
Defined.
